(** * PyPGKit: repository, schema/migration and pool-manager contracts

    A shallow embedding of the SQL-building and lifecycle code of
    [pypgkit] (repositories/base.py, schema.py, connection.py) together
    with the properties its specification states about them, followed
    by further properties of that code and of the facade's life cycle
    (database.py), the configuration (config.py) and the connection
    checks and schema initialisation of setup.py.

    The wrapped driver (psycopg, psycopg_pool) is an external
    collaborator: its [sql] composition primitives are modelled in
    [Module Sql]; what the database and the pool library answer is an
    oracle consulted by the monadic primitives of [Section Facade] and
    of [Module Connection].  Locks are left out: every run is that of
    one thread. *)

From Stdlib Require Import String Ascii List ZArith Bool Lia DecimalString.
From Stdlib Require QArith.
Import ListNotations.
Open Scope string_scope.
Open Scope list_scope.
Open Scope Z_scope.

(** String concatenation, kept apart from list append. *)
Infix "^^" := String.append (at level 60, right associativity).

(** ** Python values *)

(** The values that travel through the repository as [Any]. *)
Inductive Value : Type :=
| VNone
| VBool (b : bool)
| VInt (n : Z)
| VStr (s : string).

Definition value_eqb (a b : Value) : bool :=
  match a, b with
  | VNone, VNone => true
  | VBool x, VBool y => Bool.eqb x y
  | VInt x, VInt y => Z.eqb x y
  | VStr x, VStr y => String.eqb x y
  | _, _ => false
  end.

Definition is_none (v : Value) : bool :=
  match v with VNone => true | _ => false end.

(** Python truthiness of a value ([if result], [bool(result)]). *)
Definition truthy (v : Value) : bool :=
  match v with
  | VNone => false
  | VBool b => b
  | VInt n => negb (Z.eqb n 0)
  | VStr s => negb (String.eqb s "")
  end.

Definition str_of_Z (n : Z) : string := NilZero.string_of_int (Z.to_int n).

(** [str(v)], as used by the f-strings of the error messages. *)
Definition py_str (v : Value) : string :=
  match v with
  | VNone => "None"
  | VBool true => "True"
  | VBool false => "False"
  | VInt n => str_of_Z n
  | VStr s => s
  end.

(** A [dict] with string keys, in insertion order.  Keys are unique in a
    Python dict; the operations below never introduce a duplicate. *)
Definition Dict : Type := list (string * Value).

Definition dict_keys (d : Dict) : list string := map fst d.
Definition dict_values (d : Dict) : list Value := map snd d.

Fixpoint dict_get (k : string) (d : Dict) : option Value :=
  match d with
  | [] => None
  | (k', v) :: rest => if String.eqb k k' then Some v else dict_get k rest
  end.

(** [k in d] *)
Definition dict_mem (k : string) (d : Dict) : bool :=
  match dict_get k d with Some _ => true | None => false end.

(** The dict left by [d.pop(k)]: the entry for [k] is gone. *)
Definition dict_remove (k : string) (d : Dict) : Dict :=
  filter (fun kv => negb (String.eqb k (fst kv))) d.

(** ** psycopg.sql: composable SQL fragments *)

Module Sql.

(** [sql.SQL], [sql.Identifier], [sql.Literal], [sql.Placeholder]. *)
Inductive Composable : Type :=
| SQL (text : string)
| Identifier (name : string)
| Literal (v : Value)
| Placeholder.

(** [sql.Composed]: a sequence of fragments.  A [Composed] nested in
    another renders as the concatenation of its parts, so the sequence
    is kept flat. *)
Definition Composed : Type := list Composable.

(** The literal texts of a template, cut at each [{}] field. *)
Fixpoint fields (s : string) : list string :=
  match s with
  | EmptyString => [EmptyString]
  | String "{"%char (String "}"%char rest) => EmptyString :: fields rest
  | String c rest =>
      match fields rest with
      | h :: t => String c h :: t
      | [] => [String c EmptyString]
      end
  end.

Definition text_part (t : string) : Composed :=
  if String.eqb t "" then [] else [SQL t].

(** Fill the auto-numbered fields with the arguments, in order. *)
Fixpoint fill (texts : list string) (args : list Composed) : Composed :=
  match texts with
  | [] => []
  | t :: ts =>
      text_part t ++
      match ts with
      | [] => []
      | _ :: _ =>
          match args with
          | a :: rest => a ++ fill ts rest
          | [] => fill ts []
          end
      end
  end.

(** [sql.SQL(template).format(arg, ...)] *)
Definition format (template : string) (args : list Composed) : Composed :=
  fill (fields template) args.

(** [sql.SQL(joiner).join(seq)] *)
Fixpoint join (joiner : string) (seq : list Composed) : Composed :=
  match seq with
  | [] => []
  | [x] => x
  | x :: rest => x ++ SQL joiner :: join joiner rest
  end.

Definition dquote : ascii := ascii_of_nat 34.
Definition squote : ascii := ascii_of_nat 39.

(** Double every occurrence of the quote character [q]. *)
Fixpoint escape (q : ascii) (s : string) : string :=
  match s with
  | EmptyString => EmptyString
  | String c rest =>
      if Ascii.eqb c q then String c (String c (escape q rest))
      else String c (escape q rest)
  end.

Definition quote (q : ascii) (s : string) : string :=
  String q (escape q s ^^ String q EmptyString).

(** The text a literal is merged into the query as: a negative number
    gets a leading space, a string is quoted with its quotes doubled.
    The repository makes integer literals only. *)
Definition literal_text (v : Value) : string :=
  match v with
  | VNone => "NULL"
  | VBool true => "true"
  | VBool false => "false"
  | VInt n => if n <? 0 then " " ^^ str_of_Z n else str_of_Z n
  | VStr s => quote squote s
  end.

Definition as_string1 (c : Composable) : string :=
  match c with
  | SQL t => t
  | Identifier n => quote dquote n
  | Literal v => literal_text v
  | Placeholder => "%s"
  end.

(** [Composed.as_string()]: the query text sent to the server. *)
Definition as_string (q : Composed) : string :=
  fold_right (fun c acc => as_string1 c ^^ acc) "" q.

Definition identifiers (q : Composed) : list string :=
  flat_map (fun c => match c with Identifier n => [n] | _ => [] end) q.

Definition literals (q : Composed) : list Value :=
  flat_map (fun c => match c with Literal v => [v] | _ => [] end) q.

Definition raw_texts (q : Composed) : list string :=
  flat_map (fun c => match c with SQL t => [t] | _ => [] end) q.

End Sql.

Import Sql.

(** ** Exceptions (exceptions.py) and results *)

(** The [Exception] subclasses that reach this code: the package's own
    kinds, each with the message and the [__cause__] set by
    [raise ... from e], and [PyException] for every other one (driver
    errors, [ValueError], ...). *)
#[warnings="-register-all"]
Inductive Exc : Type :=
| PyException (msg : string)
| DatabaseConnectionError (msg : string) (cause : option Exc)
| SchemaError (msg : string) (cause : option Exc)
| RepositoryError (msg : string) (cause : option Exc).

(** [str(e)] *)
Definition exc_str (e : Exc) : string :=
  match e with
  | PyException m => m
  | DatabaseConnectionError m _ => m
  | SchemaError m _ => m
  | RepositoryError m _ => m
  end.

Definition exc_cause (e : Exc) : option Exc :=
  match e with
  | PyException _ => None
  | DatabaseConnectionError _ c => c
  | SchemaError _ c => c
  | RepositoryError _ c => c
  end.

(** [isinstance(e, RepositoryError)] *)
Definition is_repository_error (e : Exc) : bool :=
  match e with RepositoryError _ _ => true | _ => false end.

Definition is_schema_error (e : Exc) : bool :=
  match e with SchemaError _ _ => true | _ => false end.

Definition is_connection_error (e : Exc) : bool :=
  match e with DatabaseConnectionError _ _ => true | _ => false end.

Inductive Result (A : Type) : Type :=
| Ok (a : A)
| Raise (e : Exc).
Arguments Ok {A} a.
Arguments Raise {A} e.

(** ** Statements and the calls observed on the database facade *)

(** A query is a plain [str] or a composed [sql] object. *)
Inductive Query : Type :=
| QText (text : string)
| QComposed (q : Composed).

(** A query with the parameters handed to the driver for binding
    ([None] when the call passes none). *)
Record Statement : Type := mkStatement {
  stmt_query : Query;
  stmt_params : option (list Value)
}.

(** The text of the statement as the server receives it (bound
    parameters travel apart from it). *)
Definition query_text (q : Query) : string :=
  match q with
  | QText t => t
  | QComposed c => as_string c
  end.

(** The calls on the facade ([fetch_one] with dict rows, [fetch_all],
    [fetch_value], [execute]), the steps of a [transaction()] block,
    and the calls of the two conversion methods. *)
Inductive Event : Type :=
| EvFetchOne (s : Statement)
| EvFetchAll (s : Statement)
| EvFetchValue (s : Statement)
| EvExecute (s : Statement)
| EvTransaction
| EvConnExecute (s : Statement)
| EvCommit
| EvRollback
| EvEntityToRow
| EvRowToEntity.

(** The statements a trace issued to the database. *)
Definition event_statement (e : Event) : option Statement :=
  match e with
  | EvFetchOne s | EvFetchAll s | EvFetchValue s
  | EvExecute s | EvConnExecute s => Some s
  | _ => None
  end.

Definition issued (l : list Event) : list Statement :=
  flat_map (fun e => match event_statement e with
                     | Some s => [s]
                     | None => []
                     end) l.

(** ** The database facade as seen by its clients (database.py) *)

(** What the database answers to each facade call: the behaviour of the
    server and the driver, which this code does not decide. *)
Record Oracle (DB : Type) : Type := mkOracle {
  on_fetch_one : Statement -> DB -> Result (option Dict) * DB;
  on_fetch_all : Statement -> DB -> Result (list Dict) * DB;
  on_fetch_tuple : Statement -> DB -> Result (option (list Value)) * DB;
  on_execute : Statement -> DB -> Result Z * DB;
  on_transaction : DB -> Result unit * DB;
  on_conn_execute : Statement -> DB -> Result (option Dict) * DB;
  on_commit : DB -> Result unit * DB;
  on_rollback : DB -> Result unit * DB
}.
Arguments on_fetch_one {DB}.
Arguments on_fetch_all {DB}.
Arguments on_fetch_tuple {DB}.
Arguments on_execute {DB}.
Arguments on_transaction {DB}.
Arguments on_conn_execute {DB}.
Arguments on_commit {DB}.
Arguments on_rollback {DB}.

Record World (DB : Type) : Type := mkWorld {
  db : DB;
  log : list Event
}.
Arguments mkWorld {DB}.
Arguments db {DB}.
Arguments log {DB}.

(** Computations over a state [S] that may raise. *)
Definition M (S A : Type) : Type := S -> Result A * S.

Definition ret {S A} (a : A) : M S A := fun s => (Ok a, s).

Definition raise {S A} (e : Exc) : M S A := fun s => (Raise e, s).

Definition bind {S A B} (m : M S A) (k : A -> M S B) : M S B :=
  fun s =>
    match m s with
    | (Ok a, s') => k a s'
    | (Raise e, s') => (Raise e, s')
    end.

(** [try: m  except Exception as e: h e] *)
Definition try_except {S A} (m : M S A) (h : Exc -> M S A) : M S A :=
  fun s =>
    match m s with
    | (Ok a, s') => (Ok a, s')
    | (Raise e, s') => h e s'
    end.

(** [with contextlib.suppress(Exception): m] *)
Definition suppress {S} (m : M S unit) : M S unit :=
  try_except m (fun _ => ret tt).

Definition get {S} : M S S := fun s => (Ok s, s).
Definition put {S} (s : S) : M S unit := fun _ => (Ok tt, s).

Declare Scope py_scope.
Delimit Scope py_scope with py.
Notation "x <- m ;; k" := (bind m (fun x => k))
  (at level 100, m at next level, right associativity) : py_scope.
Notation "m ;;; k" := (bind m (fun _ => k))
  (at level 100, right associativity) : py_scope.
Open Scope py_scope.

(** [[f(x) for x in xs]], stopping at the first exception. *)
Fixpoint for_each {S A B} (f : A -> M S B) (xs : list A) : M S (list B) :=
  match xs with
  | [] => ret []
  | x :: rest =>
      y <- f x ;;
      ys <- for_each f rest ;;
      ret (y :: ys)
  end.

Section Facade.

Context {DB : Type} (oracle : Oracle DB).

(** One call on the facade: it is recorded, and the database answers. *)
Definition call {A} (ev : Event) (answer : DB -> Result A * DB) : M (World DB) A :=
  fun w =>
    let '(r, d) := answer (db w) in
    (r, mkWorld d (log w ++ [ev])).

Definition fetch_one (s : Statement) : M (World DB) (option Dict) :=
  call (EvFetchOne s) (on_fetch_one oracle s).

Definition fetch_all (s : Statement) : M (World DB) (list Dict) :=
  call (EvFetchAll s) (on_fetch_all oracle s).

(** [fetch_value]: [fetch_one] with the row as a tuple, then
    [row[0] if row else None]. *)
Definition fetch_value (s : Statement) : M (World DB) Value :=
  row <- call (EvFetchValue s) (on_fetch_tuple oracle s) ;;
  ret (match row with
       | Some (first :: _) => first
       | _ => VNone
       end).

Definition execute (s : Statement) : M (World DB) Z :=
  call (EvExecute s) (on_execute oracle s).

(** [cur.execute(...); cur.fetchone()] and [conn.execute(...)] on the
    connection of the running transaction. *)
Definition conn_execute (s : Statement) : M (World DB) (option Dict) :=
  call (EvConnExecute s) (on_conn_execute oracle s).

Definition commit : M (World DB) unit := call EvCommit (on_commit oracle).
Definition rollback : M (World DB) unit := call EvRollback (on_rollback oracle).

(** [with db.transaction() as conn: body]: commit when the body
    completes, roll back and re-raise when it (or the commit) raises. *)
Definition transaction {A} (body : M (World DB) A) : M (World DB) A :=
  call EvTransaction (on_transaction oracle) ;;;
  try_except
    (x <- body ;; commit ;;; ret x)
    (fun e => rollback ;;; raise e).

End Facade.

(** ** The generic repository (repositories/base.py) *)

(** A concrete repository: its class attributes and the two conversion
    methods it must define.  A conversion is user code and may raise. *)
Record Repository (Entity : Type) : Type := mkRepository {
  table_name : string;
  primary_key : string;
  schema : string;
  _row_to_entity : Dict -> Result Entity;
  _entity_to_row : Entity -> Result Dict
}.
Arguments table_name {Entity}.
Arguments primary_key {Entity}.
Arguments schema {Entity}.
Arguments _row_to_entity {Entity}.
Arguments _entity_to_row {Entity}.

(** [_validate_configuration]: the table name must be set and non-empty. *)
Definition _validate_configuration {Entity} (class_name : string)
    (r : Repository Entity) : Result unit :=
  if String.eqb (table_name r) "" then
    Raise (RepositoryError (class_name ^^ " must define 'table_name'") None)
  else Ok tt.

(** [int(result)] for the value a count query returns. *)
Definition py_int (v : Value) : Result Z :=
  match v with
  | VInt n => Ok n
  | VBool b => Ok (if b then 1 else 0)
  | VStr s =>
      match NilZero.int_of_string s with
      | Some d => Ok (Z.of_int d)
      | None => Raise (PyException "invalid literal for int()")
      end
  | VNone => Raise (PyException "int() argument must not be None")
  end.

Section Queries.

Context {Entity : Type} (self : Repository Entity).

Definition ident (name : string) : Composed := [Identifier name].

Definition _qualified_table : Composed :=
  format "{}.{}" [ident (schema self); ident (table_name self)].

Definition find_by_id_query : Composed :=
  format "SELECT * FROM {} WHERE {} = %s"
         [_qualified_table; ident (primary_key self)].

(** The trailing ORDER BY / LIMIT / OFFSET parts shared by [find_all]
    and [find_by]; [if order_by] skips both [None] and the empty
    string. *)
Definition paging_parts (limit offset : option Z) (order_by : option string)
    (order_desc : bool) : list Composed :=
  (match order_by with
   | Some column =>
       if String.eqb column "" then []
       else
         let direction := if order_desc then [SQL "DESC"] else [SQL "ASC"] in
         [format "ORDER BY {} {}" [ident column; direction]]
   | None => []
   end)
  ++ (match limit with
      | Some n => [format "LIMIT {}" [[Literal (VInt n)]]]
      | None => []
      end)
  ++ (match offset with
      | Some n => [format "OFFSET {}" [[Literal (VInt n)]]]
      | None => []
      end).

Definition find_all_query (limit offset : option Z)
    (order_by : option string) (order_desc : bool) : Composed :=
  let parts :=
    [format "SELECT * FROM {}" [_qualified_table]]
    ++ paging_parts limit offset order_by order_desc in
  join " " parts.

(** One turn of the loop over [conditions.items()]. *)
Definition where_step (acc : list Composed * list Value)
    (item : string * Value) : list Composed * list Value :=
  let '(where_parts, values) := acc in
  let '(column, value) := item in
  if is_none value then
    (where_parts ++ [format "{} IS NULL" [ident column]], values)
  else
    (where_parts ++ [format "{} = %s" [ident column]], values ++ [value]).

Definition where_loop (conditions : Dict) : list Composed * list Value :=
  fold_left where_step conditions ([], []).

Definition find_by_query (conditions : Dict) (limit offset : option Z)
    (order_by : option string) (order_desc : bool) : Composed :=
  let where_parts := fst (where_loop conditions) in
  let parts :=
    [format "SELECT * FROM {} WHERE {}"
            [_qualified_table; join " AND " where_parts]]
    ++ paging_parts limit offset order_by order_desc in
  join " " parts.

Definition insert_query (columns : list string) : Composed :=
  format "INSERT INTO {} ({}) VALUES ({}) RETURNING *"
         [_qualified_table;
          join ", " (map ident columns);
          join ", " (map (fun _ => [Placeholder]) columns)].

Definition update_query (columns : list string) : Composed :=
  let set_clause :=
    join ", " (map (fun c => format "{} = %s" [ident c]) columns) in
  format "UPDATE {} SET {} WHERE {} = %s RETURNING *"
         [_qualified_table; set_clause; ident (primary_key self)].

Definition delete_query : Composed :=
  format "DELETE FROM {} WHERE {} = %s"
         [_qualified_table; ident (primary_key self)].

Definition delete_by_query (conditions : Dict) : Composed :=
  format "DELETE FROM {} WHERE {}"
         [_qualified_table; join " AND " (fst (where_loop conditions))].

Definition count_where_query (conditions : Dict) : Composed :=
  format "SELECT COUNT(*) FROM {} WHERE {}"
         [_qualified_table; join " AND " (fst (where_loop conditions))].

Definition count_all_query : Composed :=
  format "SELECT COUNT(*) FROM {}" [_qualified_table].

Definition exists_query : Composed :=
  format "SELECT EXISTS(SELECT 1 FROM {} WHERE {} = %s)"
         [_qualified_table; ident (primary_key self)].

End Queries.

Section Operations.

Context {DB : Type} (oracle : Oracle DB).
Context {Entity : Type} (self : Repository Entity).

Definition stmt (q : Composed) (params : option (list Value)) : Statement :=
  mkStatement (QComposed q) params.

(** A call of a conversion method: recorded, then its result. *)
Definition row_to_entity (row : Dict) : M (World DB) Entity :=
  fun w => (_row_to_entity self row, mkWorld (db w) (log w ++ [EvRowToEntity])).

Definition entity_to_row (e : Entity) : M (World DB) Dict :=
  fun w => (_entity_to_row self e, mkWorld (db w) (log w ++ [EvEntityToRow])).

(** [except Exception as e: raise RepositoryError(f"{what}: {e}") from e] *)
Definition wrap {A} (what : string) (e : Exc) : M (World DB) A :=
  raise (RepositoryError (what ^^ ": " ^^ exc_str e) (Some e)).

(** [except RepositoryError: raise], then the clause above. *)
Definition reraise_or_wrap {A} (what : string) (e : Exc) : M (World DB) A :=
  if is_repository_error e then raise e else wrap what e.

(** A fetched row is used when it is truthy: not [None], not empty. *)
Definition row_truthy (row : option Dict) : option Dict :=
  match row with
  | Some (kv :: rest) => Some (kv :: rest)
  | _ => None
  end.

(** Each operation is its [try:] block, named [..._body], under its
    [except] clauses. *)

Definition find_by_id_body (id_value : Value) : M (World DB) (option Entity) :=
  let query := find_by_id_query self in
  row <- fetch_one oracle (stmt query (Some [id_value])) ;;
  match row_truthy row with
  | Some r => e <- row_to_entity r ;; ret (Some e)
  | None => ret None
  end.

Definition find_by_id (id_value : Value) : M (World DB) (option Entity) :=
  try_except (find_by_id_body id_value)
             (wrap ("Failed to find by id " ^^ py_str id_value)).

Definition find_all_body (limit offset : option Z) (order_by : option string)
    (order_desc : bool) : M (World DB) (list Entity) :=
  let query := find_all_query self limit offset order_by order_desc in
  rows <- fetch_all oracle (stmt query None) ;;
  for_each row_to_entity rows.

Definition find_all (limit offset : option Z) (order_by : option string)
    (order_desc : bool) : M (World DB) (list Entity) :=
  try_except (find_all_body limit offset order_by order_desc)
             (wrap "Failed to find all").

Definition find_by_body (conditions : Dict) (limit offset : option Z)
    (order_by : option string) (order_desc : bool) : M (World DB) (list Entity) :=
  let values := snd (where_loop conditions) in
  let query :=
    find_by_query self conditions limit offset order_by order_desc in
  rows <- fetch_all oracle (stmt query (Some values)) ;;
  for_each row_to_entity rows.

Definition find_by (conditions : Dict) (limit offset : option Z)
    (order_by : option string) (order_desc : bool) : M (World DB) (list Entity) :=
  match conditions with
  | [] => find_all limit offset order_by order_desc
  | _ :: _ =>
      try_except (find_by_body conditions limit offset order_by order_desc)
                 (wrap "Failed to find by conditions")
  end.

Definition find_one_by (conditions : Dict) : M (World DB) (option Entity) :=
  results <- find_by conditions (Some 1) None None false ;;
  ret (match results with
       | first :: _ => Some first
       | [] => None
       end).

Definition create_body (entity : Entity) : M (World DB) Entity :=
  row <- entity_to_row entity ;;
  let columns := dict_keys row in
  let values := dict_values row in
  let query := insert_query self columns in
  result <- fetch_one oracle (stmt query (Some values)) ;;
  match result with
  | None => raise (RepositoryError "Insert returned no result" None)
  | Some r => row_to_entity r
  end.

Definition create (entity : Entity) : M (World DB) Entity :=
  try_except (create_body entity) (reraise_or_wrap "Failed to create entity").

(** The loop of [create_many] inside the transaction. *)
Fixpoint insert_rows (query : Composed) (rows : list Dict)
    (results : list Entity) : M (World DB) (list Entity) :=
  match rows with
  | [] => ret results
  | row :: rest =>
      result <- conn_execute oracle (stmt query (Some (dict_values row))) ;;
      match row_truthy result with
      | Some r =>
          e <- row_to_entity r ;;
          insert_rows query rest (results ++ [e])
      | None => insert_rows query rest results
      end
  end.

Definition create_many_body (entities : list Entity) : M (World DB) (list Entity) :=
  rows <- for_each entity_to_row entities ;;
  let columns := dict_keys (hd [] rows) in
  let query := insert_query self columns in
  transaction oracle (insert_rows query rows []).

Definition create_many (entities : list Entity) : M (World DB) (list Entity) :=
  match entities with
  | [] => ret []
  | _ :: _ =>
      try_except (create_many_body entities) (wrap "Failed to create entities")
  end.

Definition update_body (entity : Entity) : M (World DB) Entity :=
  row <- entity_to_row entity ;;
  match dict_get (primary_key self) row with
  | None =>
      raise (RepositoryError
               ("Entity must have '" ^^ primary_key self ^^ "' for update")
               None)
  | Some pk_value =>
      let row := dict_remove (primary_key self) row in
      let columns := dict_keys row in
      let values := dict_values row in
      let query := update_query self columns in
      result <- fetch_one oracle (stmt query (Some (values ++ [pk_value]))) ;;
      match result with
      | None =>
          raise (RepositoryError
                   ("Entity with " ^^ primary_key self ^^ "="
                    ^^ py_str pk_value ^^ " not found")
                   None)
      | Some r => row_to_entity r
      end
  end.

Definition update (entity : Entity) : M (World DB) Entity :=
  try_except (update_body entity) (reraise_or_wrap "Failed to update entity").

Definition delete_body (id_value : Value) : M (World DB) bool :=
  let query := delete_query self in
  rows_affected <- execute oracle (stmt query (Some [id_value])) ;;
  ret (0 <? rows_affected).

Definition delete (id_value : Value) : M (World DB) bool :=
  try_except (delete_body id_value) (wrap "Failed to delete entity").

Definition delete_by_body (conditions : Dict) : M (World DB) Z :=
  let values := snd (where_loop conditions) in
  let query := delete_by_query self conditions in
  execute oracle (stmt query (Some values)).

Definition delete_by (conditions : Dict) : M (World DB) Z :=
  match conditions with
  | [] => raise (RepositoryError "Conditions required for delete_by" None)
  | _ :: _ =>
      try_except (delete_by_body conditions)
                 (wrap "Failed to delete by conditions")
  end.

(** [conditions] is [None] or a dict; both [None] and the empty dict
    take the unfiltered branch. *)
Definition count_body (conditions : option Dict) : M (World DB) Z :=
  result <-
    match conditions with
    | Some (kv :: rest) =>
        let conditions := kv :: rest in
        let values := snd (where_loop conditions) in
        fetch_value oracle
          (stmt (count_where_query self conditions) (Some values))
    | _ => fetch_value oracle (stmt (count_all_query self) None)
    end ;;
  if truthy result then
    match py_int result with
    | Ok n => ret n
    | Raise e => raise e
    end
  else ret 0.

Definition count (conditions : option Dict) : M (World DB) Z :=
  try_except (count_body conditions) (wrap "Failed to count").

Definition exists_body (id_value : Value) : M (World DB) bool :=
  let query := exists_query self in
  result <- fetch_value oracle (stmt query (Some [id_value])) ;;
  ret (truthy result).

Definition exists_ (id_value : Value) : M (World DB) bool :=
  try_except (exists_body id_value) (wrap "Failed to check existence").

End Operations.

(** ** Test doubles (tests/test_repository.py) *)

Module TestRepository.

(** [SampleEntity]: a dataclass with three fields of any value. *)
Record SampleEntity : Type := mkSampleEntity {
id : Value;
name : Value;
active : Value
}.

Definition dict_get_default (k : string) (default : Value) (d : Dict) : Value :=
match dict_get k d with
| Some v => v
| None => default
end.

(** [SampleRepository]: table [test_entities], key [id], schema [public]. *)
Definition SampleRepository : Repository SampleEntity :=
mkRepository SampleEntity "test_entities" "id" "public"
  (fun row =>
     Ok (mkSampleEntity (dict_get_default "id" VNone row)
                        (dict_get_default "name" (VStr "") row)
                        (dict_get_default "active" (VBool true) row)))
  (fun entity =>
     let row := [("name", name entity); ("active", active entity)] in
     Ok (if is_none (id entity) then row else row ++ [("id", id entity)])).

(** A mock database in the manner of [MagicMock(spec=Database)]: every
  call returns the configured value and keeps no state. *)
Definition mock_db (one : option Dict) (all : list Dict) (value : Value)
  (rowcount : Z) : Oracle unit :=
mkOracle unit
  (fun _ d => (Ok one, d))
  (fun _ d => (Ok all, d))
  (fun _ d => (Ok (Some [value]), d))
  (fun _ d => (Ok rowcount, d))
  (fun d => (Ok tt, d))
  (fun _ d => (Ok one, d))
  (fun d => (Ok tt, d))
  (fun d => (Ok tt, d)).

(** A database every call of which raises the given exception. *)
Definition failing_db (e : Exc) : Oracle unit :=
mkOracle unit
  (fun _ d => (Raise e, d))
  (fun _ d => (Raise e, d))
  (fun _ d => (Raise e, d))
  (fun _ d => (Raise e, d))
  (fun d => (Raise e, d))
  (fun _ d => (Raise e, d))
  (fun d => (Raise e, d))
  (fun d => (Raise e, d)).

Definition empty_world : World unit := mkWorld tt [].

(** A repository whose row conversion rejects every row with an error
    of the package's own kind. *)
Definition StrictRepository : Repository TestRepository.SampleEntity :=
  mkRepository TestRepository.SampleEntity "test_entities" "id" "public"
    (fun _ => Raise (RepositoryError "bad row" None))
    (_entity_to_row TestRepository.SampleRepository).

Definition one_row_db : Oracle unit :=
  TestRepository.mock_db (Some [("id", VInt 1)]) [] VNone 0.

End TestRepository.

(** ** Schema and migration helpers (schema.py) *)

(** [sep.join(parts)] on plain strings. *)
Fixpoint str_join (sep : string) (parts : list string) : string :=
  match parts with
  | [] => ""
  | [x] => x
  | x :: rest => x ^^ sep ^^ str_join sep rest
  end.

Definition MIGRATIONS_TABLE : string := "_pypgkit_migrations".

Definition is_applied_query : string :=
  "SELECT EXISTS (SELECT 1 FROM " ^^ MIGRATIONS_TABLE ^^ " WHERE name = %s)".

Definition mark_applied_query : string :=
  "INSERT INTO " ^^ MIGRATIONS_TABLE ^^ " (name) VALUES (%s)".

Definition text_stmt (query : string) (params : option (list Value)) : Statement :=
  mkStatement (QText query) params.

Definition create_schema_query (schema_name : string) (if_not_exists : bool)
    : string :=
  if if_not_exists then "CREATE SCHEMA IF NOT EXISTS " ^^ schema_name
  else "CREATE SCHEMA " ^^ schema_name.

Definition drop_table_query (table_name schema : string)
    (cascade if_exists : bool) : string :=
  let parts :=
    ["DROP TABLE"]
    ++ (if if_exists then ["IF EXISTS"] else [])
    ++ [schema ^^ "." ^^ table_name]
    ++ (if cascade then ["CASCADE"] else []) in
  str_join " " parts.

Section Schema.

Context {DB : Type} (oracle : Oracle DB).

Definition schema_error {A} (what : string) (e : Exc) : M (World DB) A :=
  raise (SchemaError (what ^^ ": " ^^ exc_str e) (Some e)).



Definition execute_sql (sql : string) : M (World DB) unit :=
  try_except
    (transaction oracle (conn_execute oracle (text_stmt sql None) ;;; ret tt))
    (schema_error "Failed to execute SQL").

(** *** MigrationManager *)

Definition is_applied (migration_name : string) : M (World DB) bool :=
  result <- fetch_value oracle
              (text_stmt is_applied_query (Some [VStr migration_name])) ;;
  ret (truthy result).

Definition mark_applied (migration_name : string) : M (World DB) unit :=
  execute oracle (text_stmt mark_applied_query (Some [VStr migration_name]))
  ;;; ret tt.

Definition run_migration (migration_name sql_content : string)
    (skip_if_applied : bool) : M (World DB) bool :=
  already <- (if skip_if_applied then is_applied migration_name
              else ret false) ;;
  if already then ret false
  else
    transaction oracle
      (conn_execute oracle (text_stmt sql_content None) ;;;
       conn_execute oracle
         (text_stmt mark_applied_query (Some [VStr migration_name])) ;;;
       ret tt) ;;;
    ret true.

End Schema.

(** *** A reference database for the migration bookkeeping

    The server side of the statements [MigrationManager] issues: the
    bookkeeping table (absent until created) holds the recorded names,
    a migration script acts on the store as [script] says, and a
    transaction works on a copy that [commit] installs and [rollback]
    drops. *)

Section MigrationStore.

Context {U : Type}.

Record Store : Type := mkStore {
  migrations : option (list string);
  user_data : U
}.

Record TxDB : Type := mkTxDB {
  committed : Store;
  working : option Store
}.

(** What running a script does to a store. *)
Context (script : string -> Store -> Result Store).

Definition recorded (migration_name : string) (st : Store) : bool :=
  match migrations st with
  | Some names => existsb (String.eqb migration_name) names
  | None => false
  end.

Definition record_name (migration_name : string) (st : Store) : Result Store :=
  match migrations st with
  | None => Raise (PyException "relation does not exist")
  | Some names =>
      if existsb (String.eqb migration_name) names then
        Raise (PyException "duplicate key value violates unique constraint")
      else Ok (mkStore (Some (names ++ [migration_name])) (user_data st))
  end.

(** The bookkeeping insert is recognised by its text and its single
    bound name; any other statement is a script. *)
Definition apply_stmt (s : Statement) (st : Store) : Result Store :=
  match stmt_query s, stmt_params s with
  | QText t, Some [VStr migration_name] =>
      if String.eqb t mark_applied_query then record_name migration_name st
      else script t st
  | QText t, _ => script t st
  | QComposed q, _ => script (as_string q) st
  end.

Definition unsupported {A} (d : TxDB) : Result A * TxDB :=
  (Raise (PyException "statement outside the reference store"), d).

Definition store_fetch_value (s : Statement) (d : TxDB)
    : Result (option (list Value)) * TxDB :=
  match stmt_query s, stmt_params s with
  | QText t, Some [VStr migration_name] =>
      if String.eqb t is_applied_query then
        match migrations (committed d) with
        | Some names =>
            (Ok (Some [VBool (existsb (String.eqb migration_name) names)]), d)
        | None => (Raise (PyException "relation does not exist"), d)
        end
      else unsupported d
  | _, _ => unsupported d
  end.

Definition store_execute (s : Statement) (d : TxDB) : Result Z * TxDB :=
  match apply_stmt s (committed d) with
  | Ok st => (Ok 1, mkTxDB st (working d))
  | Raise e => (Raise e, d)
  end.

Definition store_conn_execute (s : Statement) (d : TxDB)
    : Result (option Dict) * TxDB :=
  match working d with
  | None => (Raise (PyException "no transaction in progress"), d)
  | Some st =>
      match apply_stmt s st with
      | Ok st' => (Ok None, mkTxDB (committed d) (Some st'))
      | Raise e => (Raise e, d)
      end
  end.

Definition store_db : Oracle TxDB :=
  mkOracle TxDB
    (fun _ d => unsupported d)
    (fun _ d => unsupported d)
    store_fetch_value
    store_execute
    (fun d => (Ok tt, mkTxDB (committed d) (Some (committed d))))
    store_conn_execute
    (fun d => (Ok tt, match working d with
                      | Some st => mkTxDB st None
                      | None => d
                      end))
    (fun d => (Ok tt, mkTxDB (committed d) None)).

(** How often the script [sql] was sent on a transaction's connection. *)
Definition is_script_run (sql : string) (e : Event) : bool :=
  match e with
  | EvConnExecute (mkStatement (QText t) None) => String.eqb t sql
  | _ => false
  end.

Definition script_runs (sql : string) (l : list Event) : nat :=
  length (filter (is_script_run sql) l).

End MigrationStore.
Arguments Store U : clear implicits.
Arguments TxDB U : clear implicits.

(** ** The pool manager (connection.py) *)

Module Connection.

(** The settings of [DatabaseConfig] the pool is built from. *)
Record DatabaseConfig : Type := mkConfig {
  database : string;
  min_connections : Z;
  max_connections : Z;
  connection_timeout : Z;
  check_connection : bool
}.

(** What [psycopg_pool] does when asked for a pool with a given
    configuration: the constructor raises, [wait()] raises, or the pool
    is ready. *)
Inductive PoolOutcome : Type :=
| PoolReady
| CtorRaises (e : Exc)
| WaitRaises (e : Exc).

Inductive PoolEvent : Type :=
| PoolOpened (pool : nat) (config : DatabaseConfig)
| PoolWaited (pool : nat)
| PoolClosed (pool : nat).

Definition is_close_of (pool : nat) (e : PoolEvent) : bool :=
  match e with
  | PoolClosed p => Nat.eqb p pool
  | _ => false
  end.

(** The attributes [__init__] gives an instance. *)
Record Attrs : Type := mkAttrs {
  _config : DatabaseConfig;
  _pool : option nat;
  _closed : bool
}.

(** An instance: [attrs] is [None] until [__init__] has assigned them;
    [own_initialized] is the instance attribute [_initialized], which
    shadows the class attribute once it is set. *)
Record Instance : Type := mkInstance {
  attrs : option Attrs;
  own_initialized : bool
}.

(** The module global [_pool_pid], the class attributes, the objects
    allocated so far (a reference is an index), and the process. *)
Record State : Type := mkState {
  pid : Z;
  _pool_pid : option Z;
  _instance : option nat;
  _initialized : bool;
  objects : list Instance;
  next_pool : nat;
  events : list PoolEvent
}.

Definition initial_state (process : Z) : State :=
  mkState process None None false [] 0 [].

(** The child of a fork: the same memory under another process id. *)
Definition fork (child : Z) (s : State) : State :=
  mkState child (_pool_pid s) (_instance s) (_initialized s)
          (objects s) (next_pool s) (events s).

Definition set_object (r : nat) (i : Instance) (s : State) : State :=
  mkState (pid s) (_pool_pid s) (_instance s) (_initialized s)
          (firstn r (objects s) ++ i :: skipn (S r) (objects s))
          (next_pool s) (events s).

Definition emit (e : PoolEvent) : M State unit :=
  fun s => (Ok tt,
            mkState (pid s) (_pool_pid s) (_instance s) (_initialized s)
                    (objects s) (next_pool s) (events s ++ [e])).

Definition attribute_error {A} (attribute : string) : M State A :=
  raise (PyException
           ("'ConnectionPoolSingleton' object has no attribute '"
            ^^ attribute ^^ "'")).

Definition read (r : nat) : M State Instance :=
  fun s => (Ok (nth r (objects s) (mkInstance None false)), s).

Definition read_attrs (r : nat) (attribute : string) : M State Attrs :=
  i <- read r ;;
  match attrs i with
  | Some a => ret a
  | None => attribute_error attribute
  end.

Definition write_attrs (r : nat) (a : Attrs) : M State unit :=
  i <- read r ;;
  fun s => (Ok tt, set_object r (mkInstance (Some a) (own_initialized i)) s).

Section Manager.

Context (open_pool : DatabaseConfig -> PoolOutcome).
Context (close_raises : nat -> option Exc).

Definition __new__ : M State nat :=
  fun s =>
    let current_pid := pid s in
    let s :=
      match _pool_pid s with
      | Some p =>
          if negb (p =? current_pid) then
            mkState (pid s) None None false
                    (objects s) (next_pool s) (events s)
          else s
      | None => s
      end in
    match _instance s with
    | None =>
        let r := length (objects s) in
        (Ok r,
         mkState (pid s) (Some current_pid) (Some r) (_initialized s)
                 (objects s ++ [mkInstance None false])
                 (next_pool s) (events s))
    | Some r => (Ok r, s)
    end.

(** [pool.close(...)]: the close is requested; it may raise. *)
Definition pool_close (p : nat) : M State unit :=
  emit (PoolClosed p) ;;;
  match close_raises p with
  | Some e => raise e
  | None => ret tt
  end.

Definition fresh_pool (config : DatabaseConfig) : M State nat :=
  fun s =>
    let p := next_pool s in
    (Ok p,
     mkState (pid s) (_pool_pid s) (_instance s) (_initialized s)
             (objects s) (S p) (events s ++ [PoolOpened p config])).

Definition set_pool (r : nat) (p : option nat) : M State unit :=
  a <- read_attrs r "_config" ;;
  write_attrs r (mkAttrs (_config a) p (_closed a)).

Definition creation_failed {A} (r : nat) (e : Exc) : M State A :=
  set_pool r None ;;;
  raise (DatabaseConnectionError
           ("Failed to create connection pool: " ^^ exc_str e) (Some e)).

Definition _create_pool (r : nat) : M State unit :=
  a <- read_attrs r "_config" ;;
  match open_pool (_config a) with
  | CtorRaises e => creation_failed r e
  | WaitRaises e =>
      p <- fresh_pool (_config a) ;;
      emit (PoolWaited p) ;;;
      suppress (pool_close p) ;;;
      creation_failed r e
  | PoolReady =>
      p <- fresh_pool (_config a) ;;
      emit (PoolWaited p) ;;;
      set_pool r (Some p)
  end.

(** [self._initialized]: the instance attribute, else the class's. *)
Definition initialized (r : nat) : M State bool :=
  i <- read r ;;
  s <- get ;;
  ret (if own_initialized i then true else _initialized s).

Definition __init__ (r : nat) (config : option DatabaseConfig)
    : M State unit :=
  done <- initialized r ;;
  if done then ret tt
  else
    match config with
    | None =>
        raise (DatabaseConnectionError
                 "Configuration required for initial pool creation" None)
    | Some c =>
        write_attrs r (mkAttrs c None false) ;;;
        _create_pool r ;;;
        i <- read r ;;
        fun s => (Ok tt, set_object r (mkInstance (attrs i) true) s)
    end.

(** [ConnectionPoolSingleton(config)]: [__new__], then [__init__] on
    the instance it returned. *)
Definition get_pool (config : option DatabaseConfig) : M State nat :=
  r <- __new__ ;;
  __init__ r config ;;;
  ret r.

(** The [pool] property. *)
Definition pool (r : nat) : M State nat :=
  a <- read_attrs r "_pool" ;;
  match _pool a with
  | None =>
      raise (DatabaseConnectionError "Connection pool not initialized" None)
  | Some p => ret p
  end.

Definition close (r : nat) : M State unit :=
  a <- read_attrs r "_pool" ;;
  match _pool a with
  | Some p =>
      if negb (_closed a) then
        write_attrs r (mkAttrs (_config a) None true) ;;;
        suppress (pool_close p)
      else ret tt
  | None => ret tt
  end.

Definition reset : M State unit :=
  s <- get ;;
  match _instance s with
  | Some r => suppress (close r)
  | None => ret tt
  end ;;;
  fun s => (Ok tt,
            mkState (pid s) None None false
                    (objects s) (next_pool s) (events s)).

End Manager.

(** *** Vocabulary for the manager's properties *)

(** The state is one in which the next acquisition builds a manager:
    the pool was recorded by another process, or none exists yet. *)
Definition starts_fresh (s : State) : Prop :=
  (exists p, _pool_pid s = Some p /\ p <> pid s)
  \/ (_instance s = None /\ _initialized s = false).

(** The events an acquisition adds when it builds a manager. *)
Definition creation_events (open_pool : DatabaseConfig -> PoolOutcome)
    (config : option DatabaseConfig) (p : nat) : list PoolEvent :=
  match config with
  | None => []
  | Some c =>
      match open_pool c with
      | PoolReady => [PoolOpened p c; PoolWaited p]
      | CtorRaises _ => []
      | WaitRaises _ => [PoolOpened p c; PoolWaited p; PoolClosed p]
      end
  end.

(** The state a successful creation leaves. *)
Definition created (s : State) (c : DatabaseConfig) : State :=
  mkState (pid s) (Some (pid s)) (Some (length (objects s))) false
          (objects s
           ++ [mkInstance (Some (mkAttrs c (Some (next_pool s)) false)) true])
          (S (next_pool s))
          (events s ++ [PoolOpened (next_pool s) c; PoolWaited (next_pool s)]).

Definition blank : Instance := mkInstance None false.

Definition creation_error (e : Exc) : Exc :=
  DatabaseConnectionError
    ("Failed to create connection pool: " ^^ exc_str e) (Some e).

(** A pool library that always comes up, and two configurations. *)
Definition always_ready (c : DatabaseConfig) : PoolOutcome := PoolReady.
Definition quiet_close (p : nat) : option Exc := None.
Definition config1 : DatabaseConfig := mkConfig "db1" 1 10 30 true.
Definition config2 : DatabaseConfig := mkConfig "db2" 2 5 10 false.

End Connection.

(** ** Vocabulary of the specification *)

(** The predicate the specification prescribes for one condition: a null
    test for [None], an equality on a bound parameter otherwise. *)
Definition predicate (item : string * Value) : Composed :=
  if is_none (snd item) then [Identifier (fst item); SQL " IS NULL"]
  else [Identifier (fst item); SQL " = %s"].

(** The values of the conditions that are bound: those that are not
    [None], in the order of the mapping. *)
Definition bound_values (conditions : Dict) : list Value :=
  filter (fun v => negb (is_none v)) (dict_values conditions).

(** [SELECT ... FROM schema.table WHERE p1 AND p2 ...] as a fragment
    sequence, [head] being the text before the table. *)
Definition filtered {Entity} (self : Repository Entity) (head : string)
    (conditions : Dict) : Composed :=
  SQL head :: _qualified_table self
  ++ SQL " WHERE " :: join " AND " (map predicate conditions).

(** One assignment of a SET clause. *)
Definition assignment (column : string) : Composed :=
  [Identifier column; SQL " = %s"].

(** The policy as the specification words it, for an error [raised]
    while an operation runs and the [outcome] of that operation: an
    error already a [RepositoryError] comes out unchanged, any other is
    wrapped in a [RepositoryError] that carries it. *)
Definition error_policy {A} (raised : Exc) (outcome : Result A) : Prop :=
  if is_repository_error raised then outcome = Raise raised
  else exists msg, outcome = Raise (RepositoryError msg (Some raised)).

(** What the clause [except Exception as e] makes of a [try:] block. *)
Definition wrapping {S A} (what : string) (body : M S A) : M S A :=
  fun s =>
    match body s with
    | (Ok a, s') => (Ok a, s')
    | (Raise e, s') =>
        (Raise (RepositoryError (what ^^ ": " ^^ exc_str e) (Some e)), s')
    end.

(** What [except RepositoryError: raise] before that clause makes of it. *)
Definition passing {S A} (what : string) (body : M S A) : M S A :=
  fun s =>
    match body s with
    | (Ok a, s') => (Ok a, s')
    | (Raise e, s') =>
        (Raise (if is_repository_error e then e
                else RepositoryError (what ^^ ": " ^^ exc_str e) (Some e)), s')
    end.

(** The constant SQL texts of repositories/base.py, as [format] cuts
    them at the fields. *)
Definition templates : list string :=
  [ "."; " "; ", "; " AND "; " WHERE "; " = %s"; " IS NULL";
    "SELECT * FROM "; "ORDER BY "; "DESC"; "ASC"; "LIMIT "; "OFFSET ";
    "INSERT INTO "; " ("; ") VALUES ("; ") RETURNING *";
    "UPDATE "; " SET "; " = %s RETURNING *";
    "DELETE FROM "; "SELECT COUNT(*) FROM ";
    "SELECT EXISTS(SELECT 1 FROM "; " = %s)" ].

Definition is_template (t : string) : bool :=
  existsb (String.eqb t) templates.

(** A query made of constant text, of the identifiers [names], each as
    a quoted identifier fragment, and of the literals [lits]. *)
Definition composed_of (names : list string) (lits : list Value)
    (q : Composed) : Prop :=
  forallb is_template (raw_texts q) = true
  /\ identifiers q = names
  /\ literals q = lits.

(** The rule of the specification for one statement: the identifiers
    are quoted fragments,
    no value is merged into the text, and the caller's values are the
    bound parameters. *)
Definition quoted_and_bound (names : list string) (values : list Value)
    (s : Statement) : Prop :=
  exists q,
    stmt_query s = QComposed q
    /\ composed_of names [] q
    /\ stmt_params s = Some values.

Definition option_list {A} (o : option A) : list A :=
  match o with
  | Some a => [a]
  | None => []
  end.

(** The column [find_all] and [find_by] order by, if any. *)
Definition order_names (order_by : option string) : list string :=
  match order_by with
  | Some column => if String.eqb column "" then [] else [column]
  | None => []
  end.

Definition paging_literals (limit offset : option Z) : list Value :=
  map VInt (option_list limit ++ option_list offset).

(** [only allowed m]: whatever the world, every statement [m] sends to
    the database is one of [allowed]. *)
Definition only {DB A} (allowed : list Statement) (m : M (World DB) A) : Prop :=
  forall w : World DB,
    exists new,
      issued (log (snd (m w))) = issued (log w) ++ new /\ incl new allowed.

(** The rows of a batch, when every conversion succeeds. *)
Fixpoint convert_all {Entity} (self : Repository Entity)
    (entities : list Entity) : Result (list Dict) :=
  match entities with
  | [] => Ok []
  | e :: rest =>
      match _entity_to_row self e with
      | Ok row =>
          match convert_all self rest with
          | Ok rows => Ok (row :: rows)
          | Raise x => Raise x
          end
      | Raise x => Raise x
      end
  end.

Section Statements.

Context {Entity : Type} (self : Repository Entity).

(** The statement [create] sends for an entity. *)
Definition create_statements (entity : Entity) : list Statement :=
  match _entity_to_row self entity with
  | Ok row => [stmt (insert_query self (dict_keys row)) (Some (dict_values row))]
  | Raise _ => []
  end.

(** The statements [create_many] sends for a batch: one insert per row,
    all with the columns of the first row. *)
Definition create_many_statements (entities : list Entity) : list Statement :=
  match convert_all self entities with
  | Ok rows =>
      map (fun row => stmt (insert_query self (dict_keys (hd [] rows)))
                           (Some (dict_values row))) rows
  | Raise _ => []
  end.

(** The statement [update] sends for an entity. *)
Definition update_statements (entity : Entity) : list Statement :=
  match _entity_to_row self entity with
  | Ok row =>
      match dict_get (primary_key self) row with
      | Some pk_value =>
          let rest := dict_remove (primary_key self) row in
          [stmt (update_query self (dict_keys rest))
                (Some (dict_values rest ++ [pk_value]))]
      | None => []
      end
  | Raise _ => []
  end.

(** The statement [count] sends. *)
Definition count_statement (conditions : option Dict) : Statement :=
  match conditions with
  | Some (kv :: rest) =>
      stmt (count_where_query self (kv :: rest))
           (Some (bound_values (kv :: rest)))
  | _ => stmt (count_all_query self) None
  end.

End Statements.

(** *** A store whose scripts are only logged *)

Module MigrationExample.

(** A store whose scripts are only logged. *)
Definition logging_script (sql : string) (st : Store (list string))
    : Result (Store (list string)) :=
  Ok (mkStore (migrations st) (user_data st ++ [sql])).

Definition fresh_world : World (TxDB (list string)) :=
  mkWorld (mkTxDB (mkStore (Some []) []) None) [].

End MigrationExample.

(** ** Further vocabulary: placeholders, transaction marks, query texts *)

(** The occurrences of the placeholder [%s] in a text. *)
Fixpoint text_holes (s : string) : nat :=
  match s with
  | EmptyString => 0
  | String "%"%char (String "s"%char rest) => S (text_holes rest)
  | String _ rest => text_holes rest
  end.

(** The placeholders the code writes into a query: those of its
    constant texts and its [Placeholder] fragments. *)
Definition holes (q : Composed) : nat :=
  list_sum (map (fun c => match c with
                          | SQL t => text_holes t
                          | Placeholder => 1%nat
                          | _ => 0%nat
                          end) q).

(** A statement that binds as many values as it has placeholders. *)
Definition balanced (s : Statement) : Prop :=
  match stmt_query s with
  | QComposed q => holes q = length (match stmt_params s with
                                     | Some values => values
                                     | None => []
                                     end)
  | QText t => text_holes t = length (match stmt_params s with
                                      | Some values => values
                                      | None => []
                                      end)
  end.



(** The texts of the parts of a SELECT. *)
Definition table_text {Entity} (self : Repository Entity) : string :=
  quote dquote (schema self) ^^ "." ^^ quote dquote (table_name self).

Definition order_text (order_by : option string) (order_desc : bool) : string :=
  match order_by with
  | Some column =>
      if String.eqb column "" then ""
      else " ORDER BY " ^^ quote dquote column
           ^^ (if order_desc then " DESC" else " ASC")
  | None => ""
  end.

Definition limit_text (limit : option Z) : string :=
  match limit with
  | Some n => " LIMIT " ^^ literal_text (VInt n)
  | None => ""
  end.

Definition offset_text (offset : option Z) : string :=
  match offset with
  | Some n => " OFFSET " ^^ literal_text (VInt n)
  | None => ""
  end.

Definition predicate_text (item : string * Value) : string :=
  quote dquote (fst item) ^^ (if is_none (snd item) then " IS NULL" else " = %s").

(** [appends P m]: whatever the world, [m] only appends to the trace,
    and only events that satisfy [P]. *)
Definition appends {DB A} (P : Event -> bool) (m : M (World DB) A) : Prop :=
  forall w : World DB,
    exists t, log (snd (m w)) = log w ++ t /\ forallb P t = true.



(** ** More of the pool manager (connection.py) *)

(** [d.get(k, default)] *)
Definition dict_get_or (k : string) (default : Value) (d : Dict) : Value :=
  match dict_get k d with
  | Some v => v
  | None => default
  end.

(** The errors of the [pool] property and of [__init__]. *)
Definition not_initialized : Exc :=
  DatabaseConnectionError "Connection pool not initialized" None.

Definition configuration_required : Exc :=
  DatabaseConnectionError "Configuration required for initial pool creation"
                          None.

Module PoolAccess.

Import Connection.

Section Access.

(** What the pool answers: [getconn()] gives a connection or raises,
    [putconn(conn)] may raise, [get_stats()] gives a dict. *)
Context (getconn : nat -> Result nat).
Context (putconn : nat -> nat -> option Exc).
Context (pool_stats : nat -> Dict).

Definition get_connection (r : nat) : M State nat :=
  try_except
    (p <- pool r ;;
     match getconn p with
     | Ok conn => ret conn
     | Raise e => raise e
     end)
    (fun e =>
       raise (DatabaseConnectionError
                ("Failed to get connection: " ^^ exc_str e) (Some e))).

Definition return_connection (r conn : nat) : M State unit :=
  try_except
    (p <- pool r ;;
     match putconn p conn with
     | Some e => raise e
     | None => ret tt
     end)
    (fun _ => ret tt).

Definition get_stats (r : nat) : M State Dict :=
  a <- read_attrs r "_pool" ;;
  match _pool a with
  | None => ret [("status", VStr "not_initialized")]
  | Some p =>
      let stats := pool_stats p in
      ret [("pool_min", dict_get_or "pool_min" (VInt 0) stats);
           ("pool_max", dict_get_or "pool_max" (VInt 0) stats);
           ("pool_size", dict_get_or "pool_size" (VInt 0) stats);
           ("pool_available", dict_get_or "pool_available" (VInt 0) stats);
           ("requests_waiting", dict_get_or "requests_waiting" (VInt 0) stats)]
  end.

End Access.

End PoolAccess.

(** A pool library that refuses the first configuration only. *)
Definition refuses_db1 (c : Connection.DatabaseConfig)
    : Connection.PoolOutcome :=
  if String.eqb (Connection.database c) "db1"
  then Connection.CtorRaises (PyException "connection refused")
  else Connection.PoolReady.

(** ** SQL files and schema initialisation (schema.py) *)

(** A [str] argument that is given and not empty: what [if arg:] tests. *)
Definition given (o : option string) : option string :=
  match o with
  | Some s => if String.eqb s "" then None else Some s
  | None => None
  end.

Definition file_not_found (path : string) : Exc :=
  SchemaError ("SQL file not found: " ^^ path) None.

Definition nothing_to_run : Exc :=
  SchemaError "Either sql_file or sql_content must be provided" None.

Section SchemaFiles.

Context {DB : Type} (oracle : Oracle DB).

(** The file system as [pathlib] shows it: [path_str p] is
    [str(Path(p))]; [files] tells of such a path whether it exists and,
    if it does, what [read_text(encoding="utf-8")] gives, which may be
    an error. *)
Context (path_str : string -> string).
Context (files : string -> option (Result string)).

Definition read_text {S} (content : Result string) : M S string :=
  match content with
  | Ok t => ret t
  | Raise e => raise e
  end.

Definition execute_sql_file (file_path : string) : M (World DB) unit :=
  let path := path_str file_path in
  match files path with
  | None => raise (file_not_found path)
  | Some content =>
      try_except
        (sql_content <- read_text content ;;
         execute_sql oracle sql_content)
        (fun e =>
           if is_schema_error e then raise e
           else schema_error ("Failed to execute SQL file '" ^^ path ^^ "'") e)
  end.

(** [init_schema] with [str] arguments. *)
Definition init_schema (sql_file sql_content : option string)
    : M (World DB) unit :=
  match given sql_file with
  | Some file => execute_sql_file file
  | None =>
      match given sql_content with
      | Some content => execute_sql oracle content
      | None => raise nothing_to_run
      end
  end.

End SchemaFiles.

(** [raises_only P m]: whatever the state, an error [m] raises
    satisfies [P]. *)
Definition raises_only {S A} (P : Exc -> Prop) (m : M S A) : Prop :=
  forall s e s', m s = (Raise e, s') -> P e.

(** The errors of the database all satisfy [P]. *)
Definition answers_raise {DB A} (P : Exc -> Prop)
    (answer : DB -> Result A * DB) : Prop :=
  forall d e d', answer d = (Raise e, d') -> P e.

Definition oracle_raises {DB} (P : Exc -> Prop) (oracle : Oracle DB) : Prop :=
  (forall s, answers_raise P (on_fetch_one oracle s))
  /\ (forall s, answers_raise P (on_fetch_all oracle s))
  /\ (forall s, answers_raise P (on_fetch_tuple oracle s))
  /\ (forall s, answers_raise P (on_execute oracle s))
  /\ answers_raise P (on_transaction oracle)
  /\ (forall s, answers_raise P (on_conn_execute oracle s))
  /\ answers_raise P (on_commit oracle)
  /\ answers_raise P (on_rollback oracle).

(** An error made by [SchemaManager] for the failure [cause]. *)
Definition schema_failure (e : Exc) : Prop :=
  exists what cause, e = SchemaError (what ^^ ": " ^^ exc_str cause) (Some cause).

(** ** The life cycle of the facade (database.py) *)

(** [l[n] = x] on the list of allocated objects. *)
Fixpoint set_nth {A} (n : nat) (x : A) (l : list A) : list A :=
  match l, n with
  | [], _ => []
  | _ :: rest, O => x :: rest
  | y :: rest, S m => y :: set_nth m x rest
  end.

Module DatabaseFacade.

(** A [Database] object: its configuration and the pool manager it
    holds once connected. *)
Record Database : Type := mkDatabase {
  _config : Connection.DatabaseConfig;
  _pool : option nat
}.

(** The two helpers of setup.py that [init] may call. *)
Inductive SetupCall : Type :=
| EnsureDatabase (config : Connection.DatabaseConfig)
                 (schema_path schema_sql : option string) (interactive : bool)
| InitSchema (config : Connection.DatabaseConfig)
             (schema_path schema_sql : option string).

(** The state of the pool manager's module, the [Database] objects
    allocated so far (a reference is an index), the class attribute
    [Database._instance], and the calls made to setup.py. *)
Record State : Type := mkState {
  manager : Connection.State;
  objects : list Database;
  _instance : option nat;
  calls : list SetupCall
}.

(** A step of the pool manager, within the state of the facade. *)
Definition lift {A} (m : M Connection.State A) : M State A :=
  fun s =>
    let '(r, c) := m (manager s) in
    (r, mkState c (objects s) (_instance s) (calls s)).

(** The object behind a reference.  References come from [__init__]
    only; one that was never handed out has no object. *)
Definition read (d : nat) : M State Database :=
  fun s =>
    match nth_error (objects s) d with
    | Some o => (Ok o, s)
    | None => (Raise (PyException "no such object"), s)
    end.

Definition write (d : nat) (o : Database) : M State unit :=
  fun s =>
    (Ok tt, mkState (manager s) (set_nth d o (objects s)) (_instance s)
                    (calls s)).

Definition set_instance (i : option nat) : M State unit :=
  fun s => (Ok tt, mkState (manager s) (objects s) i (calls s)).

Definition database_not_initialized : Exc :=
  DatabaseConnectionError
    "Database not initialized. Call Database.init() first." None.

Section Lifecycle.

Context (open_pool : Connection.DatabaseConfig -> Connection.PoolOutcome).
Context (close_raises : nat -> option Exc).

(** [DatabaseConfig.from_env()], and what the helpers of setup.py do
    when called: they return, or raise. *)
Context (from_env : Result Connection.DatabaseConfig).
Context (setup : SetupCall -> option Exc).

Definition or_from_env (config : option Connection.DatabaseConfig)
    : M State Connection.DatabaseConfig :=
  match config with
  | Some c => ret c
  | None =>
      match from_env with
      | Ok c => ret c
      | Raise e => raise e
      end
  end.

Definition __init__ (config : option Connection.DatabaseConfig)
    : M State nat :=
  c <- or_from_env config ;;
  fun s =>
    (Ok (length (objects s)),
     mkState (manager s) (objects s ++ [mkDatabase c None]) (_instance s)
             (calls s)).

Definition connect (d : nat) : M State unit :=
  o <- read d ;;
  match _pool o with
  | None =>
      r <- lift (Connection.get_pool open_pool close_raises
                                     (Some (_config o))) ;;
      write d (mkDatabase (_config o) (Some r))
  | Some _ => ret tt
  end.

Definition disconnect (d : nat) : M State unit :=
  o <- read d ;;
  match _pool o with
  | Some r =>
      lift (Connection.close close_raises r) ;;;
      lift (Connection.reset close_raises) ;;;
      write d (mkDatabase (_config o) None)
  | None => ret tt
  end.

(** The [pool] property: the manager held, after connecting if none
    was. *)
Definition pool (d : nat) : M State (option nat) :=
  o <- read d ;;
  match _pool o with
  | None => connect d
  | Some _ => ret tt
  end ;;;
  o' <- read d ;;
  ret (_pool o').

Definition get_instance : M State nat :=
  s <- get ;;
  match _instance s with
  | None => raise database_not_initialized
  | Some d => ret d
  end.

Definition is_initialized : M State bool :=
  s <- get ;;
  ret (match _instance s with Some _ => true | None => false end).

Definition call_setup (c : SetupCall) : M State unit :=
  fun s =>
    let s' := mkState (manager s) (objects s) (_instance s) (calls s ++ [c]) in
    match setup c with
    | Some e => (Raise e, s')
    | None => (Ok tt, s')
    end.

Definition is_some {A} (o : option A) : bool :=
  match o with Some _ => true | None => false end.

Definition init (config : option Connection.DatabaseConfig)
    (schema_path schema_sql : option string) (auto_setup interactive : bool)
    : M State nat :=
  s <- get ;;
  match _instance s with
  | Some d => ret d
  | None =>
      c <- or_from_env config ;;
      (if auto_setup then
         call_setup (EnsureDatabase c schema_path schema_sql interactive)
       else if is_some schema_path || is_some schema_sql then
         call_setup (InitSchema c schema_path schema_sql)
       else ret tt) ;;;
      d <- __init__ (Some c) ;;
      connect d ;;;
      set_instance (Some d) ;;;
      ret d
  end.

Definition reset_instance : M State unit :=
  s <- get ;;
  match _instance s with
  | Some d =>
      suppress (disconnect d) ;;;
      set_instance None
  | None => ret tt
  end.

End Lifecycle.

(** A process in which nothing was created yet. *)
Definition initial_state (process : Z) : State :=
  mkState (Connection.initial_state process) [] None [].

(** The manager's module after the pool of [created m c] was closed and
    the singleton reset. *)
Definition closed_and_reset (m : Connection.State)
    (c : Connection.DatabaseConfig) : Connection.State :=
  Connection.mkState
    (Connection.pid m) None None false
    (Connection.objects m
     ++ [Connection.mkInstance
           (Some (Connection.mkAttrs c None true)) true])
    (S (Connection.next_pool m))
    (Connection.events m
     ++ [Connection.PoolOpened (Connection.next_pool m) c;
         Connection.PoolWaited (Connection.next_pool m);
         Connection.PoolClosed (Connection.next_pool m)]).

(** The helper of setup.py that [init] calls, if any. *)
Definition setup_call (c : Connection.DatabaseConfig)
    (schema_path schema_sql : option string) (auto_setup interactive : bool)
    : option SetupCall :=
  if auto_setup then Some (EnsureDatabase c schema_path schema_sql interactive)
  else if is_some schema_path || is_some schema_sql
       then Some (InitSchema c schema_path schema_sql)
       else None.

(** Two facades allocated in a process that has no pool yet, and
    helpers of setup.py that do not raise. *)
Definition two_facades : State :=
  mkState (Connection.initial_state 100)
          [mkDatabase Connection.config1 None;
           mkDatabase Connection.config2 None]
          None [].

Definition setup_succeeds (call : SetupCall) : option Exc := None.

Definition setup_fails (call : SetupCall) : option Exc :=
  Some (DatabaseConnectionError "Database setup failed" None).

End DatabaseFacade.

(** ** Look-ups and the health check (database.py, schema.py) *)

(** A line break; the queries below are triple-quoted literals. *)
Definition newline : string := String (ascii_of_nat 10) EmptyString.

Definition table_exists_query : string :=
  newline ^^ "            SELECT EXISTS (" ^^ newline
  ^^ "                SELECT FROM information_schema.tables" ^^ newline
  ^^ "                WHERE table_schema = %s AND table_name = %s" ^^ newline
  ^^ "            )" ^^ newline ^^ "        ".

Definition schema_exists_query : string :=
  newline ^^ "            SELECT EXISTS (" ^^ newline
  ^^ "                SELECT FROM information_schema.schemata" ^^ newline
  ^^ "                WHERE schema_name = %s" ^^ newline
  ^^ "            )" ^^ newline ^^ "        ".

(** [result == 1] *)
Definition equals_one (v : Value) : bool :=
  match v with
  | VInt n => n =? 1
  | VBool b => b
  | _ => false
  end.

(** The first column of the first row, as [fetch_value] returns it. *)
Definition first_column (row : option (list Value)) : Value :=
  match row with
  | Some (first :: _) => first
  | _ => VNone
  end.

Section Lookups.

Context {DB : Type} (oracle : Oracle DB).

(** [Database.table_exists]; [SchemaManager.table_exists] hands its
    arguments over to it. *)
Definition table_exists (table_name schema : string) : M (World DB) bool :=
  result <- fetch_value oracle
              (text_stmt table_exists_query
                         (Some [VStr schema; VStr table_name])) ;;
  ret (truthy result).

Definition schema_exists (schema_name : string) : M (World DB) bool :=
  result <- fetch_value oracle
              (text_stmt schema_exists_query (Some [VStr schema_name])) ;;
  ret (truthy result).

Definition health_check : M (World DB) bool :=
  try_except
    (result <- fetch_value oracle (text_stmt "SELECT 1" None) ;;
     ret (equals_one result))
    (fun _ => ret false).

End Lookups.

(** ** Configuration (config.py) *)

(** [d[k] = v]: the value of a present key is replaced where it stands,
    a new key goes to the end. *)
Fixpoint dict_set (k : string) (v : Value) (d : Dict) : Dict :=
  match d with
  | [] => [(k, v)]
  | (k', v') :: rest =>
      if String.eqb k k' then (k', v) :: rest
      else (k', v') :: dict_set k v rest
  end.

(** The dict display that unpacks [d], then [other]. *)
Definition dict_update (d other : Dict) : Dict :=
  fold_left (fun acc kv => dict_set (fst kv) (snd kv) acc) other d.

Module Config.

(** A [float], as far as its comparison with zero goes: a finite value,
    an infinity, or not-a-number. *)
Inductive Float : Type :=
| Finite (q : QArith_base.Q)
| Infinite (negative : bool)
| NaN.

(** [x <= 0] *)
Definition le_zero (x : Float) : bool :=
  match x with
  | Finite q => QArith_base.Qle_bool q (QArith_base.Qmake 0 1)
  | Infinite negative => negative
  | NaN => false
  end.

Record DatabaseConfig : Type := mkDatabaseConfig {
  host : string;
  port : Z;
  database : string;
  user : string;
  password : string;
  connection_string : option string;
  min_connections : Z;
  max_connections : Z;
  connection_timeout : Float;
  sslmode : string;
  check_connection : bool;
  max_idle_time : Float;
  options : Dict
}.

Definition valid_sslmodes : list string :=
  ["disable"; "allow"; "prefer"; "require"; "verify-ca"; "verify-full"].

(** [_validate]: the message of the [ConfigurationError] it raises, or
    [None] when it returns. *)
Definition _validate (c : DatabaseConfig) : option string :=
  if (port c <? 1) || (port c >? 65535) then
    Some ("Invalid port number: " ^^ str_of_Z (port c))
  else if min_connections c <? 1 then
    Some "min_connections must be at least 1"
  else if max_connections c <? min_connections c then
    Some "max_connections must be >= min_connections"
  else if le_zero (connection_timeout c) then
    Some "connection_timeout must be positive"
  else if negb (existsb (String.eqb (sslmode c)) valid_sslmodes) then
    Some ("Invalid sslmode: " ^^ sslmode c
          ^^ ". Must be one of ('disable', 'allow', 'prefer', 'require', "
          ^^ "'verify-ca', 'verify-full')")
  else None.

(** The settings [get_connection_kwargs] lists itself. *)
Definition explicit_kwargs (c : DatabaseConfig) : Dict :=
  [("host", VStr (host c)); ("port", VInt (port c));
   ("dbname", VStr (database c)); ("user", VStr (user c));
   ("password", VStr (password c)); ("sslmode", VStr (sslmode c))].

Definition get_connection_kwargs (c : DatabaseConfig) : Dict :=
  match given (connection_string c) with
  | Some conninfo => [("conninfo", VStr conninfo)]
  | None => dict_update (explicit_kwargs c) (options c)
  end.

(** The defaults, with an option that names a setting and one that
    does not. *)
Definition with_options : DatabaseConfig :=
  mkDatabaseConfig "localhost" 5432 "postgres" "postgres" "" None 1 10
                   (Finite (QArith_base.Qmake 30 1)) "prefer" true
                   (Finite (QArith_base.Qmake 600 1))
                   [("host", VStr "db.internal");
                    ("application_name", VStr "app")].

End Config.

(** ** Connection checks and database setup (setup.py) *)

Module Setup.

(** The arguments [check_connection] and [init_schema] connect with. *)
Definition check_connection_kwargs (c : Config.DatabaseConfig) : Dict :=
  dict_set "connect_timeout" (VInt 5)
           (dict_remove "conninfo" (Config.get_connection_kwargs c)).

Definition init_schema_kwargs (c : Config.DatabaseConfig) : Dict :=
  dict_remove "conninfo" (Config.get_connection_kwargs c).

Definition credentials_required : Exc :=
  DatabaseConnectionError "Admin credentials required for database setup" None.

Definition setup_failed : Exc :=
  DatabaseConnectionError "Database setup failed" None.

Definition still_failing : Exc :=
  DatabaseConnectionError "Connection still fails after setup" None.

Definition no_schema : Exc :=
  SchemaError "Either schema_path or schema_sql must be provided" None.

Definition schema_file_not_found (path : string) : Exc :=
  SchemaError ("Schema file not found: " ^^ path) None.

(** What the setup does outside the program. *)
Inductive Step : Type :=
| Probe (kwargs : Dict)
| AskUser
| AskPassword
| AdminWork (admin_user admin_password : string)
| RunSchema (kwargs : Dict) (schema_sql : string).

Section Flow.

(** The outside world [W]: the server, the terminal and the files. *)
Context {W : Type}.

(** [psycopg.connect] with these arguments and the [SELECT 1] of [check_connection]:
    they succeed, or raise. *)
Context (probe : Dict -> W -> option Exc * W).

(** [input("Admin username [postgres]: ").strip()] and
    [getpass.getpass("Admin password: ")]. *)
Context (ask_user : W -> Result string * W).
Context (ask_password : W -> Result string * W).

(** The [try] block of [setup_database], with what its handlers return:
    [True] when the database, the role and the grants are in place,
    [False] when anything in it raised. *)
Context (admin_work : Config.DatabaseConfig -> string -> string -> bool ->
                      W -> bool * W).

(** The [with psycopg.connect] block of [init_schema]. *)
Context (run_schema : Dict -> string -> W -> option Exc * W).

Context (path_str : string -> string).
Context (files : string -> option (Result string)).

(** The state: the world and the steps taken in it. *)
Definition St : Type := (W * list Step)%type.

Definition step {A} (label : Step) (act : W -> A * W) : St -> A * St :=
  fun s =>
    let '(a, w) := act (fst s) in
    (a, (w, snd s ++ [label])).

Definition check_connection (config : Config.DatabaseConfig) : M St bool :=
  fun s =>
    let kwargs := check_connection_kwargs config in
    let '(failure, s') := step (Probe kwargs) (probe kwargs) s in
    (Ok (match failure with None => true | Some _ => false end), s').

Definition or_postgres (name : string) : string :=
  if String.eqb name "" then "postgres" else name.

Definition setup_database (config : Config.DatabaseConfig)
    (admin_user admin_password : option string) (interactive : bool)
    : M St bool :=
  credentials <-
    match admin_user, admin_password with
    | Some u, Some p => ret (u, p)
    | _, _ =>
        if negb interactive then raise credentials_required
        else
          u <- match admin_user with
               | Some u => ret u
               | None => name <- step AskUser ask_user ;; ret (or_postgres name)
               end ;;
          p <- match admin_password with
               | Some p => ret p
               | None => step AskPassword ask_password
               end ;;
          ret (u, p)
    end ;;
  fun s =>
    let '(done, s') :=
      step (AdminWork (fst credentials) (snd credentials))
           (admin_work config (fst credentials) (snd credentials) interactive)
           s in
    (Ok done, s').

Definition init_schema (config : Config.DatabaseConfig)
    (schema_path schema_sql : option string) : M St unit :=
  match schema_path, schema_sql with
  | None, None => raise no_schema
  | _, _ =>
      sql_text <-
        match schema_path with
        | Some p =>
            let path := path_str p in
            match files path with
            | None => raise (schema_file_not_found path)
            | Some (Ok content) => ret (Some content)
            | Some (Raise e) => raise e
            end
        | None => ret schema_sql
        end ;;
      try_except
        (let kwargs := init_schema_kwargs config in
         match sql_text with
         | Some text =>
             fun s =>
               let '(failure, s') :=
                 step (RunSchema kwargs text) (run_schema kwargs text) s in
               match failure with
               | None => (Ok tt, s')
               | Some e => (Raise e, s')
               end
         | None => ret tt
         end)
        (fun e =>
           raise (SchemaError ("Failed to initialize schema: " ^^ exc_str e)
                              (Some e)))
  end.

Definition ensure_database (config : Config.DatabaseConfig)
    (schema_path schema_sql : option string) (interactive : bool)
    : M St bool :=
  reachable <- check_connection config ;;
  (if negb reachable then
     done <- setup_database config None None interactive ;;
     if negb done then raise setup_failed
     else
       reachable' <- check_connection config ;;
       if negb reachable' then raise still_failing else ret tt
   else ret tt) ;;;
  match schema_path, schema_sql with
  | None, None => ret tt
  | _, _ => init_schema config schema_path schema_sql
  end ;;;
  ret true.

End Flow.

End Setup.

(** * Properties *)

(** ** The monad *)

Lemma try_except_ok {S A} (m : M S A) (h : Exc -> M S A) s a s' :
  m s = (Ok a, s') -> try_except m h s = (Ok a, s').
Proof. intros H. unfold try_except. now rewrite H. Qed.

Lemma try_except_raise {S A} (m : M S A) (h : Exc -> M S A) s e s' :
  m s = (Raise e, s') -> try_except m h s = h e s'.
Proof. intros H. unfold try_except. now rewrite H. Qed.

Lemma bind_ok {S A B} (m : M S A) (k : A -> M S B) s a s' :
  m s = (Ok a, s') -> bind m k s = k a s'.
Proof. intros H. unfold bind. now rewrite H. Qed.

Lemma bind_raise {S A B} (m : M S A) (k : A -> M S B) s e s' :
  m s = (Raise e, s') -> bind m k s = (Raise e, s').
Proof. intros H. unfold bind. now rewrite H. Qed.

Lemma issued_app (l1 l2 : list Event) : issued (l1 ++ l2) = issued l1 ++ issued l2.
Proof. unfold issued. apply flat_map_app. Qed.

(** ** Conditions (find_by, count, delete_by) *)

Section ConditionFacts.

Context {DB : Type} (oracle : Oracle DB).
Context {Entity : Type} (self : Repository Entity).

Lemma where_step_predicate (parts : list Composed) (values : list Value)
    (item : string * Value) :
  where_step (parts, values) item =
  (parts ++ [predicate item],
   values ++ (if is_none (snd item) then [] else [snd item])).
Proof.
  destruct item as [column value]. unfold where_step, predicate. simpl.
  destruct (is_none value); [ rewrite app_nil_r | ]; reflexivity.
Qed.

Lemma where_fold (conditions : Dict) :
  forall parts values,
    fold_left where_step conditions (parts, values) =
    (parts ++ map predicate conditions, values ++ bound_values conditions).
Proof.
  induction conditions as [| item rest IH]; intros parts values.
  - unfold bound_values. simpl. now rewrite !app_nil_r.
  - cbn [fold_left]. rewrite where_step_predicate, IH.
    unfold bound_values, dict_values. cbn [map filter].
    rewrite <- !app_assoc. f_equal.
    destruct (is_none (snd item)); reflexivity.
Qed.

Lemma where_loop_spec (conditions : Dict) :
  where_loop conditions = (map predicate conditions, bound_values conditions).
Proof. unfold where_loop. now rewrite where_fold. Qed.

(** The conversions issue no statement and leave the database alone. *)
Lemma for_each_row_to_entity_quiet (rows : list Dict) :
  forall (w : World DB) r w',
    for_each (row_to_entity self) rows w = (r, w') ->
    issued (log w') = issued (log w) /\ db w' = db w.
Proof.
  induction rows as [| row rest IH]; intros w r w' H; cbn in H.
  - inversion H; subst. split; reflexivity.
  - unfold bind in H.
    change (row_to_entity self row w)
      with (_row_to_entity self row,
            mkWorld (db w) (log w ++ [EvRowToEntity])) in H.
    destruct (_row_to_entity self row) as [e | x].
    + destruct (for_each (row_to_entity self) rest
                  (mkWorld (db w) (log w ++ [EvRowToEntity])))
        as [[ys | x] w2] eqn:E;
        apply IH in E; cbn in E; rewrite issued_app in E; cbn in E;
        rewrite app_nil_r in E; inversion H; subst; exact E.
    + inversion H; subst. cbn. rewrite issued_app. cbn.
      rewrite app_nil_r. split; reflexivity.
Qed.

End ConditionFacts.

Section ConditionTheorem.

Context {DB : Type} (oracle : Oracle DB).
Context {Entity : Type} (self : Repository Entity).

Lemma qualified_table_quoted :
  _qualified_table self =
  [Identifier (schema self); SQL "."; Identifier (table_name self)].
Proof. reflexivity. Qed.

Lemma find_by_query_filtered conditions limit offset order_by order_desc :
  find_by_query self conditions limit offset order_by order_desc =
  join " " (filtered self "SELECT * FROM " conditions
            :: paging_parts limit offset order_by order_desc).
Proof.
  unfold find_by_query, filtered. rewrite where_loop_spec.
  cbn [fst app]. f_equal. f_equal.
  unfold format. cbn. now rewrite app_nil_r.
Qed.

Lemma delete_by_query_filtered conditions :
  delete_by_query self conditions = filtered self "DELETE FROM " conditions.
Proof.
  unfold delete_by_query, filtered. rewrite where_loop_spec.
  unfold format. cbn. now rewrite app_nil_r.
Qed.

Lemma count_where_query_filtered conditions :
  count_where_query self conditions =
  filtered self "SELECT COUNT(*) FROM " conditions.
Proof.
  unfold count_where_query, filtered. rewrite where_loop_spec.
  unfold format. cbn. now rewrite app_nil_r.
Qed.

Lemma find_by_issues kv rest limit offset order_by order_desc (w : World DB) :
  let conditions := kv :: rest in
  issued (log (snd (find_by oracle self conditions limit offset
                            order_by order_desc w))) =
  issued (log w)
  ++ [stmt (find_by_query self conditions limit offset order_by order_desc)
           (Some (bound_values conditions))].
Proof.
  intros conditions. unfold find_by, conditions, try_except, find_by_body.
  unfold bind at 1. unfold fetch_all, call. cbn [db log].
  rewrite where_loop_spec. cbn [snd].
  set (s := stmt _ _).
  destruct (on_fetch_all oracle s (db w)) as [[rows | x] d].
  - destruct (for_each (row_to_entity self) rows
                (mkWorld d (log w ++ [EvFetchAll s]))) as [[es | x] w'] eqn:E;
      apply for_each_row_to_entity_quiet in E; destruct E as [E _];
      cbn in *; rewrite E, issued_app; reflexivity.
  - cbn. rewrite issued_app. reflexivity.
Qed.

Lemma delete_by_issues kv rest (w : World DB) :
  let conditions := kv :: rest in
  issued (log (snd (delete_by oracle self conditions w))) =
  issued (log w)
  ++ [stmt (delete_by_query self conditions) (Some (bound_values conditions))].
Proof.
  intros conditions. unfold delete_by, conditions, try_except, delete_by_body.
  unfold execute, call. cbn [db log].
  rewrite where_loop_spec. cbn [snd].
  set (s := stmt _ _).
  destruct (on_execute oracle s (db w)) as [[n | x] d]; cbn;
    rewrite issued_app; reflexivity.
Qed.

Lemma count_issues kv rest (w : World DB) :
  let conditions := kv :: rest in
  issued (log (snd (count oracle self (Some conditions) w))) =
  issued (log w)
  ++ [stmt (count_where_query self conditions)
           (Some (bound_values conditions))].
Proof.
  intros conditions. unfold count, conditions, try_except, count_body.
  unfold fetch_value, bind, call, ret. cbn [db log].
  rewrite where_loop_spec. cbn [snd].
  set (s := stmt _ _).
  destruct (on_fetch_tuple oracle s (db w)) as [[row | x] d]; cbn.
  - set (v := match row with Some (first :: _) => first | _ => VNone end).
    destruct (truthy v); [ destruct (py_int v) | ]; cbn;
      rewrite issued_app; reflexivity.
  - rewrite issued_app. reflexivity.
Qed.

(** C2.  For every conditions mapping, the loop over the conditions
    yields one predicate per column, a null test [col IS NULL] for a
    column bound to [None] and an equality [col = %s] otherwise, with
    exactly the values that are not [None] bound as parameters, in
    order; [find_by], [delete_by] and [count] join the predicates with
    [AND] after [WHERE] and issue that one statement with those
    parameters; and [find_by] on the empty mapping is [find_all]. *)
Theorem conditions_compile_to_null_tests_and_bound_equalities
    (conditions : Dict) (limit offset : option Z)
    (order_by : option string) (order_desc : bool) :
  where_loop conditions = (map predicate conditions, bound_values conditions)
  /\ find_by_query self conditions limit offset order_by order_desc
     = join " " (filtered self "SELECT * FROM " conditions
                 :: paging_parts limit offset order_by order_desc)
  /\ delete_by_query self conditions
     = filtered self "DELETE FROM " conditions
  /\ count_where_query self conditions
     = filtered self "SELECT COUNT(*) FROM " conditions
  /\ (forall kv rest (w : World DB),
        let conditions := kv :: rest in
        issued (log (snd (find_by oracle self conditions limit offset
                                  order_by order_desc w)))
        = issued (log w)
          ++ [stmt (find_by_query self conditions limit offset
                                  order_by order_desc)
                   (Some (bound_values conditions))]
        /\ issued (log (snd (delete_by oracle self conditions w)))
           = issued (log w)
             ++ [stmt (delete_by_query self conditions)
                      (Some (bound_values conditions))]
        /\ issued (log (snd (count oracle self (Some conditions) w)))
           = issued (log w)
             ++ [stmt (count_where_query self conditions)
                      (Some (bound_values conditions))])
  /\ find_by oracle self [] limit offset order_by order_desc
     = find_all oracle self limit offset order_by order_desc.
Proof.
  split; [ apply where_loop_spec | ].
  split; [ apply find_by_query_filtered | ].
  split; [ apply delete_by_query_filtered | ].
  split; [ apply count_where_query_filtered | ].
  split; [ | reflexivity ].
  intros kv rest w conds. repeat split.
  - apply find_by_issues.
  - apply delete_by_issues.
  - apply count_issues.
Qed.

End ConditionTheorem.

(** ** delete_by and create_many on empty input *)

Section EmptyInput.

Context {DB : Type} (oracle : Oracle DB).
Context {Entity : Type} (self : Repository Entity).

(** C9.  [delete_by] with an empty conditions mapping raises
    [RepositoryError] and leaves the world as it was: no call reaches
    the database, so no SQL is built or issued and the database state
    is unchanged. *)
Theorem delete_by_empty_conditions_rejected (w : World DB) :
  delete_by oracle self [] w =
  (Raise (RepositoryError "Conditions required for delete_by" None), w).
Proof. reflexivity. Qed.

(** C10.  [create_many] with an empty list returns the empty list and
    leaves the world as it was: no conversion is called, no transaction
    is opened and no statement is executed. *)
Theorem create_many_empty_is_noop (w : World DB) :
  create_many oracle self [] w = (Ok [], w).
Proof. reflexivity. Qed.

End EmptyInput.

(** *** What a non-empty batch records *)

(** [extends m]: whatever the world, [m] only appends to the trace. *)
Lemma extends_bind {DB A B} (m : M (World DB) A) (k : A -> M (World DB) B) :
  (forall w, exists t, log (snd (m w)) = log w ++ t) ->
  (forall a w, exists t, log (snd (k a w)) = log w ++ t) ->
  forall w, exists t, log (snd (bind m k w)) = log w ++ t.
Proof.
  intros Hm Hk w. destruct (Hm w) as [t1 E1]. unfold bind.
  destruct (m w) as [[a | e] w1]; cbn [snd] in *.
  - destruct (Hk a w1) as [t2 E2]. exists (t1 ++ t2).
    now rewrite E2, E1, app_assoc.
  - exists t1. exact E1.
Qed.

Lemma extends_try {DB A} (m : M (World DB) A) (h : Exc -> M (World DB) A) :
  (forall w, exists t, log (snd (m w)) = log w ++ t) ->
  (forall e w, exists t, log (snd (h e w)) = log w ++ t) ->
  forall w, exists t, log (snd (try_except m h w)) = log w ++ t.
Proof.
  intros Hm Hh w. destruct (Hm w) as [t1 E1]. unfold try_except.
  destruct (m w) as [[a | e] w1]; cbn [snd] in *.
  - exists t1. exact E1.
  - destruct (Hh e w1) as [t2 E2]. exists (t1 ++ t2).
    now rewrite E2, E1, app_assoc.
Qed.

Lemma extends_pure {DB A} (r : Result A) (w : World DB) :
  exists t, log (snd (r, w)) = log w ++ t.
Proof. exists []. cbn. now rewrite app_nil_r. Qed.

Lemma extends_call {DB A} (ev : Event) (answer : DB -> Result A * DB)
    (w : World DB) :
  exists t, log (snd (call ev answer w)) = log w ++ t.
Proof.
  unfold call. destruct (answer (db w)). exists [ev]. reflexivity.
Qed.

Section BatchTrace.

Context {DB : Type} (oracle : Oracle DB).
Context {Entity : Type} (self : Repository Entity).

Lemma extends_row_to_entity (row : Dict) (w : World DB) :
  exists t, log (snd (row_to_entity self row w)) = log w ++ t.
Proof. exists [EvRowToEntity]. reflexivity. Qed.

Lemma extends_entity_to_row (e : Entity) (w : World DB) :
  exists t, log (snd (entity_to_row self e w)) = log w ++ t.
Proof. exists [EvEntityToRow]. reflexivity. Qed.

Lemma extends_conversions (entities : list Entity) (w : World DB) :
  exists t, log (snd (for_each (entity_to_row self) entities w)) = log w ++ t.
Proof.
  revert w. induction entities as [| e rest IH]; intros w; cbn [for_each].
  - apply extends_pure.
  - apply extends_bind; [ apply extends_entity_to_row | intros row w1 ].
    apply extends_bind; [ exact IH | intros rows w2; apply extends_pure ].
Qed.

Lemma extends_insert_rows (query : Composed) (rows : list Dict) :
  forall results (w : World DB),
    exists t,
      log (snd (insert_rows oracle self query rows results w)) = log w ++ t.
Proof.
  induction rows as [| row rest IH]; intros results w; cbn [insert_rows].
  - apply extends_pure.
  - apply extends_bind; [ intros w0; apply extends_call | intros result w1 ].
    destruct (row_truthy result) as [r |]; [ | apply IH ].
    apply extends_bind; [ apply extends_row_to_entity | intros e w2; apply IH ].
Qed.

Lemma extends_transaction {A} (body : M (World DB) A) :
  (forall w, exists t, log (snd (body w)) = log w ++ t) ->
  forall w, exists t, log (snd (transaction oracle body w)) = log w ++ t.
Proof.
  intros Hb. unfold transaction.
  apply extends_bind; [ intros w; apply extends_call | intros _ ].
  apply extends_try.
  - apply extends_bind; [ exact Hb | intros x ].
    apply extends_bind; [ intros w; apply extends_call | ].
    intros _ w. apply extends_pure.
  - intros e.
    apply extends_bind; [ intros w; apply extends_call | ].
    intros _ w. apply extends_pure.
Qed.

(** A batch that is not empty starts by converting its first entity:
    the early return of [create_many] is what keeps the trace of an
    empty batch as it was. *)
Lemma create_many_nonempty_converts (e : Entity) (es : list Entity)
    (w : World DB) :
  exists tail,
    log (snd (create_many oracle self (e :: es) w))
    = log w ++ EvEntityToRow :: tail.
Proof.
  set (w1 := mkWorld (db w) (log w ++ [EvEntityToRow])).
  set (after :=
         try_except
           (rows <- (row <- (fun w0 : World DB => (_entity_to_row self e, w0)) ;;
                     ys <- for_each (entity_to_row self) es ;;
                     ret (row :: ys)) ;;
            transaction oracle
              (insert_rows oracle self
                           (insert_query self (dict_keys (hd [] rows)))
                           rows []))
           (wrap "Failed to create entities")).
  assert (Hafter : forall w0 : World DB,
             exists t, log (snd (after w0)) = log w0 ++ t).
  { apply extends_try.
    - apply extends_bind.
      + apply extends_bind; [ intros w0; apply extends_pure | intros row ].
        apply extends_bind; [ apply extends_conversions | ].
        intros ys w0. apply extends_pure.
      + intros rows. apply extends_transaction. intros w0.
        apply extends_insert_rows.
    - intros x w0. apply extends_pure. }
  change (create_many oracle self (e :: es) w) with (after w1).
  destruct (Hafter w1) as [t Ht]. exists t.
  rewrite Ht. unfold w1. cbn [log]. now rewrite <- app_assoc.
Qed.

End BatchTrace.

(** The trace does tell the two apart: a batch of one entity records the
    conversion, the transaction, the insert and the commit. *)
Example create_many_one_entity_trace :
  map (fun e => match e with
                | EvEntityToRow => "to_row"
                | EvRowToEntity => "to_entity"
                | EvTransaction => "transaction"
                | EvConnExecute _ => "execute"
                | EvCommit => "commit"
                | _ => "other"
                end)
      (log (snd (create_many
                   (TestRepository.mock_db (Some [("id", VInt 1)]) [] VNone 0)
                   TestRepository.SampleRepository
                   [TestRepository.mkSampleEntity VNone (VStr "a") (VBool true)]
                   TestRepository.empty_world)))
  = ["to_row"; "transaction"; "execute"; "to_entity"; "commit"].
Proof. reflexivity. Qed.

(** ** update *)

Lemma dict_remove_no_key (k : string) (d : Dict) :
  ~ In k (dict_keys (dict_remove k d)).
Proof.
  unfold dict_keys, dict_remove. intros H.
  apply in_map_iff in H. destruct H as [[k' v] [Hk Hin]].
  apply filter_In in Hin. destruct Hin as [_ Hneq].
  cbn in Hk, Hneq. subst k'. now rewrite String.eqb_refl in Hneq.
Qed.

Section UpdateFacts.

Context {DB : Type} (oracle : Oracle DB).
Context {Entity : Type} (self : Repository Entity).

Lemma update_query_shape (columns : list string) :
  update_query self columns =
  SQL "UPDATE " :: _qualified_table self
  ++ SQL " SET " :: join ", " (map assignment columns)
  ++ [SQL " WHERE "; Identifier (primary_key self); SQL " = %s RETURNING *"].
Proof. reflexivity. Qed.

(** [update] run step by step once the conversion has returned [row]. *)
Lemma update_run (entity : Entity) (row : Dict) (w : World DB) :
  _entity_to_row self entity = Ok row ->
  let pk := primary_key self in
  let w1 := mkWorld (db w) (log w ++ [EvEntityToRow]) in
  update oracle self entity w =
  match dict_get pk row with
  | None =>
      (Raise (RepositoryError ("Entity must have '" ^^ pk ^^ "' for update")
                              None), w1)
  | Some pk_value =>
      let s := stmt (update_query self (dict_keys (dict_remove pk row)))
                    (Some (dict_values (dict_remove pk row) ++ [pk_value])) in
      match on_fetch_one oracle s (db w) with
      | (Ok (Some r), d) =>
          let w3 := mkWorld d (log w1 ++ [EvFetchOne s; EvRowToEntity]) in
          match _row_to_entity self r with
          | Ok e => (Ok e, w3)
          | Raise x => reraise_or_wrap "Failed to update entity" x w3
          end
      | (Ok None, d) =>
          (Raise (RepositoryError
                    ("Entity with " ^^ pk ^^ "=" ^^ py_str pk_value
                     ^^ " not found") None),
           mkWorld d (log w1 ++ [EvFetchOne s]))
      | (Raise x, d) =>
          reraise_or_wrap "Failed to update entity" x
                          (mkWorld d (log w1 ++ [EvFetchOne s]))
      end
  end.
Proof.
  intros Hrow pk w1.
  unfold update, try_except, update_body, bind, entity_to_row.
  rewrite Hrow. fold pk.
  destruct (dict_get pk row) as [pk_value |]; [ | reflexivity ].
  unfold fetch_one, call. cbn [db log].
  destruct (on_fetch_one oracle _ (db w)) as [[[r |] | x] d];
    try reflexivity.
  unfold row_to_entity. cbn [db log]. rewrite <- app_assoc.
  destruct (_row_to_entity self r); reflexivity.
Qed.

(** C7.  Let [row] be what the entity-to-row conversion returns.  When
    the primary-key column is absent from [row], [update] raises
    [RepositoryError] and issues no statement.  When it is present,
    [update] issues one UPDATE whose SET clause lists the columns of
    [row] other than the primary key, whose WHERE clause tests the
    primary key, and whose parameters are the other values followed by
    the key value; when the database returns no row for it, [update]
    raises [RepositoryError] with a message ending in [not found]. *)
Theorem update_requires_and_isolates_primary_key
    (entity : Entity) (row : Dict) (w : World DB)
    (Hrow : _entity_to_row self entity = Ok row) :
  let pk := primary_key self in
  let w1 := mkWorld (db w) (log w ++ [EvEntityToRow]) in
  match dict_get pk row with
  | None =>
      update oracle self entity w =
      (Raise (RepositoryError ("Entity must have '" ^^ pk ^^ "' for update")
                              None), w1)
  | Some pk_value =>
      let columns := dict_keys (dict_remove pk row) in
      let values := dict_values (dict_remove pk row) in
      let s := stmt (update_query self columns) (Some (values ++ [pk_value])) in
      ~ In pk columns
      /\ update_query self columns =
         SQL "UPDATE " :: _qualified_table self
         ++ SQL " SET " :: join ", " (map assignment columns)
         ++ [SQL " WHERE "; Identifier pk; SQL " = %s RETURNING *"]
      /\ issued (log (snd (update oracle self entity w))) =
         issued (log w) ++ [s]
      /\ match on_fetch_one oracle s (db w) with
         | (Ok None, d) =>
             update oracle self entity w =
             (Raise (RepositoryError
                       ("Entity with " ^^ pk ^^ "=" ^^ py_str pk_value
                        ^^ " not found") None),
              mkWorld d (log w1 ++ [EvFetchOne s]))
         | _ => True
         end
  end.
Proof.
  intros pk w1. rewrite (update_run entity row w Hrow). fold pk.
  destruct (dict_get pk row) as [pk_value |]; [ | reflexivity ].
  cbn zeta.
  set (s := stmt _ _).
  split; [ apply dict_remove_no_key | ].
  split; [ apply update_query_shape | ].
  destruct (on_fetch_one oracle s (db w)) as [[[r |] | x] d].
  - split; [ | exact I ].
    destruct (_row_to_entity self r) as [e | x];
      [ | unfold reraise_or_wrap; destruct (is_repository_error x) ];
      cbn; rewrite !issued_app; cbn; now rewrite !app_nil_r.
  - split; [ | reflexivity ].
    cbn. rewrite !issued_app. cbn. now rewrite app_nil_r.
  - split; [ | exact I ].
    unfold reraise_or_wrap. destruct (is_repository_error x); cbn;
      rewrite !issued_app; cbn; now rewrite app_nil_r.
Qed.

End UpdateFacts.

(** [update] of a [SampleEntity] without id, and of one whose id matches
    no row (tests [test_update_without_id_raises] and
    [test_update_not_found_raises]). *)
Lemma update_requires_and_isolates_primary_key_witness :
  fst (update (TestRepository.mock_db None [] VNone 0)
              TestRepository.SampleRepository
              (TestRepository.mkSampleEntity VNone (VStr "test") (VBool true))
              TestRepository.empty_world)
  = Raise (RepositoryError "Entity must have 'id' for update" None)
  /\ fst (update (TestRepository.mock_db None [] VNone 0)
                 TestRepository.SampleRepository
                 (TestRepository.mkSampleEntity (VInt 999) (VStr "test")
                                                (VBool true))
                 TestRepository.empty_world)
     = Raise (RepositoryError "Entity with id=999 not found" None).
Proof.
  split.
  - exact (f_equal fst
             (update_requires_and_isolates_primary_key
                (TestRepository.mock_db None [] VNone 0)
                TestRepository.SampleRepository
                (TestRepository.mkSampleEntity VNone (VStr "test") (VBool true))
                [("name", VStr "test"); ("active", VBool true)]
                TestRepository.empty_world eq_refl)).
  - exact (f_equal fst
             (proj2 (proj2 (proj2
                (update_requires_and_isolates_primary_key
                   (TestRepository.mock_db None [] VNone 0)
                   TestRepository.SampleRepository
                   (TestRepository.mkSampleEntity (VInt 999) (VStr "test")
                                                  (VBool true))
                   [("name", VStr "test"); ("active", VBool true);
                    ("id", VInt 999)]
                   TestRepository.empty_world eq_refl))))).
Defined.

(** ** Error policy *)

Module ErrorPolicy.

Section Policy.

Context {DB : Type} (oracle : Oracle DB).
Context {Entity : Type} (self : Repository Entity).

Lemma try_wrap {A} (what : string) (body : M (World DB) A) (w : World DB) :
  try_except body (wrap what) w = wrapping what body w.
Proof.
  unfold try_except, wrapping. destruct (body w) as [[a | e] w'];
    reflexivity.
Qed.

Lemma try_reraise_or_wrap {A} (what : string) (body : M (World DB) A)
    (w : World DB) :
  try_except body (reraise_or_wrap what) w = passing what body w.
Proof.
  unfold try_except, passing, reraise_or_wrap.
  destruct (body w) as [[a | e] w']; [ reflexivity | ].
  destruct (is_repository_error e); reflexivity.
Qed.

(** C6, as the code has it.  [create] and [update] re-raise a
    [RepositoryError] raised in their [try:] block unchanged and wrap
    any other error in a [RepositoryError] carrying it as cause.
    [find_by_id], [find_all], [find_by] (non-empty conditions),
    [create_many] (non-empty list), [delete], [delete_by] (non-empty
    conditions), [count] and [exists] wrap every error raised in
    their [try:] block, a [RepositoryError] included, in a new
    [RepositoryError] carrying it as cause. *)
Theorem repository_errors_wrapped_or_passed (w : World DB) :
  (forall id_value,
      find_by_id oracle self id_value w =
      wrapping ("Failed to find by id " ^^ py_str id_value)
               (find_by_id_body oracle self id_value) w)
  /\ (forall limit offset order_by order_desc,
        find_all oracle self limit offset order_by order_desc w =
        wrapping "Failed to find all"
                 (find_all_body oracle self limit offset order_by
                                order_desc) w)
  /\ (forall kv rest limit offset order_by order_desc,
        find_by oracle self (kv :: rest) limit offset order_by order_desc w =
        wrapping "Failed to find by conditions"
                 (find_by_body oracle self (kv :: rest) limit offset
                               order_by order_desc) w)
  /\ (forall entity,
        create oracle self entity w =
        passing "Failed to create entity"
                (create_body oracle self entity) w)
  /\ (forall entity entities,
        create_many oracle self (entity :: entities) w =
        wrapping "Failed to create entities"
                 (create_many_body oracle self (entity :: entities)) w)
  /\ (forall entity,
        update oracle self entity w =
        passing "Failed to update entity"
                (update_body oracle self entity) w)
  /\ (forall id_value,
        delete oracle self id_value w =
        wrapping "Failed to delete entity"
                 (delete_body oracle self id_value) w)
  /\ (forall kv rest,
        delete_by oracle self (kv :: rest) w =
        wrapping "Failed to delete by conditions"
                 (delete_by_body oracle self (kv :: rest)) w)
  /\ (forall conditions,
        count oracle self conditions w =
        wrapping "Failed to count" (count_body oracle self conditions) w)
  /\ (forall id_value,
        exists_ oracle self id_value w =
        wrapping "Failed to check existence"
                 (exists_body oracle self id_value) w).
Proof.
  repeat split; intros;
    first [ apply try_wrap | apply try_reraise_or_wrap ].
Qed.

End Policy.

(** C6, as stated, fails for [find_by_id]: the row conversion raises a
    [RepositoryError], and [find_by_id] wraps it in a second one instead
    of letting it through. *)
Lemma find_by_id_wraps_repository_error_again :
  let raised := RepositoryError "bad row" None in
  fst (find_by_id_body TestRepository.one_row_db TestRepository.StrictRepository (VInt 1)
                       TestRepository.empty_world) = Raise raised
  /\ fst (find_by_id TestRepository.one_row_db TestRepository.StrictRepository (VInt 1)
                     TestRepository.empty_world)
     = Raise (RepositoryError "Failed to find by id 1: bad row" (Some raised))
  /\ ~ error_policy raised
       (fst (find_by_id TestRepository.one_row_db TestRepository.StrictRepository (VInt 1)
                        TestRepository.empty_world)).
Proof.
  cbv zeta. split; [ reflexivity | ]. split; [ reflexivity | ].
  unfold error_policy. cbn [is_repository_error].
  intros H. vm_compute in H. discriminate H.
Qed.

(** [create] on the same repository lets the error through. *)
Example create_passes_repository_error :
  fst (create TestRepository.one_row_db TestRepository.StrictRepository
              (TestRepository.mkSampleEntity VNone (VStr "a") (VBool true))
              TestRepository.empty_world)
  = Raise (RepositoryError "bad row" None).
Proof. reflexivity. Qed.

(** A driver error is wrapped, with the error as cause. *)
Example find_by_id_wraps_driver_error :
  fst (find_by_id (TestRepository.failing_db (PyException "boom"))
                  TestRepository.SampleRepository (VInt 1)
                  TestRepository.empty_world)
  = Raise (RepositoryError "Failed to find by id 1: boom"
                           (Some (PyException "boom"))).
Proof. reflexivity. Qed.

End ErrorPolicy.

(** ** Quoting and binding *)

Lemma raw_texts_app (a b : Composed) : raw_texts (a ++ b) = raw_texts a ++ raw_texts b.
Proof. apply flat_map_app. Qed.

Lemma identifiers_app (a b : Composed) :
  identifiers (a ++ b) = identifiers a ++ identifiers b.
Proof. apply flat_map_app. Qed.

Lemma literals_app (a b : Composed) : literals (a ++ b) = literals a ++ literals b.
Proof. apply flat_map_app. Qed.

Lemma composed_of_app names1 lits1 names2 lits2 (a b : Composed) :
  composed_of names1 lits1 a -> composed_of names2 lits2 b ->
  composed_of (names1 ++ names2) (lits1 ++ lits2) (a ++ b).
Proof.
  intros (Ta & Ia & La) (Tb & Ib & Lb). unfold composed_of.
  rewrite raw_texts_app, identifiers_app, literals_app, forallb_app.
  rewrite Ta, Tb, Ia, Ib, La, Lb. auto.
Qed.

Lemma composed_of_text (t : string) :
  is_template t = true -> composed_of [] [] [SQL t].
Proof.
  intros H. unfold composed_of, raw_texts, identifiers, literals.
  cbn [flat_map app forallb]. rewrite H. auto.
Qed.

Lemma composed_of_cons_text (t : string) names lits (q : Composed) :
  is_template t = true -> composed_of names lits q ->
  composed_of names lits (SQL t :: q).
Proof.
  intros H Hq. apply (composed_of_app [] [] names lits [SQL t] q); auto.
  now apply composed_of_text.
Qed.

(** Joining one more part in front with a constant text. *)
Lemma composed_of_join_cons (joiner : string) (p : Composed)
    (rest : list Composed) names1 lits1 names2 lits2 :
  is_template joiner = true ->
  composed_of names1 lits1 p ->
  composed_of names2 lits2 (join joiner rest) ->
  composed_of (names1 ++ names2) (lits1 ++ lits2) (join joiner (p :: rest)).
Proof.
  intros Hj Hp Hrest. destruct rest as [| p2 rest].
  - destruct Hrest as (_ & Hn & Hl). cbn in Hn, Hl. subst.
    cbn [join]. now rewrite !app_nil_r.
  - change (join joiner (p :: p2 :: rest))
      with (p ++ SQL joiner :: join joiner (p2 :: rest)).
    apply composed_of_app; [ exact Hp | ].
    now apply composed_of_cons_text.
Qed.

(** Joining parts that each carry one name and no literal. *)
Lemma composed_of_join_names {X} (joiner : string) (f : X -> Composed)
    (key : X -> string) (xs : list X) :
  is_template joiner = true ->
  (forall x, composed_of [key x] [] (f x)) ->
  composed_of (map key xs) [] (join joiner (map f xs)).
Proof.
  intros Hj Hf.
  induction xs as [| x rest IH]; [ repeat split | ].
  cbn [map].
  apply (composed_of_join_cons joiner (f x) (map f rest)
                               [key x] [] (map key rest) []); auto.
Qed.

Lemma composed_of_join_placeholders (joiner : string) (columns : list string) :
  is_template joiner = true ->
  composed_of [] [] (join joiner (map (fun _ => [Placeholder]) columns)).
Proof.
  intros Hj.
  induction columns as [| c rest IH]; [ repeat split | ].
  destruct rest as [| c2 rest]; [ repeat split | ].
  change (join joiner (map (fun _ => [Placeholder]) (c :: c2 :: rest)))
    with ([Placeholder] ++ SQL joiner
          :: join joiner (map (fun _ : string => [Placeholder]) (c2 :: rest))).
  apply (composed_of_app [] [] [] []); [ repeat split | ].
  now apply composed_of_cons_text.
Qed.

Section QuotingFacts.

Context {Entity : Type} (self : Repository Entity).

Lemma qualified_table_composed :
  composed_of [schema self; table_name self] [] (_qualified_table self).
Proof. repeat split. Qed.

Lemma predicate_composed (item : string * Value) :
  composed_of [fst item] [] (predicate item).
Proof. unfold predicate. destruct (is_none (snd item)); repeat split. Qed.

Lemma assignment_composed (column : string) :
  composed_of [column] [] (assignment column).
Proof. repeat split. Qed.

Lemma where_composed (conditions : Dict) :
  composed_of (dict_keys conditions) []
              (join " AND " (map predicate conditions)).
Proof.
  apply composed_of_join_names; [ reflexivity | apply predicate_composed ].
Qed.

Lemma filtered_composed (head : string) (conditions : Dict) :
  is_template head = true ->
  composed_of ([schema self; table_name self] ++ dict_keys conditions) []
              (filtered self head conditions).
Proof.
  intros Hh. unfold filtered.
  apply composed_of_cons_text; [ exact Hh | ].
  apply (composed_of_app _ [] _ []); [ apply qualified_table_composed | ].
  apply composed_of_cons_text; [ reflexivity | apply where_composed ].
Qed.

Lemma paging_composed (limit offset : option Z) (order_by : option string)
    (order_desc : bool) :
  composed_of (order_names order_by) (paging_literals limit offset)
              (join " " (paging_parts limit offset order_by order_desc)).
Proof.
  unfold paging_parts, order_names, paging_literals.
  destruct order_by as [column |]; [ destruct (String.eqb column "") | ];
    destruct limit, offset, order_desc; repeat split.
Qed.

Lemma find_all_query_composed limit offset order_by order_desc :
  composed_of ([schema self; table_name self] ++ order_names order_by)
              (paging_literals limit offset)
              (find_all_query self limit offset order_by order_desc).
Proof.
  unfold find_all_query. cbn [app].
  apply (composed_of_join_cons " " _ _ [schema self; table_name self] []);
    [ reflexivity | repeat split | apply paging_composed ].
Qed.

Lemma find_by_query_composed conditions limit offset order_by order_desc :
  composed_of (([schema self; table_name self] ++ dict_keys conditions)
               ++ order_names order_by)
              (paging_literals limit offset)
              (find_by_query self conditions limit offset order_by order_desc).
Proof.
  rewrite find_by_query_filtered.
  apply (composed_of_join_cons " " _ _ _ []);
    [ reflexivity | now apply filtered_composed | apply paging_composed ].
Qed.

Lemma insert_query_composed (columns : list string) :
  composed_of ([schema self; table_name self] ++ columns) []
              (insert_query self columns).
Proof.
  change (insert_query self columns)
    with (SQL "INSERT INTO " :: _qualified_table self
          ++ SQL " (" :: join ", " (map ident columns)
          ++ SQL ") VALUES ("
             :: join ", " (map (fun _ : string => [Placeholder]) columns)
          ++ [SQL ") RETURNING *"]).
  apply composed_of_cons_text; [ reflexivity | ].
  apply (composed_of_app _ [] _ []); [ apply qualified_table_composed | ].
  apply composed_of_cons_text; [ reflexivity | ].
  rewrite <- (app_nil_r columns) at 1.
  apply (composed_of_app _ [] [] []).
  - rewrite <- (map_id columns) at 1.
    apply composed_of_join_names; [ reflexivity | repeat split ].
  - apply composed_of_cons_text; [ reflexivity | ].
    apply (composed_of_app [] [] [] []);
      [ now apply composed_of_join_placeholders | repeat split ].
Qed.

Lemma update_query_composed (columns : list string) :
  composed_of ([schema self; table_name self] ++ columns ++ [primary_key self])
              [] (update_query self columns).
Proof.
  rewrite update_query_shape.
  apply composed_of_cons_text; [ reflexivity | ].
  apply (composed_of_app _ [] _ []); [ apply qualified_table_composed | ].
  apply composed_of_cons_text; [ reflexivity | ].
  apply (composed_of_app _ [] _ []); [ | repeat split ].
  rewrite <- (map_id columns) at 1.
  apply composed_of_join_names; [ reflexivity | apply assignment_composed ].
Qed.

End QuotingFacts.

(** ** The statements an operation issues *)

Section Issued.

Context {DB : Type} (oracle : Oracle DB).
Context {Entity : Type} (self : Repository Entity).

Lemma only_ret {A} (a : A) : only (DB := DB) [] (ret a).
Proof. intros w. exists []. cbn. rewrite app_nil_r. split; [ | apply incl_refl ]; reflexivity. Qed.

Lemma only_raise {A} (e : Exc) : only (DB := DB) (A := A) [] (raise e).
Proof. intros w. exists []. cbn. rewrite app_nil_r. split; [ | apply incl_refl ]; reflexivity. Qed.

Lemma only_weaken {A} (small large : list Statement) (m : M (World DB) A) :
  incl small large -> only small m -> only large m.
Proof.
  intros Hi Hm w. destruct (Hm w) as (new & E & Hnew).
  exists new. split; [ exact E | ]. eapply incl_tran; eassumption.
Qed.

Lemma only_call {A} (ev : Event) (answer : DB -> Result A * DB) :
  only (issued [ev]) (call ev answer).
Proof.
  intros w. exists (issued [ev]). unfold call.
  destruct (answer (db w)) as [r d]. cbn [snd log].
  rewrite issued_app. split; [ reflexivity | apply incl_refl ].
Qed.

Lemma only_bind {A B} (first second : list Statement)
    (m : M (World DB) A) (k : A -> M (World DB) B) :
  only first m -> (forall a, only second (k a)) ->
  only (first ++ second) (bind m k).
Proof.
  intros Hm Hk w. destruct (Hm w) as (new1 & E1 & I1). unfold bind.
  destruct (m w) as [[a | e] w1]; cbn [snd] in *.
  - destruct (Hk a w1) as (new2 & E2 & I2).
    exists (new1 ++ new2). rewrite E2, E1, app_assoc. split; [ reflexivity | ].
    apply incl_app; [ now apply incl_appl | now apply incl_appr ].
  - exists new1. split; [ exact E1 | now apply incl_appl ].
Qed.

Lemma only_try {A} (first second : list Statement)
    (m : M (World DB) A) (h : Exc -> M (World DB) A) :
  only first m -> (forall e, only second (h e)) ->
  only (first ++ second) (try_except m h).
Proof.
  intros Hm Hh w. destruct (Hm w) as (new1 & E1 & I1). unfold try_except.
  destruct (m w) as [[a | e] w1]; cbn [snd] in *.
  - exists new1. split; [ exact E1 | now apply incl_appl ].
  - destruct (Hh e w1) as (new2 & E2 & I2).
    exists (new1 ++ new2). rewrite E2, E1, app_assoc. split; [ reflexivity | ].
    apply incl_app; [ now apply incl_appl | now apply incl_appr ].
Qed.

Lemma only_fetch_value (s : Statement) : only [s] (fetch_value oracle s).
Proof.
  unfold fetch_value.
  apply (only_bind [s] []); [ apply (only_call (EvFetchValue s)) | ].
  intros row. apply only_ret.
Qed.

Lemma only_wrap {A} (what : string) (e : Exc) :
  only (DB := DB) (A := A) [] (wrap what e).
Proof. apply only_raise. Qed.

Lemma only_reraise_or_wrap {A} (what : string) (e : Exc) :
  only (DB := DB) (A := A) [] (reraise_or_wrap what e).
Proof.
  unfold reraise_or_wrap. destruct (is_repository_error e);
    [ apply only_raise | apply only_wrap ].
Qed.

(** A guarded block issues what its block issues. *)
Lemma only_guarded {A} (allowed : list Statement) (m : M (World DB) A)
    (h : Exc -> M (World DB) A) :
  only allowed m -> (forall e, only [] (h e)) -> only allowed (try_except m h).
Proof.
  intros Hm Hh. rewrite <- (app_nil_r allowed). now apply only_try.
Qed.

Lemma only_row_to_entity (row : Dict) : only (DB := DB) [] (row_to_entity self row).
Proof.
  intros w. exists []. unfold row_to_entity. cbn [snd log].
  rewrite issued_app. split; [ reflexivity | apply incl_refl ].
Qed.

Lemma only_for_each {X Y} (f : X -> M (World DB) Y) (xs : list X) :
  (forall x, only [] (f x)) -> only [] (for_each f xs).
Proof.
  intros Hf. induction xs as [| x rest IH]; cbn [for_each].
  - apply only_ret.
  - apply (only_bind [] []); [ apply Hf | intros y ].
    apply (only_bind [] []); [ exact IH | intros ys; apply only_ret ].
Qed.

(** After a conversion, what follows runs on the row it returned. *)
Lemma only_after_entity_to_row {A} (allowed : list Statement)
    (entity : Entity) (k : Dict -> M (World DB) A) :
  (forall row, _entity_to_row self entity = Ok row -> only allowed (k row)) ->
  only allowed (bind (entity_to_row self entity) k).
Proof.
  intros Hk w. unfold bind, entity_to_row.
  destruct (_entity_to_row self entity) as [row | x] eqn:E.
  - destruct (Hk row eq_refl (mkWorld (db w) (log w ++ [EvEntityToRow])))
      as (new & En & In). cbn [log] in En.
    rewrite issued_app in En. cbn in En. rewrite app_nil_r in En.
    exists new. split; assumption.
  - exists []. cbn [snd log]. rewrite issued_app. cbn.
    split; [ reflexivity | apply incl_nil_l ].
Qed.

Lemma only_after_conversions {A} (allowed : list Statement)
    (entities : list Entity) (k : list Dict -> M (World DB) A) :
  (forall rows, convert_all self entities = Ok rows -> only allowed (k rows)) ->
  only allowed (bind (for_each (entity_to_row self) entities) k).
Proof.
  revert k. induction entities as [| e rest IH]; intros k Hk.
  - intros w. exact (Hk [] eq_refl w).
  - cbn [for_each].
    assert (same : forall w,
               bind (row <- entity_to_row self e ;;
                     ys <- for_each (entity_to_row self) rest ;;
                     ret (row :: ys)) k w
               = bind (entity_to_row self e)
                      (fun row =>
                         bind (for_each (entity_to_row self) rest)
                              (fun ys => k (row :: ys))) w).
    { intros w. unfold bind, ret.
      destruct (entity_to_row self e w) as [[row | x] w1]; [ | reflexivity ].
      destruct (for_each (entity_to_row self) rest w1) as [[ys | x] w2];
        reflexivity. }
    intros w. rewrite same.
    apply only_after_entity_to_row. intros row Hrow.
    apply IH. intros rows Hrows. apply Hk.
    cbn [convert_all]. now rewrite Hrow, Hrows.
Qed.

Lemma only_transaction {A} (allowed : list Statement) (body : M (World DB) A) :
  only allowed body -> only allowed (transaction oracle body).
Proof.
  intros Hb. unfold transaction.
  apply (only_bind [] allowed); [ apply (only_call EvTransaction) | intros _ ].
  apply only_guarded.
  - rewrite <- (app_nil_r allowed).
    apply only_bind; [ exact Hb | intros x ].
    apply (only_bind [] []); [ apply (only_call EvCommit) | intros _ ].
    apply only_ret.
  - intros e. apply (only_bind [] []);
      [ apply (only_call EvRollback) | intros _; apply only_raise ].
Qed.

Lemma only_insert_rows (query : Composed) (rows : list Dict) :
  forall results,
    only (map (fun row => stmt query (Some (dict_values row))) rows)
         (insert_rows oracle self query rows results).
Proof.
  induction rows as [| row rest IH]; intros results; cbn [insert_rows map].
  - apply only_ret.
  - apply (only_bind [_] _); [ apply (only_call (EvConnExecute _)) | ].
    intros result. destruct (row_truthy result) as [r |]; [ | apply IH ].
    apply (only_bind [] _); [ apply only_row_to_entity | intros e; apply IH ].
Qed.

End Issued.

Section IssuedByOperation.

Context {DB : Type} (oracle : Oracle DB).
Context {Entity : Type} (self : Repository Entity).

Lemma find_by_id_only (id_value : Value) :
  only [stmt (find_by_id_query self) (Some [id_value])]
       (find_by_id oracle self id_value).
Proof.
  apply only_guarded; [ | intros e; apply only_wrap ].
  apply (only_bind [_] []); [ apply (only_call (EvFetchOne _)) | intros row ].
  destruct (row_truthy row); [ | apply only_ret ].
  apply (only_bind [] []); [ apply only_row_to_entity | intros; apply only_ret ].
Qed.

Lemma find_all_only limit offset order_by order_desc :
  only [stmt (find_all_query self limit offset order_by order_desc) None]
       (find_all oracle self limit offset order_by order_desc).
Proof.
  apply only_guarded; [ | intros e; apply only_wrap ].
  apply (only_bind [_] []); [ apply (only_call (EvFetchAll _)) | intros rows ].
  apply only_for_each. apply only_row_to_entity.
Qed.

Lemma find_by_only kv rest limit offset order_by order_desc :
  let conditions := kv :: rest in
  only [stmt (find_by_query self conditions limit offset order_by order_desc)
             (Some (bound_values conditions))]
       (find_by oracle self conditions limit offset order_by order_desc).
Proof.
  intros conditions. unfold find_by, conditions.
  apply only_guarded; [ | intros e; apply only_wrap ].
  unfold find_by_body. rewrite where_loop_spec. cbn [snd].
  apply (only_bind [_] []); [ apply (only_call (EvFetchAll _)) | intros rows ].
  apply only_for_each. apply only_row_to_entity.
Qed.

Lemma create_only (entity : Entity) :
  only (create_statements self entity) (create oracle self entity).
Proof.
  apply only_guarded; [ | intros e; apply only_reraise_or_wrap ].
  apply only_after_entity_to_row. intros row Hrow.
  unfold create_statements. rewrite Hrow.
  apply (only_bind [_] []); [ apply (only_call (EvFetchOne _)) | intros r ].
  destruct r; [ apply only_row_to_entity | apply only_raise ].
Qed.

Lemma create_many_only (entities : list Entity) :
  only (create_many_statements self entities) (create_many oracle self entities).
Proof.
  destruct entities as [| e es].
  - cbn. apply only_ret.
  - unfold create_many.
    apply only_guarded; [ | intros x; apply only_wrap ].
    apply only_after_conversions. intros rows Hrows.
    unfold create_many_statements. rewrite Hrows.
    apply only_transaction. apply only_insert_rows.
Qed.

Lemma update_only (entity : Entity) :
  only (update_statements self entity) (update oracle self entity).
Proof.
  apply only_guarded; [ | intros e; apply only_reraise_or_wrap ].
  apply only_after_entity_to_row. intros row Hrow.
  unfold update_statements. rewrite Hrow.
  destruct (dict_get (primary_key self) row) as [pk_value |];
    [ | apply only_raise ].
  apply (only_bind [_] []); [ apply (only_call (EvFetchOne _)) | intros r ].
  destruct r; [ apply only_row_to_entity | apply only_raise ].
Qed.

Lemma delete_only (id_value : Value) :
  only [stmt (delete_query self) (Some [id_value])]
       (delete oracle self id_value).
Proof.
  apply only_guarded; [ | intros e; apply only_wrap ].
  apply (only_bind [_] []); [ apply (only_call (EvExecute _)) | ].
  intros n. apply only_ret.
Qed.

Lemma delete_by_only kv rest :
  let conditions := kv :: rest in
  only [stmt (delete_by_query self conditions) (Some (bound_values conditions))]
       (delete_by oracle self conditions).
Proof.
  intros conditions. unfold delete_by, conditions.
  apply only_guarded; [ | intros e; apply only_wrap ].
  unfold delete_by_body. rewrite where_loop_spec. cbn [snd].
  apply (only_call (EvExecute _)).
Qed.

Lemma count_only (conditions : option Dict) :
  only [count_statement self conditions] (count oracle self conditions).
Proof.
  apply only_guarded; [ | intros e; apply only_wrap ].
  unfold count_body, count_statement.
  apply (only_bind [_] []).
  - destruct conditions as [[| kv rest] |];
      try apply only_fetch_value.
    rewrite where_loop_spec. apply only_fetch_value.
  - intros v. destruct (truthy v); [ | apply only_ret ].
    destruct (py_int v); [ apply only_ret | apply only_raise ].
Qed.

Lemma exists_only (id_value : Value) :
  only [stmt (exists_query self) (Some [id_value])]
       (exists_ oracle self id_value).
Proof.
  apply only_guarded; [ | intros e; apply only_wrap ].
  apply (only_bind [_] []); [ apply only_fetch_value | ].
  intros v. apply only_ret.
Qed.

End IssuedByOperation.

Section QuotedAndBound.

Context {DB : Type} (oracle : Oracle DB).
Context {Entity : Type} (self : Repository Entity).

(** C1, as the code has it.  Every statement a repository operation
    issues is made of constant SQL text, of placeholders, and of the
    schema, table and column names as identifier-quoted fragments; the
    key values, row values and condition values the caller supplies are
    handed over as bound parameters.  The [limit] and [offset] arguments
    of [find_all] and [find_by] are not bound: they are merged into the
    query text as escaped SQL literals. *)
Theorem repository_statements_quoted_and_bound :
  let table := [schema self; table_name self] in
  let pk := primary_key self in
  (forall id_value,
      only [stmt (find_by_id_query self) (Some [id_value])]
           (find_by_id oracle self id_value))
  /\ composed_of (table ++ [pk]) [] (find_by_id_query self)
  /\ (forall limit offset order_by order_desc,
        only [stmt (find_all_query self limit offset order_by order_desc) None]
             (find_all oracle self limit offset order_by order_desc)
        /\ composed_of (table ++ order_names order_by)
                       (paging_literals limit offset)
                       (find_all_query self limit offset order_by order_desc))
  /\ (forall kv rest limit offset order_by order_desc,
        let conditions := kv :: rest in
        only [stmt (find_by_query self conditions limit offset
                                  order_by order_desc)
                   (Some (bound_values conditions))]
             (find_by oracle self conditions limit offset order_by order_desc)
        /\ composed_of ((table ++ dict_keys conditions) ++ order_names order_by)
                       (paging_literals limit offset)
                       (find_by_query self conditions limit offset
                                      order_by order_desc))
  /\ (forall entity, only (create_statements self entity)
                          (create oracle self entity))
  /\ (forall entities, only (create_many_statements self entities)
                            (create_many oracle self entities))
  /\ (forall columns,
        composed_of (table ++ columns) [] (insert_query self columns))
  /\ (forall entity, only (update_statements self entity)
                          (update oracle self entity))
  /\ (forall columns,
        composed_of (table ++ columns ++ [pk]) [] (update_query self columns))
  /\ (forall id_value,
        only [stmt (delete_query self) (Some [id_value])]
             (delete oracle self id_value))
  /\ composed_of (table ++ [pk]) [] (delete_query self)
  /\ (forall kv rest,
        let conditions := kv :: rest in
        only [stmt (delete_by_query self conditions)
                   (Some (bound_values conditions))]
             (delete_by oracle self conditions)
        /\ composed_of (table ++ dict_keys conditions) []
                       (delete_by_query self conditions))
  /\ (forall conditions,
        only [count_statement self conditions] (count oracle self conditions))
  /\ (forall conditions,
        composed_of (table ++ dict_keys conditions) []
                    (count_where_query self conditions))
  /\ composed_of table [] (count_all_query self)
  /\ (forall id_value,
        only [stmt (exists_query self) (Some [id_value])]
             (exists_ oracle self id_value))
  /\ composed_of (table ++ [pk]) [] (exists_query self).
Proof.
  intros table pk.
  split; [ apply find_by_id_only | ].
  split; [ repeat split | ].
  split; [ intros; split;
           [ apply find_all_only | apply find_all_query_composed ] | ].
  split; [ intros; split;
           [ apply find_by_only | apply find_by_query_composed ] | ].
  split; [ apply create_only | ].
  split; [ apply create_many_only | ].
  split; [ apply insert_query_composed | ].
  split; [ apply update_only | ].
  split; [ apply update_query_composed | ].
  split; [ apply delete_only | ].
  split; [ repeat split | ].
  split; [ intros; split; [ apply delete_by_only | ] | ].
  { rewrite delete_by_query_filtered. now apply filtered_composed. }
  split; [ apply count_only | ].
  split; [ intros; rewrite count_where_query_filtered;
           now apply filtered_composed | ].
  split; [ repeat split | ].
  split; [ apply exists_only | repeat split ].
Qed.

End QuotedAndBound.

(** C1, as stated, fails for [find_all] with a limit: the one statement
    issued carries the limit in its text and binds nothing. *)
Lemma find_all_limit_is_merged_into_text :
  let db := TestRepository.mock_db None [] VNone 0 in
  let s := stmt (find_all_query TestRepository.SampleRepository
                                (Some 10) None None false) None in
  issued (log (snd (find_all db TestRepository.SampleRepository
                             (Some 10) None None false
                             TestRepository.empty_world))) = [s]
  /\ query_text (stmt_query s)
     = "SELECT * FROM " ^^ quote dquote "public" ^^ "."
       ^^ quote dquote "test_entities" ^^ " LIMIT 10"
  /\ stmt_params s = None
  /\ ~ quoted_and_bound ["public"; "test_entities"] [VInt 10] s.
Proof.
  cbv zeta. split; [ reflexivity | ]. split; [ reflexivity | ].
  split; [ reflexivity | ].
  intros (q & Hq & _ & Hp). cbn in Hp. discriminate Hp.
Qed.

(** The schema helpers build their statement by string interpolation:
    the name reaches the text as it is given. *)
Example create_schema_text :
  create_schema_query "app; DROP TABLE users" true
  = "CREATE SCHEMA IF NOT EXISTS app; DROP TABLE users".
Proof. reflexivity. Qed.

Example drop_table_text :
  drop_table_query "users; DROP SCHEMA app" "public" true true
  = "DROP TABLE IF EXISTS public.users; DROP SCHEMA app CASCADE".
Proof. reflexivity. Qed.

Example null_condition_text :
  as_string (predicate ("deleted_at", VNone))
  = quote dquote "deleted_at" ^^ " IS NULL".
Proof. reflexivity. Qed.

(** ** Migrations *)

Section MigrationFacts.

Context {U : Type} (script : string -> Store U -> Result (Store U)).

Lemma script_runs_app (sql : string) (l1 l2 : list Event) :
  script_runs sql (l1 ++ l2) = (script_runs sql l1 + script_runs sql l2)%nat.
Proof. unfold script_runs. now rewrite filter_app, length_app. Qed.

(** [is_applied] against the reference store. *)
Lemma store_is_applied (migration_name : string) (w : World (TxDB U)) :
  let q := text_stmt is_applied_query (Some [VStr migration_name]) in
  let w' := mkWorld (db w) (log w ++ [EvFetchValue q]) in
  is_applied (store_db script) migration_name w =
  match migrations (committed (db w)) with
  | Some names => (Ok (existsb (String.eqb migration_name) names), w')
  | None => (Raise (PyException "relation does not exist"), w')
  end.
Proof.
  cbv zeta. unfold is_applied, fetch_value, bind, call, ret, store_db.
  cbn [on_fetch_tuple]. unfold store_fetch_value, text_stmt.
  cbn [stmt_query stmt_params]. rewrite String.eqb_refl.
  destruct (migrations (committed (db w))); reflexivity.
Qed.

(** The transaction of [run_migration] against the reference store. *)
Lemma store_migration_transaction (migration_name sql : string)
    (w : World (TxDB U)) :
  let s1 := text_stmt sql None in
  let s2 := text_stmt mark_applied_query (Some [VStr migration_name]) in
  let before := committed (db w) in
  transaction (store_db script)
    (conn_execute (store_db script) s1 ;;; conn_execute (store_db script) s2 ;;; ret tt) w =
  match script sql before with
  | Ok st1 =>
      match record_name migration_name st1 with
      | Ok st2 =>
          (Ok tt,
           mkWorld (mkTxDB st2 None)
                   (log w ++ [EvTransaction; EvConnExecute s1;
                              EvConnExecute s2; EvCommit]))
      | Raise e =>
          (Raise e,
           mkWorld (mkTxDB before None)
                   (log w ++ [EvTransaction; EvConnExecute s1;
                              EvConnExecute s2; EvRollback]))
      end
  | Raise e =>
      (Raise e,
       mkWorld (mkTxDB before None)
               (log w ++ [EvTransaction; EvConnExecute s1; EvRollback]))
  end.
Proof.
  cbv zeta.
  unfold transaction, try_except, bind, conn_execute, commit, rollback,
    call, store_db.
  cbn [on_transaction on_conn_execute on_commit on_rollback db log].
  unfold store_conn_execute. cbn [working committed].
  unfold apply_stmt at 1. cbn [text_stmt stmt_query stmt_params].
  destruct (script sql (committed (db w))) as [st1 | e].
  - cbn [working committed db log].
    unfold apply_stmt. cbn [text_stmt stmt_query stmt_params].
    rewrite String.eqb_refl.
    destruct (record_name migration_name st1) as [st2 | e];
      cbn [working committed db log ret raise];
      rewrite <- !app_assoc; reflexivity.
  - cbn [working committed db log raise].
    rewrite <- !app_assoc. reflexivity.
Qed.

(** All or nothing: after [run_migration] the committed store either
    holds both the effect of the script and the bookkeeping row, and
    the call reports [True], or is the store as it was. *)
Lemma run_migration_all_or_nothing (migration_name sql : string)
    (skip_if_applied : bool) (w : World (TxDB U)) :
  let before := committed (db w) in
  let out := run_migration (store_db script) migration_name sql skip_if_applied w in
  match fst out with
  | Ok true =>
      exists st1 st2,
        script sql before = Ok st1
        /\ record_name migration_name st1 = Ok st2
        /\ committed (db (snd out)) = st2
  | _ => committed (db (snd out)) = before
  end.
Proof.
  cbv zeta. unfold run_migration.
  assert (Htx : forall w0 : World (TxDB U),
             let out :=
               bind (transaction (store_db script)
                       (conn_execute (store_db script) (text_stmt sql None) ;;;
                        conn_execute (store_db script)
                          (text_stmt mark_applied_query
                                     (Some [VStr migration_name])) ;;;
                        ret tt))
                    (fun _ => ret true) w0 in
             match fst out with
             | Ok true =>
                 exists st1 st2,
                   script sql (committed (db w0)) = Ok st1
                   /\ record_name migration_name st1 = Ok st2
                   /\ committed (db (snd out)) = st2
             | _ => committed (db (snd out)) = committed (db w0)
             end).
  { intros w0. cbv zeta.
    set (tx := transaction (store_db script) _). unfold bind. subst tx.
    rewrite store_migration_transaction.
    destruct (script sql (committed (db w0))) as [st1 | e] eqn:E1;
      [ | reflexivity ].
    destruct (record_name migration_name st1) as [st2 | e] eqn:E2;
      [ | reflexivity ].
    cbn. exists st1, st2. auto. }
  destruct skip_if_applied.
  - set (rest := fun already : bool => _). unfold bind.
    rewrite store_is_applied.
    destruct (migrations (committed (db w))) as [names |]; [ | reflexivity ].
    destruct (existsb (String.eqb migration_name) names); [ reflexivity | ].
    subst rest. cbv beta iota. apply (Htx (mkWorld (db w) _)).
  - set (rest := fun already : bool => _). unfold bind at 1 2.
    cbn [ret]. subst rest. cbv beta iota. apply (Htx w).
Qed.

(** C3.  Start from a store whose bookkeeping table exists and does not
    hold [migration_name], and let the script succeed on it and leave
    the table in place without the name.  Then the first
    [run_migration(name, sql, True)] returns [True], the second returns
    [False], the script is sent once over both calls, and the first call
    sends the script and the bookkeeping insert inside one transaction
    that is committed after both.  Whenever [run_migration] runs, the
    committed store ends with both effects or with neither. *)
Theorem run_migration_twice_applies_once
    (migration_name sql : string) (d0 : TxDB U) (l0 : list Event)
    (names names1 : list string) (st1 : Store U)
    (Htable : migrations (committed d0) = Some names)
    (Hfresh : existsb (String.eqb migration_name) names = false)
    (Hscript : script sql (committed d0) = Ok st1)
    (Htable1 : migrations st1 = Some names1)
    (Hfresh1 : existsb (String.eqb migration_name) names1 = false) :
  let probe := EvFetchValue
                 (text_stmt is_applied_query (Some [VStr migration_name])) in
  let st2 := mkStore (Some (names1 ++ [migration_name])) (user_data st1) in
  let w0 := mkWorld d0 l0 in
  let w1 := mkWorld (mkTxDB st2 None)
                    (l0 ++ [probe; EvTransaction;
                            EvConnExecute (text_stmt sql None);
                            EvConnExecute
                              (text_stmt mark_applied_query
                                         (Some [VStr migration_name]));
                            EvCommit]) in
  let w2 := mkWorld (db w1) (log w1 ++ [probe]) in
  run_migration (store_db script) migration_name sql true w0 = (Ok true, w1)
  /\ run_migration (store_db script) migration_name sql true w1 = (Ok false, w2)
  /\ script_runs sql (log w2) = S (script_runs sql l0)
  /\ (forall skip_if_applied (w : World (TxDB U)),
        let out := run_migration (store_db script) migration_name sql skip_if_applied w in
        match fst out with
        | Ok true =>
            exists s1 s2,
              script sql (committed (db w)) = Ok s1
              /\ record_name migration_name s1 = Ok s2
              /\ committed (db (snd out)) = s2
        | _ => committed (db (snd out)) = committed (db w)
        end).
Proof.
  cbv zeta. split; [ | split; [ | split ] ].
  - unfold run_migration. unfold bind at 1. rewrite store_is_applied.
    cbn [db]. rewrite Htable, Hfresh.
    unfold bind at 1. rewrite store_migration_transaction.
    cbn [db log]. rewrite Hscript.
    unfold record_name. rewrite Htable1, Hfresh1.
    cbn [ret]. rewrite <- app_assoc. reflexivity.
  - unfold run_migration. unfold bind at 1. rewrite store_is_applied.
    cbn [db committed migrations].
    rewrite existsb_app. cbn [existsb]. rewrite String.eqb_refl.
    rewrite orb_true_r. reflexivity.
  - cbn [log]. rewrite !script_runs_app. unfold script_runs at 2 3.
    cbn [filter is_script_run text_stmt length].
    rewrite String.eqb_refl. cbn [length]. lia.
  - intros skip_if_applied w. apply run_migration_all_or_nothing.
Qed.

End MigrationFacts.

(** Migration [001_init] run twice against an empty bookkeeping table. *)
Lemma run_migration_twice_applies_once_witness :
  let run := run_migration (store_db MigrationExample.logging_script)
                           "001_init" "CREATE TABLE t (id int)" true in
  fst (run MigrationExample.fresh_world) = Ok true
  /\ fst (run (snd (run MigrationExample.fresh_world))) = Ok false
  /\ user_data (committed (db (snd (run (snd (run MigrationExample.fresh_world))))))
     = ["CREATE TABLE t (id int)"].
Proof.
  cbv zeta.
  destruct (run_migration_twice_applies_once
              MigrationExample.logging_script
              "001_init" "CREATE TABLE t (id int)"
              (mkTxDB (mkStore (Some []) []) None) [] [] []
              (mkStore (Some []) ["CREATE TABLE t (id int)"])
              eq_refl eq_refl eq_refl eq_refl eq_refl)
    as (first & second & _).
  unfold MigrationExample.fresh_world.
  rewrite first. cbn [fst snd]. rewrite second.
  repeat split.
Defined.

(** ** The pool manager *)

Module ConnectionFacts.

Import Connection.

Lemma nth_last {A} (l : list A) (x d : A) : nth (length l) (l ++ [x]) d = x.
Proof. apply nth_middle. Qed.

Lemma replace_last {A} (l : list A) (x y : A) :
  firstn (length l) (l ++ [x]) ++ y :: skipn (S (length l)) (l ++ [x])
  = l ++ [y].
Proof.
  assert (Hskip : skipn (S (length l)) (l ++ [x]) = []).
  { apply skipn_all2. rewrite length_app. cbn. lia. }
  rewrite Hskip, firstn_app, firstn_all, Nat.sub_diag. cbn [firstn].
  now rewrite app_nil_r.
Qed.

Lemma nth_replace {A} (l : list A) (r : nat) (y d : A) :
  (r < length l)%nat ->
  nth r (firstn r l ++ y :: skipn (S r) l) d = y.
Proof.
  intros H. rewrite app_nth2; rewrite firstn_length_le by lia; [ | lia ].
  now rewrite Nat.sub_diag.
Qed.

Lemma replace_replace {A} (l : list A) (r : nat) (y z : A) :
  (r < length l)%nat ->
  firstn r (firstn r l ++ y :: skipn (S r) l)
  ++ z :: skipn (S r) (firstn r l ++ y :: skipn (S r) l)
  = firstn r l ++ z :: skipn (S r) l.
Proof.
  intros H.
  assert (Hlen : length (firstn r l) = r) by (apply firstn_length_le; lia).
  f_equal.
  - rewrite firstn_app, Hlen, Nat.sub_diag. cbn [firstn].
    rewrite app_nil_r. rewrite firstn_firstn. f_equal. lia.
  - f_equal. rewrite skipn_app, Hlen.
    rewrite (skipn_all2 (firstn r l)) by (rewrite Hlen; lia).
    replace (S r - r)%nat with 1%nat by lia. reflexivity.
Qed.

Lemma length_replace {A} (l : list A) (r : nat) (y : A) :
  (r < length l)%nat ->
  length (firstn r l ++ y :: skipn (S r) l) = length l.
Proof.
  intros H. rewrite length_app, firstn_length_le by lia.
  cbn [length]. rewrite length_skipn. lia.
Qed.

Ltac in_bounds :=
  first [ assumption | rewrite length_replace by in_bounds; assumption ].

Lemma length_snoc {A} (l : list A) (x : A) : (length l < length (l ++ [x]))%nat.
Proof. rewrite length_app. cbn. lia. Qed.

Section ManagerFacts.

Context (open_pool : DatabaseConfig -> PoolOutcome).
Context (close_raises : nat -> option Exc).

Lemma new_creates (s : State) :
  starts_fresh s ->
  __new__ s =
  (Ok (length (objects s)),
   mkState (pid s) (Some (pid s)) (Some (length (objects s))) false
           (objects s ++ [mkInstance None false]) (next_pool s) (events s)).
Proof.
  intros [(p & Hp & Hneq) | (Hi & Hc)]; unfold __new__.
  - rewrite Hp. apply Z.eqb_neq in Hneq. rewrite Hneq. reflexivity.
  - destruct (_pool_pid s) as [p |].
    + destruct (p =? pid s); cbn [negb]; cbn; [ rewrite Hi, Hc | ];
        reflexivity.
    + rewrite Hi, Hc. reflexivity.
Qed.

(** [__init__] with a configuration on a blank instance, by what the
    pool library does. *)
Lemma init_blank (process : Z) (recorded : option Z) (inst : option nat)
    (objs : list Instance) (np : nat) (evs : list PoolEvent)
    (r : nat) (c : DatabaseConfig) :
  (r < length objs)%nat -> nth r objs blank = blank ->
  let put_object i := firstn r objs ++ i :: skipn (S r) objs in
  let failed := mkInstance (Some (mkAttrs c None false)) false in
  __init__ open_pool close_raises r (Some c)
           (mkState process recorded inst false objs np evs)
  = match open_pool c with
    | PoolReady =>
        (Ok tt,
         mkState process recorded inst false
                 (put_object (mkInstance (Some (mkAttrs c (Some np) false)) true))
                 (S np) (evs ++ [PoolOpened np c; PoolWaited np]))
    | CtorRaises e =>
        (Raise (creation_error e),
         mkState process recorded inst false (put_object failed) np evs)
    | WaitRaises e =>
        (Raise (creation_error e),
         mkState process recorded inst false (put_object failed) (S np)
                 (evs ++ [PoolOpened np c; PoolWaited np; PoolClosed np]))
    end.
Proof.
  intros Hr Hblank. cbv zeta.
  unfold __init__, initialized, _create_pool, creation_failed, set_pool,
    read_attrs, write_attrs, read, get, fresh_pool, suppress, pool_close,
    try_except, emit, set_object, bind, ret, raise, creation_error.
  fold blank.
  cbn [objects pid _pool_pid _instance _initialized next_pool events].
  rewrite Hblank.
  repeat first
    [ progress cbn [own_initialized attrs blank _config _closed objects pid
                    _pool_pid _instance _initialized next_pool events]
    | rewrite nth_replace by in_bounds
    | rewrite replace_replace by in_bounds
      | rewrite Hblank ].
  destruct (open_pool c) as [| e | e].
  - repeat first
      [ progress cbn [own_initialized attrs blank _config _closed objects pid
                      _pool_pid _instance _initialized next_pool events]
      | rewrite nth_replace by in_bounds
      | rewrite replace_replace by in_bounds
      | rewrite Hblank ].
    rewrite <- ?app_assoc. reflexivity.
  - repeat first
      [ progress cbn [own_initialized attrs blank _config _closed objects pid
                      _pool_pid _instance _initialized next_pool events]
      | rewrite nth_replace by in_bounds
      | rewrite replace_replace by in_bounds
      | rewrite Hblank ].
    reflexivity.
  - repeat first
      [ progress cbn [own_initialized attrs blank _config _closed objects pid
                      _pool_pid _instance _initialized next_pool events]
      | rewrite nth_replace by in_bounds
      | rewrite replace_replace by in_bounds
      | rewrite Hblank ].
    destruct (close_raises np);
      repeat first
        [ progress cbn [own_initialized attrs blank _config _closed objects pid
                        _pool_pid _instance _initialized next_pool events]
        | rewrite nth_replace by in_bounds
        | rewrite replace_replace by in_bounds
        | rewrite Hblank ];
      rewrite <- ?app_assoc; reflexivity.
Qed.

Lemma get_pool_creates (s : State) (c : DatabaseConfig) :
  starts_fresh s -> open_pool c = PoolReady ->
  get_pool open_pool close_raises (Some c) s
  = (Ok (length (objects s)), created s c).
Proof.
  intros Hs Hc. unfold get_pool.
  rewrite (bind_ok _ _ _ _ _ (new_creates s Hs)).
  erewrite bind_ok.
  2:{ rewrite init_blank; [ rewrite Hc; reflexivity
                          | apply length_snoc | apply nth_last ]. }
  unfold ret, created. now rewrite replace_last.
Qed.

(** A creation that does not come up raises. *)
Lemma get_pool_not_ready (s : State) (c : DatabaseConfig) :
  starts_fresh s -> open_pool c <> PoolReady ->
  exists e, fst (get_pool open_pool close_raises (Some c) s) = Raise e.
Proof.
  intros Hs Hc. unfold get_pool.
  rewrite (bind_ok _ _ _ _ _ (new_creates s Hs)).
  unfold bind at 1.
  rewrite init_blank; [ | apply length_snoc | apply nth_last ].
  destruct (open_pool c) as [| e | e]; [ contradiction | | ];
    eexists; reflexivity.
Qed.

(** What an acquisition that builds a manager adds to the pool events. *)
Lemma get_pool_events (s : State) (config : option DatabaseConfig) :
  starts_fresh s ->
  events (snd (get_pool open_pool close_raises config s))
  = events s ++ creation_events open_pool config (next_pool s).
Proof.
  intros Hs. unfold get_pool.
  rewrite (bind_ok _ _ _ _ _ (new_creates s Hs)).
  unfold bind at 1. destruct config as [c |].
  - rewrite init_blank; [ | apply length_snoc | apply nth_last ].
    unfold creation_events. destruct (open_pool c); cbn [snd events];
      rewrite ?app_nil_r; reflexivity.
  - unfold __init__, initialized, read, get, bind, ret.
    cbn [objects _initialized]. rewrite nth_last.
    cbn. now rewrite app_nil_r.
Qed.

(** Within the process that built it, an initialised manager is handed
    out again as it is. *)
Lemma get_pool_again (s : State) (r : nat) (config : option DatabaseConfig) :
  _pool_pid s = Some (pid s) -> _instance s = Some r ->
  own_initialized (nth r (objects s) blank) = true ->
  get_pool open_pool close_raises config s = (Ok r, s).
Proof.
  intros Hpid Hinst Hown.
  unfold get_pool, __new__, __init__, initialized, read, get, bind, ret.
  rewrite Hpid, Z.eqb_refl. cbn [negb]. rewrite Hinst.
  fold blank. rewrite Hown. reflexivity.
Qed.

Lemma pool_of_created (s : State) (c : DatabaseConfig) :
  pool (length (objects s)) (created s c) = (Ok (next_pool s), created s c).
Proof.
  unfold pool, read_attrs, read, bind, ret, created. cbn [objects].
  now rewrite nth_last.
Qed.

End ManagerFacts.

Section ManagerTheorems.

Context (open_pool : DatabaseConfig -> PoolOutcome).
Context (close_raises : nat -> option Exc).

(** A first acquisition that returns has built the manager. *)
Lemma first_acquisition (s0 : State) (c : DatabaseConfig) (r : nat) (s1 : State) :
  starts_fresh s0 ->
  get_pool open_pool close_raises (Some c) s0 = (Ok r, s1) ->
  open_pool c = PoolReady /\ r = length (objects s0) /\ s1 = created s0 c.
Proof.
  intros Hs Hfirst.
  destruct (open_pool c) as [| e | e] eqn:Hc.
  - rewrite (get_pool_creates _ _ _ _ Hs Hc) in Hfirst.
    inversion Hfirst. auto.
  - destruct (get_pool_not_ready open_pool close_raises s0 c Hs) as [x Hx];
      [ rewrite Hc; discriminate | ].
    rewrite Hfirst in Hx. discriminate Hx.
  - destruct (get_pool_not_ready open_pool close_raises s0 c Hs) as [x Hx];
      [ rewrite Hc; discriminate | ].
    rewrite Hfirst in Hx. discriminate Hx.
Qed.

(** C5.  Once a first acquisition with configuration [c1] has built the
    manager, a second acquisition in the same process, with any
    configuration or none, returns the same instance and changes
    nothing: the instance keeps the pool opened for [c1] and [c1] as its
    configuration, and no pool is opened or closed. *)
Theorem singleton_first_writer_wins
    (s0 : State) (c1 : DatabaseConfig) (r : nat) (s1 : State)
    (Hnone : _instance s0 = None)
    (Hclass : _initialized s0 = false)
    (Hfirst : get_pool open_pool close_raises (Some c1) s0 = (Ok r, s1)) :
  exists p,
    pool r s1 = (Ok p, s1)
    /\ attrs (nth r (objects s1) blank) = Some (mkAttrs c1 (Some p) false)
    /\ forall c2 : option DatabaseConfig,
         get_pool open_pool close_raises c2 s1 = (Ok r, s1).
Proof.
  assert (Hs : starts_fresh s0) by (right; auto).
  destruct (first_acquisition s0 c1 r s1 Hs Hfirst) as (Hc & Hr & Hs1).
  subst r s1. exists (next_pool s0).
  split; [ apply pool_of_created | ].
  split; [ unfold created; cbn [objects]; now rewrite nth_last | ].
  intros c2. apply get_pool_again.
  - reflexivity.
  - reflexivity.
  - unfold created. cbn [objects]. now rewrite nth_last.
Qed.

(** C4.  Let the manager be built in a process, and let a child with
    another process id inherit its state.  The next acquisition in the
    child, given a configuration whose pool comes up, returns a new
    instance holding a new pool; the parent's manager object is left as
    it was, still holding its open pool; and whatever the configuration
    and whatever the pool library answers, the acquisition in the child
    never closes the parent's pool. *)
Theorem fork_builds_new_pool_without_closing
    (s0 : State) (cA : DatabaseConfig) (rA : nat) (sA : State)
    (child : Z) (cB : DatabaseConfig)
    (Hnone : _instance s0 = None)
    (Hclass : _initialized s0 = false)
    (Hparent : get_pool open_pool close_raises (Some cA) s0 = (Ok rA, sA))
    (Hchild : child <> pid s0)
    (Hready : open_pool cB = PoolReady) :
  exists pA rB pB sB,
    pool rA sA = (Ok pA, sA)
    /\ get_pool open_pool close_raises (Some cB) (fork child sA) = (Ok rB, sB)
    /\ rB <> rA
    /\ pool rB sB = (Ok pB, sB)
    /\ pB <> pA
    /\ events sB = events sA ++ [PoolOpened pB cB; PoolWaited pB]
    /\ nth rA (objects sB) blank = nth rA (objects sA) blank
    /\ pool rA sB = (Ok pA, sB)
    /\ forall config : option DatabaseConfig,
         exists new,
           events (snd (get_pool open_pool close_raises config
                                 (fork child sA)))
           = events sA ++ new
           /\ existsb (is_close_of pA) new = false.
Proof.
  assert (Hs : starts_fresh s0) by (right; auto).
  destruct (first_acquisition s0 cA rA sA Hs Hparent) as (Hc & Hr & HsA).
  subst rA sA.
  assert (Hforked : starts_fresh (fork child (created s0 cA))).
  { left. exists (pid s0). split; [ reflexivity | ]. cbn. congruence. }
  exists (next_pool s0), (length (objects (fork child (created s0 cA)))),
         (next_pool (fork child (created s0 cA))),
         (created (fork child (created s0 cA)) cB).
  split; [ apply pool_of_created | ].
  split; [ now apply get_pool_creates | ].
  split; [ cbn [fork created objects]; rewrite length_app; cbn; lia | ].
  split; [ apply pool_of_created | ].
  split; [ cbn; lia | ].
  split; [ reflexivity | ].
  assert (Hkept :
            nth (length (objects s0))
                (objects (created (fork child (created s0 cA)) cB)) blank
            = nth (length (objects s0)) (objects (created s0 cA)) blank).
  { cbn [created fork objects].
    rewrite (app_nth1 (objects s0 ++ _)); [ reflexivity | ].
    apply length_snoc. }
  split; [ exact Hkept | ].
  split.
  { unfold pool, read_attrs, read, bind, ret. fold blank. rewrite Hkept.
    cbn [created objects]. now rewrite nth_last. }
  intros config. rewrite (get_pool_events _ _ _ _ Hforked).
  exists (creation_events open_pool config
                          (next_pool (fork child (created s0 cA)))).
  split; [ reflexivity | ].
  unfold creation_events. destruct config as [c |]; [ | reflexivity ].
  destruct (open_pool c); cbn [existsb is_close_of orb]; [ reflexivity .. | ].
  replace (Nat.eqb (next_pool (fork child (created s0 cA))) (next_pool s0))
    with false; [ reflexivity | ].
  symmetry. apply Nat.eqb_neq. cbn. lia.
Qed.

(** C8.  On a manager that holds an open pool, [close()] closes that
    pool once and marks the manager closed; a further [close()] returns
    without any effect, whether or not closing the pool raised; and the
    [pool] property then raises [DatabaseConnectionError]. *)
Theorem close_is_idempotent_then_pool_raises
    (s : State) (r : nat) (a : Attrs) (p : nat)
    (Hbound : (r < length (objects s))%nat)
    (Hattrs : attrs (nth r (objects s) blank) = Some a)
    (Hpool : _pool a = Some p)
    (Hopen : _closed a = false) :
  let closed_manager :=
    mkInstance (Some (mkAttrs (_config a) None true))
               (own_initialized (nth r (objects s) blank)) in
  let s1 :=
    mkState (pid s) (_pool_pid s) (_instance s) (_initialized s)
            (firstn r (objects s) ++ closed_manager :: skipn (S r) (objects s))
            (next_pool s) (events s ++ [PoolClosed p]) in
  close close_raises r s = (Ok tt, s1)
  /\ close close_raises r s1 = (Ok tt, s1)
  /\ pool r s1
     = (Raise (DatabaseConnectionError "Connection pool not initialized" None),
        s1).
Proof.
  cbv zeta. split; [ | split ].
  - unfold close, read_attrs, write_attrs, read, suppress, pool_close,
      try_except, emit, set_object, bind, ret, raise.
    fold blank. rewrite Hattrs. cbn [attrs]. rewrite Hpool, Hopen.
    cbn [negb objects pid _pool_pid _instance _initialized next_pool events].
    destruct (close_raises p); reflexivity.
  - unfold close, read_attrs, read, bind, ret. fold blank.
    cbn [objects]. rewrite nth_replace by assumption. reflexivity.
  - unfold pool, read_attrs, read, bind, ret, raise. fold blank.
    cbn [objects]. rewrite nth_replace by assumption. reflexivity.
Qed.

End ManagerTheorems.

End ConnectionFacts.

(** Tests [test_singleton_ignores_config_after_init]: [db1], then [db2]. *)
Lemma singleton_first_writer_wins_witness :
  let first := Connection.get_pool Connection.always_ready
                 Connection.quiet_close (Some Connection.config1)
                 (Connection.initial_state 100) in
  Connection.get_pool Connection.always_ready Connection.quiet_close
                      (Some Connection.config2) (snd first)
  = (Ok 0%nat, snd first).
Proof.
  cbv zeta.
  destruct (ConnectionFacts.singleton_first_writer_wins
              Connection.always_ready Connection.quiet_close
              (Connection.initial_state 100) Connection.config1 0%nat
              (Connection.created (Connection.initial_state 100)
                                       Connection.config1)
              eq_refl eq_refl eq_refl)
    as (p & _ & _ & again).
  exact (again (Some Connection.config2)).
Defined.

(** A pool built in process 100, then an acquisition in child 200. *)
Lemma fork_builds_new_pool_without_closing_witness :
  let parent := Connection.created (Connection.initial_state 100)
                                        Connection.config1 in
  exists pA rB pB sB,
    Connection.pool 0 parent = (Ok pA, parent)
    /\ Connection.get_pool Connection.always_ready
                           Connection.quiet_close
                           (Some Connection.config2)
                           (Connection.fork 200 parent) = (Ok rB, sB)
    /\ rB <> 0%nat
    /\ pB <> pA
    /\ Connection.events sB
       = Connection.events parent
         ++ [Connection.PoolOpened pB Connection.config2;
             Connection.PoolWaited pB]
    /\ Connection.pool 0 sB = (Ok pA, sB).
Proof.
  cbv zeta.
  destruct (ConnectionFacts.fork_builds_new_pool_without_closing
              Connection.always_ready Connection.quiet_close
              (Connection.initial_state 100) Connection.config1 0%nat
              (Connection.created (Connection.initial_state 100)
                                       Connection.config1)
              200 Connection.config2
              eq_refl eq_refl eq_refl
              (proj1 (Z.eqb_neq 200 100) eq_refl)
              eq_refl)
    as (pA & rB & pB & sB & HpA & Hrun & Hr & _ & Hp & Hev & _ & Hkept & _).
  exists pA, rB, pB, sB. repeat split; assumption.
Defined.

(** Tests [test_close_idempotent] and
    [test_pool_property_raises_when_closed]. *)
Lemma close_is_idempotent_then_pool_raises_witness :
  let s := Connection.created (Connection.initial_state 100)
                                   Connection.config1 in
  let s1 := snd (Connection.close Connection.quiet_close 0 s) in
  Connection.close Connection.quiet_close 0 s1 = (Ok tt, s1)
  /\ fst (Connection.pool 0 s1)
     = Raise (DatabaseConnectionError "Connection pool not initialized" None).
Proof.
  cbv zeta.
  destruct (ConnectionFacts.close_is_idempotent_then_pool_raises
              Connection.quiet_close
              (Connection.created (Connection.initial_state 100)
                                       Connection.config1)
              0%nat
              (Connection.mkAttrs Connection.config1 (Some 0%nat) false)
              0%nat (Nat.lt_0_succ 0) eq_refl eq_refl eq_refl)
    as (first & second & access).
  rewrite first. cbn [snd]. rewrite second, access. split; reflexivity.
Defined.


(** * Further properties of the repository *)

Lemma append_nil_r (s : string) : s ^^ "" = s.
Proof. induction s as [| c s IH]; cbn; [ reflexivity | now rewrite IH ]. Qed.

Lemma append_assoc (a b c : string) : (a ^^ b) ^^ c = a ^^ b ^^ c.
Proof. induction a as [| x a IH]; cbn; [ reflexivity | now rewrite IH ]. Qed.

Lemma as_string_app (a b : Composed) :
  as_string (a ++ b) = as_string a ^^ as_string b.
Proof.
  unfold as_string. induction a as [| x a IH]; cbn; [ reflexivity | ].
  now rewrite IH, append_assoc.
Qed.








Section RepositoryMore.

Context {DB : Type} (oracle : Oracle DB).
Context {Entity : Type} (self : Repository Entity).

Lemma wrap_closed {A} (what : string) (m : M (World DB) A) (w : World DB) :
  match fst (try_except m (wrap what) w) with
  | Ok _ => True
  | Raise e => is_repository_error e = true
  end.
Proof. unfold try_except. destruct (m w) as [[a | e] w']; cbn; auto. Qed.

Lemma reraise_closed {A} (what : string) (m : M (World DB) A) (w : World DB) :
  match fst (try_except m (reraise_or_wrap what) w) with
  | Ok _ => True
  | Raise e => is_repository_error e = true
  end.
Proof.
  unfold try_except, reraise_or_wrap.
  destruct (m w) as [[a | e] w']; cbn; [ exact I | ].
  destruct (is_repository_error e) eqn:E; cbn; auto.
Qed.

(** X1.  Whatever the database and the conversion methods do, an error
    that leaves a repository operation is a [RepositoryError]: a caller
    of [find_by_id], [find_all], [find_by], [find_one_by], [create],
    [create_many], [update], [delete], [delete_by], [count] or [exists]
    needs to catch no other kind. *)
Theorem only_repository_errors_escape (w : World DB) :
  let closed {A} (out : Result A * World DB) :=
    match fst out with
    | Ok _ => True
    | Raise e => is_repository_error e = true
    end in
  (forall id_value, closed (find_by_id oracle self id_value w))
  /\ (forall limit offset order_by order_desc,
        closed (find_all oracle self limit offset order_by order_desc w))
  /\ (forall conditions limit offset order_by order_desc,
        closed (find_by oracle self conditions limit offset order_by
                        order_desc w))
  /\ (forall conditions, closed (find_one_by oracle self conditions w))
  /\ (forall entity, closed (create oracle self entity w))
  /\ (forall entities, closed (create_many oracle self entities w))
  /\ (forall entity, closed (update oracle self entity w))
  /\ (forall id_value, closed (delete oracle self id_value w))
  /\ (forall conditions, closed (delete_by oracle self conditions w))
  /\ (forall conditions, closed (count oracle self conditions w))
  /\ (forall id_value, closed (exists_ oracle self id_value w)).
Proof.
  cbv zeta.
  assert (Hfind_by : forall conditions limit offset order_by order_desc,
             match fst (find_by oracle self conditions limit offset order_by
                                order_desc w) with
             | Ok _ => True
             | Raise e => is_repository_error e = true
             end).
  { intros [| kv rest] limit offset order_by order_desc; apply wrap_closed. }
  repeat split; intros; try apply wrap_closed; try apply reraise_closed;
    try apply Hfind_by.
  - unfold find_one_by, bind.
    specialize (Hfind_by conditions (Some 1) None None false).
    destruct (find_by oracle self conditions (Some 1) None None false w)
      as [[rows | e] w']; cbn in *; auto.
  - destruct entities as [| e es]; [ exact I | apply wrap_closed ].
  - destruct conditions as [| kv rest]; [ reflexivity | apply wrap_closed ].
Qed.








End RepositoryMore.

(** ** Batches *)

Section BatchStatements.

Context {Entity : Type} (self : Repository Entity).


End BatchStatements.


(** ** Query texts *)

Lemma as_string_join (joiner : string) (parts : list Composed) :
  as_string (join joiner parts) = str_join joiner (map as_string parts).
Proof.
  induction parts as [| p rest IH]; [ reflexivity | ].
  destruct rest as [| p2 rest]; [ reflexivity | ].
  change (join joiner (p :: p2 :: rest))
    with (p ++ [SQL joiner] ++ join joiner (p2 :: rest)).
  rewrite !as_string_app, IH.
  change (as_string [SQL joiner]) with (joiner ^^ "").
  now rewrite append_nil_r.
Qed.

Lemma predicate_as_text (item : string * Value) :
  as_string (predicate item) = predicate_text item.
Proof.
  unfold predicate, predicate_text.
  destruct (is_none (snd item)); reflexivity.
Qed.

Section QueryTexts.

Context {Entity : Type} (self : Repository Entity).

Lemma paging_as_text (head : string) limit offset order_by order_desc :
  str_join " " (head :: map as_string
                          (paging_parts limit offset order_by order_desc))
  = head ^^ order_text order_by order_desc ^^ limit_text limit
         ^^ offset_text offset.
Proof.
  unfold paging_parts, order_text, limit_text, offset_text.
  destruct order_by as [column |]; [ destruct (String.eqb column "") | ];
    destruct limit, offset, order_desc;
    cbn [app map str_join format fill fields text_part as_string fold_right
         as_string1 ident];
    cbn -[quote literal_text append];
    rewrite ?append_nil_r, ?append_assoc; reflexivity.
Qed.

(** X4.  The text of [find_all] and of [find_by] is the SELECT on the
    quoted table, then the WHERE clause of [find_by], then the optional
    ORDER BY, LIMIT and OFFSET parts, always in that order; an empty
    [order_by] adds no ORDER BY, and the limit and offset appear as
    literals in the text. *)
Theorem select_texts (conditions : Dict) (limit offset : option Z)
    (order_by : option string) (order_desc : bool) :
  as_string (find_all_query self limit offset order_by order_desc)
  = ("SELECT * FROM " ^^ table_text self)
    ^^ order_text order_by order_desc ^^ limit_text limit ^^ offset_text offset
  /\ as_string (find_by_query self conditions limit offset order_by order_desc)
     = ("SELECT * FROM " ^^ table_text self ^^ " WHERE "
        ^^ str_join " AND " (map predicate_text conditions))
       ^^ order_text order_by order_desc ^^ limit_text limit
       ^^ offset_text offset.
Proof.
  split.
  - unfold find_all_query. rewrite as_string_join. cbn [app map].
    rewrite paging_as_text. f_equal.
    unfold table_text. cbn -[quote append].
    now rewrite append_nil_r.
  - rewrite find_by_query_filtered, as_string_join. cbn [map].
    rewrite paging_as_text. f_equal.
    unfold filtered, table_text.
    change (SQL "SELECT * FROM " :: _qualified_table self
            ++ SQL " WHERE " :: join " AND " (map predicate conditions))
      with ((SQL "SELECT * FROM " :: _qualified_table self)
            ++ [SQL " WHERE "] ++ join " AND " (map predicate conditions)).
    rewrite !as_string_app, as_string_join, map_map.
    rewrite (map_ext _ _ predicate_as_text).
    cbn -[quote append str_join].
    rewrite ?append_nil_r, ?append_assoc. reflexivity.
Qed.

End QueryTexts.

(** ** Commit and rollback *)






Lemma appends_try {DB A} (P : Event -> bool)
    (m : M (World DB) A) (h : Exc -> M (World DB) A) :
  appends P m -> (forall e, appends P (h e)) -> appends P (try_except m h).
Proof.
  intros Hm Hh w. destruct (Hm w) as (t1 & E1 & P1). unfold try_except.
  destruct (m w) as [[a | e] w1]; cbn [snd] in *.
  - exists t1. split; assumption.
  - destruct (Hh e w1) as (t2 & E2 & P2). exists (t1 ++ t2).
    rewrite E2, E1, app_assoc, forallb_app, P1, P2. split; reflexivity.
Qed.



Section CommitDiscipline.

Context {DB : Type} (oracle : Oracle DB).





End CommitDiscipline.


Section CommitCallers.

Context {DB : Type} (oracle : Oracle DB).
Context {Entity : Type} (self : Repository Entity).






End CommitCallers.

(** * Further properties of the pool manager *)

Module ConnectionMore.

Import Connection.
Import ConnectionFacts.

Ltac in_range :=
  first [ assumption | rewrite length_replace by in_range; assumption ].

Section ManagerMore.

Context (open_pool : DatabaseConfig -> PoolOutcome).
Context (close_raises : nat -> option Exc).

(** [__init__] with a configuration on an instance that is not yet
    initialised, whatever attributes an earlier attempt left on it. *)
Lemma init_uninitialized (process : Z) (recorded : option Z) (inst : option nat)
    (objs : list Instance) (np : nat) (evs : list PoolEvent)
    (r : nat) (c : DatabaseConfig) :
  (r < length objs)%nat -> own_initialized (nth r objs blank) = false ->
  let put_object i := firstn r objs ++ i :: skipn (S r) objs in
  let failed := mkInstance (Some (mkAttrs c None false)) false in
  __init__ open_pool close_raises r (Some c)
           (mkState process recorded inst false objs np evs)
  = match open_pool c with
    | PoolReady =>
        (Ok tt,
         mkState process recorded inst false
                 (put_object (mkInstance (Some (mkAttrs c (Some np) false)) true))
                 (S np) (evs ++ [PoolOpened np c; PoolWaited np]))
    | CtorRaises e =>
        (Raise (creation_error e),
         mkState process recorded inst false (put_object failed) np evs)
    | WaitRaises e =>
        (Raise (creation_error e),
         mkState process recorded inst false (put_object failed) (S np)
                 (evs ++ [PoolOpened np c; PoolWaited np; PoolClosed np]))
    end.
Proof.
  intros Hr Hown. cbv zeta.
  unfold __init__, initialized, _create_pool, creation_failed, set_pool,
    read_attrs, write_attrs, read, get, fresh_pool, suppress, pool_close,
    try_except, emit, set_object, bind, ret, raise, creation_error.
  fold blank.
  cbn [objects pid _pool_pid _instance _initialized next_pool events].
  rewrite Hown.
  repeat first
    [ progress cbn [own_initialized attrs blank _config _closed objects pid
                    _pool_pid _instance _initialized next_pool events]
    | rewrite nth_replace by in_range
    | rewrite replace_replace by in_range
    | rewrite Hown ].
  destruct (open_pool c) as [| e | e].
  - repeat first
      [ progress cbn [own_initialized attrs blank _config _closed objects pid
                      _pool_pid _instance _initialized next_pool events]
      | rewrite nth_replace by in_range
      | rewrite replace_replace by in_range
      | rewrite Hown ].
    rewrite <- ?app_assoc. reflexivity.
  - repeat first
      [ progress cbn [own_initialized attrs blank _config _closed objects pid
                      _pool_pid _instance _initialized next_pool events]
      | rewrite nth_replace by in_range
      | rewrite replace_replace by in_range
      | rewrite Hown ].
    reflexivity.
  - repeat first
      [ progress cbn [own_initialized attrs blank _config _closed objects pid
                      _pool_pid _instance _initialized next_pool events]
      | rewrite nth_replace by in_range
      | rewrite replace_replace by in_range
      | rewrite Hown ].
    destruct (close_raises np);
      repeat first
        [ progress cbn [own_initialized attrs blank _config _closed objects pid
                        _pool_pid _instance _initialized next_pool events]
        | rewrite nth_replace by in_range
        | rewrite replace_replace by in_range
        | rewrite Hown ];
      rewrite <- ?app_assoc; reflexivity.
Qed.

(** X7.  [reset()] never raises, whatever the state of the singleton:
    an instance left without attributes by a failed creation, a pool
    already closed, or a pool whose close raises.  It always clears the
    instance, the class flag and the recorded process id, and closes at
    most one pool. *)
Theorem reset_never_raises (s : State) :
  exists s',
    reset close_raises s = (Ok tt, s')
    /\ _instance s' = None /\ _pool_pid s' = None /\ _initialized s' = false
    /\ pid s' = pid s
    /\ (events s' = events s \/ exists p, events s' = events s ++ [PoolClosed p]).
Proof.
  unfold reset, get, suppress, try_except, close, read_attrs, read,
    write_attrs, pool_close, attribute_error, emit, set_object, bind, ret,
    raise.
  destruct (_instance s) as [r |].
  - destruct (attrs (nth r (objects s) (mkInstance None false))) as [a |].
    + destruct (_pool a) as [p |].
      * destruct (_closed a); cbn [negb].
        -- eexists. repeat split. left. reflexivity.
        -- cbn [objects pid _pool_pid _instance _initialized next_pool events].
           destruct (close_raises p);
             eexists; repeat split; right; eexists; reflexivity.
      * eexists. repeat split. left. reflexivity.
    + eexists. repeat split. left. reflexivity.
  - eexists. repeat split. left. reflexivity.
Qed.

Lemma new_again (s : State) (r : nat) :
  _pool_pid s = Some (pid s) -> _instance s = Some r ->
  __new__ s = (Ok r, s).
Proof.
  intros Hpid Hinst. unfold __new__. rewrite Hpid, Z.eqb_refl. cbn [negb].
  now rewrite Hinst.
Qed.

Lemma reset_created (s0 : State) (c : DatabaseConfig) :
  reset close_raises (created s0 c)
  = (Ok tt,
     mkState (pid s0) None None false
             (objects s0 ++ [mkInstance (Some (mkAttrs c None true)) true])
             (S (next_pool s0))
             (events s0 ++ [PoolOpened (next_pool s0) c;
                            PoolWaited (next_pool s0);
                            PoolClosed (next_pool s0)])).
Proof.
  cbv beta iota zeta delta
      [reset get suppress try_except close read_attrs read write_attrs
       pool_close emit set_object bind ret raise created].
  cbn [_instance objects]. rewrite nth_last.
  cbn [attrs _pool _closed negb own_initialized _config objects pid _pool_pid
       _instance _initialized next_pool events].
  rewrite replace_last.
  destruct (close_raises (next_pool s0));
    repeat first
      [ progress cbn [attrs _pool _closed negb own_initialized _config objects
                      pid _pool_pid _instance _initialized next_pool events]
      | rewrite nth_last ];
    rewrite <- app_assoc; reflexivity.
Qed.

(** X8.  After [reset()] the next acquisition builds a new manager: the
    pool of the old one was closed once, the new instance is another
    object with its own pool, it takes the configuration of this
    acquisition, and the old instance no longer gives access to a
    pool. *)
Theorem reset_then_acquire_builds_anew
    (s0 : State) (c1 c2 : DatabaseConfig)
    (Hnone : _instance s0 = None)
    (Hclass : _initialized s0 = false)
    (Hc1 : open_pool c1 = PoolReady)
    (Hc2 : open_pool c2 = PoolReady) :
  let r1 := length (objects s0) in
  let p1 := next_pool s0 in
  exists s1 s2 s3,
    get_pool open_pool close_raises (Some c1) s0 = (Ok r1, s1)
    /\ reset close_raises s1 = (Ok tt, s2)
    /\ get_pool open_pool close_raises (Some c2) s2 = (Ok (S r1), s3)
    /\ events s3
       = events s0 ++ [PoolOpened p1 c1; PoolWaited p1; PoolClosed p1;
                       PoolOpened (S p1) c2; PoolWaited (S p1)]
    /\ pool (S r1) s3 = (Ok (S p1), s3)
    /\ attrs (nth (S r1) (objects s3) blank)
       = Some (mkAttrs c2 (Some (S p1)) false)
    /\ pool r1 s3 = (Raise not_initialized, s3).
Proof.
  intros r1 p1.
  assert (Hs : starts_fresh s0) by (right; auto).
  set (s2 := mkState (pid s0) None None false
                     (objects s0
                      ++ [mkInstance (Some (mkAttrs c1 None true)) true])
                     (S (next_pool s0))
                     (events s0 ++ [PoolOpened (next_pool s0) c1;
                                    PoolWaited (next_pool s0);
                                    PoolClosed (next_pool s0)])).
  assert (Hs2 : starts_fresh s2) by (right; auto).
  assert (Hlen : length (objects s2) = S r1).
  { unfold s2, r1. cbn [objects]. rewrite length_app. cbn. lia. }
  exists (created s0 c1), s2, (created s2 c2).
  split; [ now apply get_pool_creates | ].
  split; [ apply reset_created | ].
  split; [ rewrite <- Hlen; now apply get_pool_creates | ].
  split; [ unfold created, s2; cbn [events next_pool];
           rewrite <- app_assoc; reflexivity | ].
  split; [ rewrite <- Hlen; apply pool_of_created | ].
  split; [ rewrite <- Hlen; unfold created; cbn [objects];
           now rewrite nth_last | ].
  unfold pool, read_attrs, read, bind, ret, raise, not_initialized, created.
  cbn [objects]. unfold s2 at 1. cbn [objects].
  rewrite app_nth1 by apply length_snoc.
  unfold r1. rewrite nth_last. reflexivity.
Qed.

(** X9.  When the pool library fails while the manager is built, the
    acquisition raises [DatabaseConnectionError] with the failure as
    cause, a pool that was opened is closed again, and the instance
    keeps no pool.  The instance stays registered uninitialised: the
    next acquisition in the process initialises that same instance
    with the configuration it is given. *)
Theorem failed_creation_is_retried
    (s : State) (c c2 : DatabaseConfig) (e : Exc)
    (Hs : starts_fresh s)
    (Hfail : open_pool c = CtorRaises e \/ open_pool c = WaitRaises e)
    (Hc2 : open_pool c2 = PoolReady) :
  let r := length (objects s) in
  exists s1 s2 p,
    get_pool open_pool close_raises (Some c) s = (Raise (creation_error e), s1)
    /\ events s1
       = events s ++ creation_events open_pool (Some c) (next_pool s)
    /\ pool r s1 = (Raise not_initialized, s1)
    /\ get_pool open_pool close_raises (Some c2) s1 = (Ok r, s2)
    /\ pool r s2 = (Ok p, s2)
    /\ attrs (nth r (objects s2) blank) = Some (mkAttrs c2 (Some p) false)
    /\ events s2 = events s1 ++ [PoolOpened p c2; PoolWaited p].
Proof.
  intros r.
  assert (Hfirst :
            exists np evs,
              get_pool open_pool close_raises (Some c) s
              = (Raise (creation_error e),
                 mkState (pid s) (Some (pid s)) (Some r) false
                         (objects s
                          ++ [mkInstance (Some (mkAttrs c None false)) false])
                         np evs)
              /\ evs = events s
                       ++ creation_events open_pool (Some c) (next_pool s)).
  { unfold get_pool.
    rewrite (bind_ok _ _ _ _ _ (new_creates s Hs)).
    unfold bind at 1.
    rewrite init_blank; [ | apply length_snoc | apply nth_last ].
    unfold creation_events.
    destruct Hfail as [Hc | Hc]; rewrite Hc; rewrite replace_last;
      do 2 eexists; (split; [ reflexivity | ]);
      rewrite ?app_nil_r; reflexivity. }
  destruct Hfirst as (np & evs & Hfirst & Hevs).
  set (s1 := mkState (pid s) (Some (pid s)) (Some r) false
                     (objects s
                      ++ [mkInstance (Some (mkAttrs c None false)) false])
                     np evs) in *.
  assert (Hsecond :
            get_pool open_pool close_raises (Some c2) s1
            = (Ok r,
               mkState (pid s) (Some (pid s)) (Some r) false
                       (objects s
                        ++ [mkInstance (Some (mkAttrs c2 (Some np) false)) true])
                       (S np) (evs ++ [PoolOpened np c2; PoolWaited np]))).
  { unfold get_pool.
    rewrite (bind_ok _ _ _ _ _ (new_again s1 r eq_refl eq_refl)).
    unfold s1, bind. rewrite init_uninitialized;
      [ | apply length_snoc | unfold r; now rewrite nth_last ].
    rewrite Hc2. unfold r. rewrite replace_last. reflexivity. }
  eexists s1, _, np.
  split; [ exact Hfirst | ].
  split; [ exact Hevs | ].
  split.
  { unfold pool, read_attrs, read, bind, ret, raise, not_initialized, s1.
    cbn [objects]. unfold r. now rewrite nth_last. }
  split; [ exact Hsecond | ].
  split.
  { unfold pool, read_attrs, read, bind, ret. cbn [objects].
    unfold r. now rewrite nth_last. }
  split; [ cbn [objects]; unfold r; now rewrite nth_last | reflexivity ].
Qed.

(** X10.  A first acquisition without a configuration raises
    [DatabaseConnectionError] and opens no pool, but it has registered
    the blank instance: the next acquisition in the process, given a
    configuration, initialises that same instance. *)
Theorem acquisition_without_configuration
    (s : State) (c2 : DatabaseConfig)
    (Hs : starts_fresh s)
    (Hc2 : open_pool c2 = PoolReady) :
  let r := length (objects s) in
  exists s1 s2,
    get_pool open_pool close_raises None s = (Raise configuration_required, s1)
    /\ events s1 = events s
    /\ next_pool s1 = next_pool s
    /\ _instance s1 = Some r
    /\ get_pool open_pool close_raises (Some c2) s1 = (Ok r, s2)
    /\ pool r s2 = (Ok (next_pool s), s2)
    /\ events s2
       = events s ++ [PoolOpened (next_pool s) c2; PoolWaited (next_pool s)].
Proof.
  intros r.
  set (s1 := mkState (pid s) (Some (pid s)) (Some r) false
                     (objects s ++ [mkInstance None false])
                     (next_pool s) (events s)).
  assert (Hfirst : get_pool open_pool close_raises None s
                   = (Raise configuration_required, s1)).
  { unfold get_pool.
    rewrite (bind_ok _ _ _ _ _ (new_creates s Hs)).
    unfold __init__, initialized, read, get, bind, ret, raise.
    cbn [objects _initialized]. rewrite nth_last. reflexivity. }
  assert (Hsecond :
            get_pool open_pool close_raises (Some c2) s1
            = (Ok r,
               mkState (pid s) (Some (pid s)) (Some r) false
                       (objects s
                        ++ [mkInstance
                              (Some (mkAttrs c2 (Some (next_pool s)) false))
                              true])
                       (S (next_pool s))
                       (events s ++ [PoolOpened (next_pool s) c2;
                                     PoolWaited (next_pool s)]))).
  { unfold get_pool.
    rewrite (bind_ok _ _ _ _ _ (new_again s1 r eq_refl eq_refl)).
    unfold s1, bind. rewrite init_uninitialized;
      [ | apply length_snoc | unfold r; now rewrite nth_last ].
    rewrite Hc2. unfold r. rewrite replace_last. reflexivity. }
  eexists s1, _.
  split; [ exact Hfirst | ].
  split; [ reflexivity | ]. split; [ reflexivity | ].
  split; [ reflexivity | ].
  split; [ exact Hsecond | ].
  split; [ | reflexivity ].
  unfold pool, read_attrs, read, bind, ret. cbn [objects].
  unfold r. now rewrite nth_last.
Qed.

End ManagerMore.

Section AccessFacts.

Context (getconn : nat -> Result nat).
Context (putconn : nat -> nat -> option Exc).
Context (pool_stats : nat -> Dict).

(** X11.  [get_connection] leaves the manager as it is and raises only
    [DatabaseConnectionError], always with the original error as cause;
    on a manager without a pool that cause is the error of the [pool]
    property, wrapped once more.  [return_connection] never raises and
    leaves the manager as it is, whatever the pool or the manager's
    state. *)
Theorem connection_checkout_and_return (s : State) (r conn : nat) :
  let out := PoolAccess.get_connection getconn r s in
  snd out = s
  /\ match fst out with
     | Ok _ => True
     | Raise e =>
         exists cause,
           e = DatabaseConnectionError
                 ("Failed to get connection: " ^^ exc_str cause) (Some cause)
     end
  /\ match attrs (nth r (objects s) blank) with
     | Some a =>
         match _pool a with
         | None =>
             fst out
             = Raise (DatabaseConnectionError
                        "Failed to get connection: Connection pool not initialized"
                        (Some not_initialized))
         | Some p =>
             match getconn p with
             | Ok c => fst out = Ok c
             | Raise _ => True
             end
         end
     | None => True
     end
  /\ PoolAccess.return_connection putconn r conn s = (Ok tt, s).
Proof.
  cbv zeta.
  unfold PoolAccess.get_connection, PoolAccess.return_connection, try_except,
    pool, read_attrs, read, attribute_error, bind, ret, raise.
  fold blank.
  destruct (attrs (nth r (objects s) blank)) as [a |].
  - destruct (_pool a) as [p |].
    + destruct (getconn p) as [c | e]; destruct (putconn p conn);
        repeat split; eexists; reflexivity.
    + repeat split. eexists; reflexivity.
  - repeat split. eexists; reflexivity.
Qed.

(** X12.  On a manager that holds an open pool, [get_stats] returns the
    five pool figures, in a fixed order and with 0 for any figure the
    pool does not report; after [close()] it returns the single entry
    [status = not_initialized] and no longer consults the pool. *)
Theorem stats_before_and_after_close
    (close_raises : nat -> option Exc)
    (s : State) (r : nat) (a : Attrs) (p : nat)
    (Hbound : (r < length (objects s))%nat)
    (Hattrs : attrs (nth r (objects s) blank) = Some a)
    (Hpool : _pool a = Some p)
    (Hopen : _closed a = false) :
  let closed := snd (close close_raises r s) in
  (exists figures,
      PoolAccess.get_stats pool_stats r s = (Ok figures, s)
      /\ dict_keys figures
         = ["pool_min"; "pool_max"; "pool_size"; "pool_available";
            "requests_waiting"]
      /\ forall k, In k (dict_keys figures) ->
                   dict_get k figures
                   = Some (dict_get_or k (VInt 0) (pool_stats p)))
  /\ PoolAccess.get_stats pool_stats r closed
     = (Ok [("status", VStr "not_initialized")], closed).
Proof.
  cbv zeta. split.
  - unfold PoolAccess.get_stats, read_attrs, read, bind, ret. fold blank.
    rewrite Hattrs, Hpool. eexists. split; [ reflexivity | ].
    split; [ reflexivity | ].
    intros k Hk. cbn in Hk.
    destruct Hk as [H | [H | [H | [H | [H | []]]]]]; subst k; reflexivity.
  - unfold close, read_attrs, write_attrs, read, suppress, pool_close,
      try_except, emit, set_object, bind, ret, raise.
    fold blank. rewrite Hattrs. cbn [attrs]. rewrite Hpool, Hopen.
    cbn [negb objects pid _pool_pid _instance _initialized next_pool events].
    unfold PoolAccess.get_stats, read_attrs, read, bind, ret. fold blank.
    destruct (close_raises p); cbn [snd objects];
      rewrite nth_replace by assumption; reflexivity.
Qed.

End AccessFacts.

End ConnectionMore.


(** Test [test_reset_clears_singleton]: [db1], [reset()], then [db2]. *)
Lemma reset_then_acquire_builds_anew_witness :
  exists s1 s2 s3,
    Connection.get_pool Connection.always_ready Connection.quiet_close
                        (Some Connection.config1)
                        (Connection.initial_state 100) = (Ok 0%nat, s1)
    /\ Connection.reset Connection.quiet_close s1 = (Ok tt, s2)
    /\ Connection.get_pool Connection.always_ready Connection.quiet_close
                           (Some Connection.config2) s2 = (Ok 1%nat, s3)
    /\ Connection.pool 1 s3 = (Ok 1%nat, s3)
    /\ Connection.pool 0 s3 = (Raise not_initialized, s3).
Proof.
  destruct (ConnectionMore.reset_then_acquire_builds_anew
              Connection.always_ready Connection.quiet_close
              (Connection.initial_state 100)
              Connection.config1 Connection.config2
              eq_refl eq_refl eq_refl eq_refl)
    as (s1 & s2 & s3 & H1 & H2 & H3 & _ & H4 & _ & H5).
  exists s1, s2, s3. repeat split; assumption.
Defined.

(** The database of [db1] is down; the retry asks for [db2]. *)
Lemma failed_creation_is_retried_witness :
  exists s1 s2 p,
    Connection.get_pool refuses_db1 Connection.quiet_close
                        (Some Connection.config1)
                        (Connection.initial_state 100)
    = (Raise (Connection.creation_error (PyException "connection refused")),
       s1)
    /\ Connection.get_pool refuses_db1 Connection.quiet_close
                           (Some Connection.config2) s1 = (Ok 0%nat, s2)
    /\ Connection.pool 0 s2 = (Ok p, s2).
Proof.
  destruct (ConnectionMore.failed_creation_is_retried
              refuses_db1 Connection.quiet_close
              (Connection.initial_state 100)
              Connection.config1 Connection.config2
              (PyException "connection refused")
              (or_intror (conj eq_refl eq_refl))
              (or_introl eq_refl) eq_refl)
    as (s1 & s2 & p & H1 & _ & _ & H2 & H3 & _).
  exists s1, s2, p. repeat split; assumption.
Defined.

(** Test [test_singleton_requires_config], then a call
    with a configuration. *)
Lemma acquisition_without_configuration_witness :
  exists s1 s2,
    Connection.get_pool Connection.always_ready Connection.quiet_close None
                        (Connection.initial_state 100)
    = (Raise configuration_required, s1)
    /\ Connection.get_pool Connection.always_ready Connection.quiet_close
                           (Some Connection.config2) s1 = (Ok 0%nat, s2)
    /\ Connection.pool 0 s2 = (Ok 0%nat, s2).
Proof.
  destruct (ConnectionMore.acquisition_without_configuration
              Connection.always_ready Connection.quiet_close
              (Connection.initial_state 100) Connection.config2
              (or_intror (conj eq_refl eq_refl)) eq_refl)
    as (s1 & s2 & H1 & _ & _ & _ & H2 & H3 & _).
  exists s1, s2. repeat split; assumption.
Defined.

(** Tests [test_get_stats] and [test_get_stats_not_initialized], on a
    pool that reports its size only. *)
Lemma stats_before_and_after_close_witness :
  let s := Connection.created (Connection.initial_state 100)
                              Connection.config1 in
  let stats (p : nat) : Dict := [("pool_size", VInt 5)] in
  fst (PoolAccess.get_stats stats 0 s)
  = Ok [("pool_min", VInt 0); ("pool_max", VInt 0); ("pool_size", VInt 5);
        ("pool_available", VInt 0); ("requests_waiting", VInt 0)]
  /\ fst (PoolAccess.get_stats stats 0
            (snd (Connection.close Connection.quiet_close 0 s)))
     = Ok [("status", VStr "not_initialized")].
Proof.
  cbv zeta.
  destruct (ConnectionMore.stats_before_and_after_close
              (fun _ => [("pool_size", VInt 5)]) Connection.quiet_close
              (Connection.created (Connection.initial_state 100)
                                  Connection.config1)
              0%nat
              (Connection.mkAttrs Connection.config1 (Some 0%nat) false)
              0%nat (Nat.lt_0_succ 0) eq_refl eq_refl eq_refl)
    as [(figures & Hrun & _ & _) Hclosed].
  split.
  - rewrite Hrun. cbn [fst]. f_equal.
    apply (f_equal fst) in Hrun. cbn in Hrun. now inversion Hrun.
  - now rewrite Hclosed.
Defined.

(** * Further properties of the schema helpers *)

Lemma raises_only_ret {S A} (P : Exc -> Prop) (a : A) :
  raises_only P (ret a : M S A).
Proof. intros s e s' H. discriminate H. Qed.

Lemma raises_only_raise {S A} (P : Exc -> Prop) (e : Exc) :
  P e -> raises_only P (raise e : M S A).
Proof. intros He s e' s' H. inversion H. now subst. Qed.

Lemma raises_only_bind {S A B} (P : Exc -> Prop) (m : M S A) (k : A -> M S B) :
  raises_only P m -> (forall a, raises_only P (k a)) ->
  raises_only P (bind m k).
Proof.
  intros Hm Hk s e s' H. unfold bind in H.
  destruct (m s) as [[a | e0] s0] eqn:E.
  - exact (Hk a _ _ _ H).
  - inversion H; subst. exact (Hm _ _ _ E).
Qed.

Lemma raises_only_try {S A} (P : Exc -> Prop) (m : M S A) (h : Exc -> M S A) :
  (forall e, raises_only P (h e)) -> raises_only P (try_except m h).
Proof.
  intros Hh s e s' H. unfold try_except in H.
  destruct (m s) as [[a | e0] s0].
  - discriminate H.
  - exact (Hh e0 _ _ _ H).
Qed.

(** A [try] whose handler re-raises what it caught. *)
Lemma raises_only_try_reraise {S A} (P : Exc -> Prop) (m : M S A)
    (h : Exc -> M S A) :
  raises_only P m -> (forall e, P e -> raises_only P (h e)) ->
  raises_only P (try_except m h).
Proof.
  intros Hm Hh s e s' H. unfold try_except in H.
  destruct (m s) as [[a | e0] s0] eqn:E.
  - discriminate H.
  - exact (Hh e0 (Hm _ _ _ E) _ _ _ H).
Qed.

Lemma raises_only_call {DB A} (P : Exc -> Prop) (ev : Event)
    (answer : DB -> Result A * DB) :
  answers_raise P answer -> raises_only P (call ev answer).
Proof.
  intros Ha w e w' H. unfold call in H.
  destruct (answer (db w)) as [r d] eqn:E. inversion H; subst.
  exact (Ha _ _ _ E).
Qed.

Lemma raises_only_schema_error {DB A} (what : string) (e : Exc) :
  raises_only schema_failure (schema_error what e : M (World DB) A).
Proof. apply raises_only_raise. now exists what, e. Qed.

Section SchemaFacts.

Context {DB : Type} (oracle : Oracle DB).
Context (path_str : string -> string).
Context (files : string -> option (Result string)).

Lemma execute_sql_raises :
  forall sql, raises_only schema_failure (execute_sql oracle sql).
Proof.
  intros sql. apply raises_only_try. intros e. apply raises_only_schema_error.
Qed.

Lemma schema_failure_is_schema_error (e : Exc) :
  schema_failure e -> is_schema_error e = true.
Proof. intros (what & cause & ->). reflexivity. Qed.

(** [execute_sql_file], by the state of the file. *)
Lemma execute_sql_file_run (file_path : string) (w : World DB) :
  let path := path_str file_path in
  execute_sql_file oracle path_str files file_path w
  = match files path with
    | None => (Raise (file_not_found path), w)
    | Some (Ok content) => execute_sql oracle content w
    | Some (Raise e) =>
        (Raise (if is_schema_error e then e
                else SchemaError
                       ("Failed to execute SQL file '" ^^ path ^^ "': "
                        ^^ exc_str e) (Some e)), w)
    end.
Proof.
  cbv zeta. unfold execute_sql_file.
  destruct (files (path_str file_path)) as [[content | e] |].
  - unfold try_except at 1. unfold read_text.
    rewrite (bind_ok _ _ _ _ _ (eq_refl : ret content w = (Ok content, w))).
    destruct (execute_sql oracle content w) as [[[] | e] w'] eqn:E.
    + reflexivity.
    + rewrite (schema_failure_is_schema_error e
                 (execute_sql_raises content _ _ _ E)).
      reflexivity.
  - unfold try_except, read_text, bind, raise, schema_error.
    destruct (is_schema_error e); [ reflexivity | ].
    rewrite !append_assoc. reflexivity.
  - reflexivity.
Qed.

(** X13.  What [execute_sql_file] does, by the state of the file.  A
    missing file raises [SchemaError] and nothing reaches the database.
    A readable file is run exactly as [execute_sql] runs its content: an
    error of the execution comes out as [execute_sql] raised it, not
    wrapped a second time.  A file that cannot be read raises
    [SchemaError] with the read error as cause, and again nothing
    reaches the database. *)
Theorem execute_sql_file_by_file_state (file_path : string) (w : World DB) :
  let path := path_str file_path in
  execute_sql_file oracle path_str files file_path w
  = match files path with
    | None => (Raise (file_not_found path), w)
    | Some (Ok content) => execute_sql oracle content w
    | Some (Raise e) =>
        (Raise (if is_schema_error e then e
                else SchemaError
                       ("Failed to execute SQL file '" ^^ path ^^ "': "
                        ^^ exc_str e) (Some e)), w)
    end.
Proof. exact (execute_sql_file_run file_path w). Qed.



(** X15.  [init_schema] runs the file whenever a file is named, and
    then never looks at [sql_content], even when the file is missing;
    an empty string counts as no argument, and with neither argument
    the call raises [SchemaError] before it reaches the database. *)
Theorem init_schema_prefers_the_file
    (file : string) (sql_file sql_content : option string) (w : World DB) :
  file <> EmptyString ->
  init_schema oracle path_str files (Some file) sql_content w
  = execute_sql_file oracle path_str files file w
  /\ (files (path_str file) = None ->
      init_schema oracle path_str files (Some file) sql_content w
      = (Raise (file_not_found (path_str file)), w))
  /\ (In sql_file [None; Some EmptyString] ->
      In sql_content [None; Some EmptyString] ->
      init_schema oracle path_str files sql_file sql_content w
      = (Raise nothing_to_run, w)).
Proof.
  intros Hfile.
  assert (Hgiven : given (Some file) = Some file).
  { unfold given. destruct (String.eqb_spec file ""); [ contradiction | ].
    reflexivity. }
  split; [ | split ].
  - unfold init_schema. now rewrite Hgiven.
  - intros Hmissing. unfold init_schema. rewrite Hgiven.
    rewrite execute_sql_file_run. cbv zeta. now rewrite Hmissing.
  - intros [<- | [<- | []]] [<- | [<- | []]]; reflexivity.
Qed.

(** X16.  [MigrationManager] wraps nothing: an error raised by
    [is_applied], [mark_applied] or [run_migration] is an error the
    database raised, whatever property [P] singles those out; no
    [SchemaError] is made of it, unlike in [execute_sql]. *)
Theorem migration_errors_pass_unwrapped (P : Exc -> Prop)
    (migration_name sql : string) (skip_if_applied : bool) :
  oracle_raises P oracle ->
  raises_only P (is_applied oracle migration_name)
  /\ raises_only P (mark_applied oracle migration_name)
  /\ raises_only P (run_migration oracle migration_name sql skip_if_applied).
Proof.
  intros (Hone & Hall & Htuple & Hexec & Htx & Hconn & Hcommit & Hrollback).
  assert (Hprobe : raises_only P (is_applied oracle migration_name)).
  { unfold is_applied, fetch_value.
    apply raises_only_bind; [ | intros; apply raises_only_ret ].
    apply raises_only_bind; [ | intros; apply raises_only_ret ].
    apply raises_only_call, Htuple. }
  split; [ exact Hprobe | ]. split.
  - unfold mark_applied, execute.
    apply raises_only_bind; [ | intros; apply raises_only_ret ].
    apply raises_only_call, Hexec.
  - unfold run_migration. apply raises_only_bind.
    + destruct skip_if_applied; [ exact Hprobe | apply raises_only_ret ].
    + intros [|]; [ apply raises_only_ret | ].
      apply raises_only_bind; [ | intros; apply raises_only_ret ].
      unfold transaction.
      apply raises_only_bind; [ apply raises_only_call, Htx | intros _ ].
      apply raises_only_try_reraise.
      * apply raises_only_bind.
        -- apply raises_only_bind;
             [ apply raises_only_call, Hconn | intros _ ].
           apply raises_only_bind;
             [ apply raises_only_call, Hconn | intros _ ].
           apply raises_only_ret.
        -- intros []. apply raises_only_bind;
             [ apply raises_only_call, Hcommit | intros; apply raises_only_ret ].
      * intros e He. apply raises_only_bind;
          [ apply raises_only_call, Hrollback | intros _ ].
        now apply raises_only_raise.
Qed.

End SchemaFacts.

Section ForcedMigration.

Context {U : Type} (script : string -> Store U -> Result (Store U)).


End ForcedMigration.

(** A missing file, on a database that is never reached. *)
Lemma init_schema_prefers_the_file_witness :
  init_schema (TestRepository.failing_db (PyException "unreachable"))
              (fun p => p) (fun _ => None)
              (Some "schemas/init.sql") (Some "CREATE TABLE t (id int)")
              TestRepository.empty_world
  = (Raise (file_not_found "schemas/init.sql"), TestRepository.empty_world).
Proof.
  refine (proj1 (proj2 (init_schema_prefers_the_file
                          (TestRepository.failing_db (PyException "unreachable"))
                          (fun p => p) (fun _ => None)
                          "schemas/init.sql" None
                          (Some "CREATE TABLE t (id int)")
                          TestRepository.empty_world _)) eq_refl).
  discriminate.
Defined.


(** A database that raises one driver error on every call. *)
Lemma migration_errors_pass_unwrapped_witness :
  raises_only (fun e => e = PyException "boom")
              (run_migration (TestRepository.failing_db (PyException "boom"))
                             "001_init" "CREATE TABLE t (id int)" true).
Proof.
  apply (migration_errors_pass_unwrapped
           (TestRepository.failing_db (PyException "boom"))
           (fun e => e = PyException "boom")
           "001_init" "CREATE TABLE t (id int)" true).
  unfold oracle_raises, answers_raise. cbn.
  repeat split; intros; congruence.
Defined.


(** * Properties of the facade's life cycle *)

Lemma nth_error_set_nth_same {A} (l : list A) (d : nat) (x o : A) :
  nth_error l d = Some o -> nth_error (set_nth d x l) d = Some x.
Proof.
  revert d. induction l as [| y l IH]; intros [| d] H; cbn in *;
    try discriminate; [ reflexivity | now apply IH ].
Qed.

Lemma nth_error_set_nth_other {A} (l : list A) (d d' : nat) (x : A) :
  d <> d' -> nth_error (set_nth d x l) d' = nth_error l d'.
Proof.
  revert d d'. induction l as [| y l IH]; intros [| d] [| d'] H; cbn;
    try reflexivity; [ contradiction | apply IH; congruence ].
Qed.

Lemma set_nth_twice {A} (l : list A) (d : nat) (x y : A) :
  set_nth d y (set_nth d x l) = set_nth d y l.
Proof.
  revert d. induction l as [| z l IH]; intros [| d]; cbn;
    try reflexivity. now rewrite IH.
Qed.

Lemma set_nth_same {A} (l : list A) (d : nat) (x : A) :
  nth_error l d = Some x -> set_nth d x l = l.
Proof.
  revert d. induction l as [| y l IH]; intros [| d] H; cbn in *;
    try discriminate; [ congruence | now rewrite IH ].
Qed.

Module FacadeFacts.

Import DatabaseFacade.

Section LifecycleFacts.

Context (open_pool : Connection.DatabaseConfig -> Connection.PoolOutcome).
Context (close_raises : nat -> option Exc).

Lemma lift_run {A} (m : M Connection.State A) (s : State) r c :
  m (manager s) = (r, c) ->
  lift m s = (r, mkState c (objects s) (_instance s) (calls s)).
Proof. intros H. unfold lift. now rewrite H. Qed.

Lemma read_run (s : State) (d : nat) (o : Database) :
  nth_error (objects s) d = Some o -> read d s = (Ok o, s).
Proof. intros H. unfold read. now rewrite H. Qed.

(** [connect] on a facade that holds a manager. *)
Lemma connect_idle (s : State) (d : nat) (o : Database) (r : nat) :
  nth_error (objects s) d = Some o -> _pool o = Some r ->
  connect open_pool close_raises d s = (Ok tt, s).
Proof.
  intros Hobj Hpool. unfold connect.
  rewrite (bind_ok _ _ _ _ _ (read_run s d o Hobj)). now rewrite Hpool.
Qed.

(** [connect] on a facade without a manager, by the acquisition. *)
Lemma connect_run (s : State) (d : nat) (c : Connection.DatabaseConfig)
    (r : nat) (m : Connection.State) :
  nth_error (objects s) d = Some (mkDatabase c None) ->
  Connection.get_pool open_pool close_raises (Some c) (manager s) = (Ok r, m) ->
  connect open_pool close_raises d s
  = (Ok tt,
     mkState m (set_nth d (mkDatabase c (Some r)) (objects s)) (_instance s)
             (calls s)).
Proof.
  intros Hobj Hget. unfold connect.
  rewrite (bind_ok _ _ _ _ _ (read_run s d _ Hobj)). cbn [_pool _config].
  rewrite (bind_ok _ _ _ _ _ (lift_run _ s _ _ Hget)). reflexivity.
Qed.

(** [disconnect] on a facade that holds a manager, by what [close()]
    and [reset()] do to the manager's module. *)
Lemma disconnect_run (s : State) (d : nat) (c : Connection.DatabaseConfig)
    (r : nat) (m1 m2 : Connection.State) :
  nth_error (objects s) d = Some (mkDatabase c (Some r)) ->
  Connection.close close_raises r (manager s) = (Ok tt, m1) ->
  Connection.reset close_raises m1 = (Ok tt, m2) ->
  disconnect close_raises d s
  = (Ok tt,
     mkState m2 (set_nth d (mkDatabase c None) (objects s)) (_instance s)
             (calls s)).
Proof.
  intros Hobj Hclose Hreset. unfold disconnect.
  rewrite (bind_ok _ _ _ _ _ (read_run s d _ Hobj)). cbn [_pool _config].
  rewrite (bind_ok _ _ _ _ _ (lift_run _ s _ _ Hclose)).
  erewrite bind_ok; [ | apply lift_run; cbn [manager]; exact Hreset ].
  reflexivity.
Qed.

Lemma disconnect_idle (s : State) (d : nat) (c : Connection.DatabaseConfig) :
  nth_error (objects s) d = Some (mkDatabase c None) ->
  disconnect close_raises d s = (Ok tt, s).
Proof.
  intros Hobj. unfold disconnect.
  now rewrite (bind_ok _ _ _ _ _ (read_run s d _ Hobj)).
Qed.

(** [close()] on the manager just built, then [reset()]. *)
Lemma close_created (m : Connection.State) (c : Connection.DatabaseConfig) :
  let closed :=
    Connection.mkState
      (Connection.pid m) (Some (Connection.pid m))
      (Some (length (Connection.objects m))) false
      (Connection.objects m
       ++ [Connection.mkInstance
             (Some (Connection.mkAttrs c None true)) true])
      (S (Connection.next_pool m))
      (Connection.events m
       ++ [Connection.PoolOpened (Connection.next_pool m) c;
           Connection.PoolWaited (Connection.next_pool m);
           Connection.PoolClosed (Connection.next_pool m)]) in
  Connection.close close_raises (length (Connection.objects m))
                   (Connection.created m c) = (Ok tt, closed)
  /\ Connection.reset close_raises closed = (Ok tt, closed_and_reset m c).
Proof.
  cbv zeta. split.
  - cbv beta iota zeta delta
        [Connection.close Connection.read_attrs Connection.read
         Connection.write_attrs Connection.pool_close Connection.emit
         Connection.set_object Connection.created suppress try_except
         bind ret raise].
    cbn [Connection.objects]. rewrite ConnectionFacts.nth_last.
    cbn [Connection.attrs Connection._pool Connection._closed negb
         Connection.own_initialized Connection._config Connection.objects
         Connection.pid Connection._pool_pid Connection._instance
         Connection._initialized Connection.next_pool Connection.events].
    rewrite ConnectionFacts.replace_last.
    destruct (close_raises (Connection.next_pool m));
      repeat first
        [ progress cbn [Connection.attrs Connection._pool Connection._closed
                        negb Connection.own_initialized Connection._config
                        Connection.objects Connection.pid
                        Connection._pool_pid Connection._instance
                        Connection._initialized Connection.next_pool
                        Connection.events]
        | rewrite ConnectionFacts.nth_last ];
      rewrite <- app_assoc; reflexivity.
  - cbv beta iota zeta delta
        [Connection.reset Connection.close Connection.read_attrs
         Connection.read get suppress try_except bind ret raise
         closed_and_reset].
    cbn [Connection._instance Connection.objects].
    rewrite ConnectionFacts.nth_last. reflexivity.
Qed.

(** [close()] on a manager that holds no pool. *)
Lemma close_without_pool (m : Connection.State) (r : nat)
    (a : Connection.Attrs) :
  Connection.attrs (nth r (Connection.objects m) Connection.blank) = Some a ->
  Connection._pool a = None ->
  Connection.close close_raises r m = (Ok tt, m).
Proof.
  intros Hattrs Hpool.
  unfold Connection.close, Connection.read_attrs, Connection.read, bind, ret.
  fold Connection.blank. now rewrite Hattrs, Hpool.
Qed.

Lemma fresh_after_reset (m : Connection.State) (c : Connection.DatabaseConfig) :
  Connection.starts_fresh (closed_and_reset m c).
Proof. right. split; reflexivity. Qed.

(** X18.  One facade through its life cycle.  [connect()] builds the
    pool once, and a second [connect()] changes nothing.
    [disconnect()] closes that pool exactly once, although it calls both
    [close()] and [reset()], never raises even when closing the pool
    does, and leaves the facade without a manager and the singleton
    cleared; a second [disconnect()] changes nothing.  A further
    [connect()] then builds a new pool from the facade's own
    configuration. *)
Theorem connect_disconnect_cycle
    (s0 : State) (d : nat) (c : Connection.DatabaseConfig)
    (Hobj : nth_error (objects s0) d = Some (mkDatabase c None))
    (Hnone : Connection._instance (manager s0) = None)
    (Hclass : Connection._initialized (manager s0) = false)
    (Hc : open_pool c = Connection.PoolReady) :
  let p := Connection.next_pool (manager s0) in
  exists s1 s2 s3,
    connect open_pool close_raises d s0 = (Ok tt, s1)
    /\ connect open_pool close_raises d s1 = (Ok tt, s1)
    /\ Connection.events (manager s1)
       = Connection.events (manager s0)
         ++ [Connection.PoolOpened p c; Connection.PoolWaited p]
    /\ disconnect close_raises d s1 = (Ok tt, s2)
    /\ disconnect close_raises d s2 = (Ok tt, s2)
    /\ Connection.events (manager s2)
       = Connection.events (manager s1) ++ [Connection.PoolClosed p]
    /\ Connection._instance (manager s2) = None
    /\ nth_error (objects s2) d = Some (mkDatabase c None)
    /\ connect open_pool close_raises d s2 = (Ok tt, s3)
    /\ Connection.events (manager s3)
       = Connection.events (manager s2)
         ++ [Connection.PoolOpened (S p) c; Connection.PoolWaited (S p)].
Proof.
  intros p.
  set (m0 := manager s0) in *.
  set (r := length (Connection.objects m0)).
  assert (Hfresh : Connection.starts_fresh m0) by (right; auto).
  pose proof (ConnectionFacts.get_pool_creates open_pool close_raises
                m0 c Hfresh Hc) as Hget.
  pose proof (connect_run s0 d c _ _ Hobj Hget) as H1.
  set (s1 := mkState (Connection.created m0 c)
                     (set_nth d (mkDatabase c (Some r)) (objects s0))
                     (_instance s0) (calls s0)) in *.
  assert (Hobj1 : nth_error (objects s1) d = Some (mkDatabase c (Some r))).
  { unfold s1. cbn [objects]. eapply nth_error_set_nth_same, Hobj. }
  destruct (close_created m0 c) as [Hclose Hreset].
  pose proof (disconnect_run s1 d c r _ _ Hobj1 Hclose Hreset) as H2.
  set (s2 := mkState (closed_and_reset m0 c)
                     (set_nth d (mkDatabase c None) (objects s1))
                     (_instance s1) (calls s1)) in *.
  assert (Hobj2 : nth_error (objects s2) d = Some (mkDatabase c None)).
  { unfold s2. cbn [objects]. eapply nth_error_set_nth_same, Hobj1. }
  pose proof (ConnectionFacts.get_pool_creates open_pool close_raises
                (closed_and_reset m0 c) c (fresh_after_reset m0 c) Hc)
    as Hget2.
  pose proof (connect_run s2 d c _ _ Hobj2 Hget2) as H3.
  eexists s1, s2, _.
  split; [ exact H1 | ].
  split; [ exact (connect_idle s1 d _ r Hobj1 eq_refl) | ].
  split; [ reflexivity | ].
  split; [ exact H2 | ].
  split; [ exact (disconnect_idle s2 d c Hobj2) | ].
  split; [ unfold s2, s1, closed_and_reset, Connection.created;
           cbn [manager Connection.events]; rewrite <- app_assoc;
           reflexivity | ].
  split; [ reflexivity | ].
  split; [ exact Hobj2 | ].
  split; [ exact H3 | ].
  reflexivity.
Qed.

(** X19.  Two facades in one process share the pool manager: the second
    [connect()] opens no pool and its configuration is ignored.  When
    the first facade disconnects, the second still holds the manager,
    now without a pool: its [pool] property returns that manager
    without reconnecting, the manager's pool raises
    [DatabaseConnectionError], and [connect()] on the second facade does
    nothing. *)
Theorem facades_share_the_manager
    (s0 : State) (d1 d2 : nat) (c1 c2 : Connection.DatabaseConfig)
    (Hd : d1 <> d2)
    (Hobj1 : nth_error (objects s0) d1 = Some (mkDatabase c1 None))
    (Hobj2 : nth_error (objects s0) d2 = Some (mkDatabase c2 None))
    (Hnone : Connection._instance (manager s0) = None)
    (Hclass : Connection._initialized (manager s0) = false)
    (Hc1 : open_pool c1 = Connection.PoolReady) :
  let r := length (Connection.objects (manager s0)) in
  let p := Connection.next_pool (manager s0) in
  exists s1 s2 s3,
    connect open_pool close_raises d1 s0 = (Ok tt, s1)
    /\ connect open_pool close_raises d2 s1 = (Ok tt, s2)
    /\ manager s2 = manager s1
    /\ nth_error (objects s2) d1 = Some (mkDatabase c1 (Some r))
    /\ nth_error (objects s2) d2 = Some (mkDatabase c2 (Some r))
    /\ lift (Connection.pool r) s2 = (Ok p, s2)
    /\ disconnect close_raises d1 s2 = (Ok tt, s3)
    /\ pool open_pool close_raises d2 s3 = (Ok (Some r), s3)
    /\ lift (Connection.pool r) s3 = (Raise not_initialized, s3)
    /\ connect open_pool close_raises d2 s3 = (Ok tt, s3).
Proof.
  intros r p.
  set (m0 := manager s0) in *.
  assert (Hfresh : Connection.starts_fresh m0) by (right; auto).
  pose proof (ConnectionFacts.get_pool_creates open_pool close_raises
                m0 c1 Hfresh Hc1) as Hget.
  pose proof (connect_run s0 d1 c1 _ _ Hobj1 Hget) as H1.
  set (s1 := mkState (Connection.created m0 c1)
                     (set_nth d1 (mkDatabase c1 (Some r)) (objects s0))
                     (_instance s0) (calls s0)) in *.
  assert (Hobj11 : nth_error (objects s1) d1 = Some (mkDatabase c1 (Some r))).
  { unfold s1. cbn [objects]. eapply nth_error_set_nth_same, Hobj1. }
  assert (Hobj12 : nth_error (objects s1) d2 = Some (mkDatabase c2 None)).
  { unfold s1. cbn [objects]. now rewrite nth_error_set_nth_other. }
  assert (Hagain : Connection.get_pool open_pool close_raises (Some c2)
                                       (manager s1)
                   = (Ok r, manager s1)).
  { apply ConnectionFacts.get_pool_again; [ reflexivity | reflexivity | ].
    unfold s1, Connection.created. cbn [manager Connection.objects].
    unfold r. now rewrite ConnectionFacts.nth_last. }
  pose proof (connect_run s1 d2 c2 _ _ Hobj12 Hagain) as H2.
  set (s2 := mkState (manager s1)
                     (set_nth d2 (mkDatabase c2 (Some r)) (objects s1))
                     (_instance s1) (calls s1)) in *.
  assert (Hobj21 : nth_error (objects s2) d1 = Some (mkDatabase c1 (Some r))).
  { unfold s2. cbn [objects].
    rewrite nth_error_set_nth_other by congruence. exact Hobj11. }
  assert (Hobj22 : nth_error (objects s2) d2 = Some (mkDatabase c2 (Some r))).
  { unfold s2. cbn [objects]. eapply nth_error_set_nth_same, Hobj12. }
  destruct (close_created m0 c1) as [Hclose Hreset].
  pose proof (disconnect_run s2 d1 c1 r _ _ Hobj21 Hclose Hreset) as H3.
  set (s3 := mkState (closed_and_reset m0 c1)
                     (set_nth d1 (mkDatabase c1 None) (objects s2))
                     (_instance s2) (calls s2)) in *.
  assert (Hobj32 : nth_error (objects s3) d2 = Some (mkDatabase c2 (Some r))).
  { unfold s3. cbn [objects]. now rewrite nth_error_set_nth_other. }
  exists s1, s2, s3.
  split; [ exact H1 | ]. split; [ exact H2 | ]. split; [ reflexivity | ].
  split; [ exact Hobj21 | ]. split; [ exact Hobj22 | ].
  split.
  { apply (lift_run (Connection.pool r) s2).
    exact (ConnectionFacts.pool_of_created m0 c1). }
  split; [ exact H3 | ].
  split.
  { unfold pool.
    rewrite (bind_ok _ _ _ _ _ (read_run s3 d2 _ Hobj32)). cbn [_pool].
    unfold bind at 1. cbn [ret].
    now rewrite (bind_ok _ _ _ _ _ (read_run s3 d2 _ Hobj32)). }
  split.
  { apply (lift_run (Connection.pool r) s3).
    unfold Connection.pool, Connection.read_attrs, Connection.read, bind, ret,
      raise, not_initialized, s3, closed_and_reset.
    cbn [manager Connection.objects]. unfold r.
    now rewrite ConnectionFacts.nth_last. }
  exact (connect_idle s3 d2 _ r Hobj32 eq_refl).
Qed.

(** X20.  A facade that kept the manager of a pool closed by another
    facade harms the other when it disconnects.  After both connected,
    the first disconnected and connected again (a new manager with a
    new pool), [disconnect()] on the second closes the pool of the
    first: [reset()] acts on whatever manager is the singleton.  The
    first facade still holds its manager, whose pool now raises
    [DatabaseConnectionError]. *)
Theorem stale_disconnect_closes_the_other_pool
    (s0 : State) (d1 d2 : nat) (c1 c2 : Connection.DatabaseConfig)
    (Hd : d1 <> d2)
    (Hobj1 : nth_error (objects s0) d1 = Some (mkDatabase c1 None))
    (Hobj2 : nth_error (objects s0) d2 = Some (mkDatabase c2 None))
    (Hnone : Connection._instance (manager s0) = None)
    (Hclass : Connection._initialized (manager s0) = false)
    (Hc1 : open_pool c1 = Connection.PoolReady) :
  let r' := S (length (Connection.objects (manager s0))) in
  let p' := S (Connection.next_pool (manager s0)) in
  exists s4 s5,
    (connect open_pool close_raises d1 ;;;
     connect open_pool close_raises d2 ;;;
     disconnect close_raises d1 ;;;
     connect open_pool close_raises d1) s0 = (Ok tt, s4)
    /\ nth_error (objects s4) d1 = Some (mkDatabase c1 (Some r'))
    /\ lift (Connection.pool r') s4 = (Ok p', s4)
    /\ disconnect close_raises d2 s4 = (Ok tt, s5)
    /\ Connection.events (manager s5)
       = Connection.events (manager s4) ++ [Connection.PoolClosed p']
    /\ nth_error (objects s5) d1 = Some (mkDatabase c1 (Some r'))
    /\ lift (Connection.pool r') s5 = (Raise not_initialized, s5).
Proof.
  intros r' p'.
  set (m0 := manager s0) in *.
  set (r := length (Connection.objects m0)).
  assert (Hfresh : Connection.starts_fresh m0) by (right; auto).
  pose proof (ConnectionFacts.get_pool_creates open_pool close_raises
                m0 c1 Hfresh Hc1) as Hget.
  pose proof (connect_run s0 d1 c1 _ _ Hobj1 Hget) as H1.
  set (s1 := mkState (Connection.created m0 c1)
                     (set_nth d1 (mkDatabase c1 (Some r)) (objects s0))
                     (_instance s0) (calls s0)) in *.
  assert (Hobj11 : nth_error (objects s1) d1 = Some (mkDatabase c1 (Some r))).
  { unfold s1. cbn [objects]. eapply nth_error_set_nth_same, Hobj1. }
  assert (Hobj12 : nth_error (objects s1) d2 = Some (mkDatabase c2 None)).
  { unfold s1. cbn [objects]. now rewrite nth_error_set_nth_other. }
  assert (Hagain : Connection.get_pool open_pool close_raises (Some c2)
                                       (manager s1)
                   = (Ok r, manager s1)).
  { apply ConnectionFacts.get_pool_again; [ reflexivity | reflexivity | ].
    unfold s1, Connection.created. cbn [manager Connection.objects].
    unfold r. now rewrite ConnectionFacts.nth_last. }
  pose proof (connect_run s1 d2 c2 _ _ Hobj12 Hagain) as H2.
  set (s2 := mkState (manager s1)
                     (set_nth d2 (mkDatabase c2 (Some r)) (objects s1))
                     (_instance s1) (calls s1)) in *.
  assert (Hobj21 : nth_error (objects s2) d1 = Some (mkDatabase c1 (Some r))).
  { unfold s2. cbn [objects].
    rewrite nth_error_set_nth_other by congruence. exact Hobj11. }
  assert (Hobj22 : nth_error (objects s2) d2 = Some (mkDatabase c2 (Some r))).
  { unfold s2. cbn [objects]. eapply nth_error_set_nth_same, Hobj12. }
  destruct (close_created m0 c1) as [Hclose Hreset].
  pose proof (disconnect_run s2 d1 c1 r _ _ Hobj21 Hclose Hreset) as H3.
  set (m3 := closed_and_reset m0 c1) in *.
  set (s3 := mkState m3 (set_nth d1 (mkDatabase c1 None) (objects s2))
                     (_instance s2) (calls s2)) in *.
  assert (Hobj31 : nth_error (objects s3) d1 = Some (mkDatabase c1 None)).
  { unfold s3. cbn [objects]. eapply nth_error_set_nth_same, Hobj21. }
  assert (Hobj32 : nth_error (objects s3) d2 = Some (mkDatabase c2 (Some r))).
  { unfold s3. cbn [objects]. now rewrite nth_error_set_nth_other. }
  assert (Hlen3 : length (Connection.objects m3) = r').
  { unfold m3, closed_and_reset, r'. cbn [Connection.objects].
    rewrite length_app. cbn. fold m0. lia. }
  pose proof (ConnectionFacts.get_pool_creates open_pool close_raises
                m3 c1 (fresh_after_reset m0 c1) Hc1) as Hget3.
  rewrite Hlen3 in Hget3.
  pose proof (connect_run s3 d1 c1 _ _ Hobj31 Hget3) as H4.
  set (s4 := mkState (Connection.created m3 c1)
                     (set_nth d1 (mkDatabase c1 (Some r')) (objects s3))
                     (_instance s3) (calls s3)) in *.
  assert (Hobj41 : nth_error (objects s4) d1 = Some (mkDatabase c1 (Some r'))).
  { unfold s4. cbn [objects]. eapply nth_error_set_nth_same, Hobj31. }
  assert (Hobj42 : nth_error (objects s4) d2 = Some (mkDatabase c2 (Some r))).
  { unfold s4. cbn [objects]. now rewrite nth_error_set_nth_other. }
  assert (Hstale : Connection.close close_raises r (Connection.created m3 c1)
                   = (Ok tt, Connection.created m3 c1)).
  { apply (close_without_pool _ r (Connection.mkAttrs c1 None true));
      [ | reflexivity ].
    unfold Connection.created. cbn [Connection.objects].
    rewrite app_nth1.
    - unfold m3, closed_and_reset. cbn [Connection.objects].
      unfold r. now rewrite ConnectionFacts.nth_last.
    - rewrite Hlen3. unfold r', r. lia. }
  pose proof (ConnectionMore.reset_created close_raises m3 c1) as Hreset4.
  pose proof (disconnect_run s4 d2 c2 r _ _ Hobj42 Hstale Hreset4) as H5.
  eexists s4, _.
  split.
  { rewrite (bind_ok _ _ _ _ _ H1), (bind_ok _ _ _ _ _ H2),
      (bind_ok _ _ _ _ _ H3). exact H4. }
  split; [ exact Hobj41 | ].
  split.
  { apply (lift_run (Connection.pool r') s4). rewrite <- Hlen3.
    exact (ConnectionFacts.pool_of_created m3 c1). }
  split; [ exact H5 | ].
  split.
  { unfold s4, Connection.created. cbn [manager Connection.events].
    rewrite <- app_assoc. reflexivity. }
  split.
  { cbn [objects]. rewrite nth_error_set_nth_other by congruence.
    exact Hobj41. }
  match goal with
  | |- lift _ ?s5 = _ => apply (lift_run (Connection.pool r') s5)
  end.
  unfold Connection.pool, Connection.read_attrs, Connection.read, bind, ret,
    raise, not_initialized.
  cbn [manager Connection.objects]. rewrite <- Hlen3.
  now rewrite ConnectionFacts.nth_last.
Qed.

End LifecycleFacts.

Section SingletonFacts.

Context (open_pool : Connection.DatabaseConfig -> Connection.PoolOutcome).
Context (close_raises : nat -> option Exc).
Context (from_env : Result Connection.DatabaseConfig).
Context (setup : SetupCall -> option Exc).

Lemma connect_keeps_instance (s : State) (d : nat) :
  _instance (snd (connect open_pool close_raises d s)) = _instance s.
Proof.
  unfold connect, read, write, lift, bind, ret.
  destruct (nth_error (objects s) d) as [o |]; [ | reflexivity ].
  destruct (_pool o); [ reflexivity | ].
  destruct (Connection.get_pool open_pool close_raises (Some (_config o))
                                (manager s)) as [[r | e] m]; reflexivity.
Qed.

(** [init] from the connection on: the facade is stored exactly when
    the connection succeeds. *)
Lemma store_after_connect (s : State) (d : nat) :
  _instance s = None ->
  let out := (connect open_pool close_raises d ;;;
              set_instance (Some d) ;;; ret d) s in
  match fst out with
  | Ok d' => _instance (snd out) = Some d'
  | Raise _ =>
      _instance (snd out) = None
      /\ get_instance (snd out) = (Raise database_not_initialized, snd out)
  end.
Proof.
  intros Hnone. cbv zeta.
  pose proof (connect_keeps_instance s d) as Hkeep.
  unfold bind.
  destruct (connect open_pool close_raises d s) as [[[] | e] s3];
    cbn [snd] in Hkeep.
  - reflexivity.
  - cbn [fst snd]. rewrite Hkeep, Hnone. split; [ reflexivity | ].
    unfold get_instance, bind, get. now rewrite Hkeep, Hnone.
Qed.

(** The part of [init] that runs when no instance is stored. *)
Lemma init_run (s : State) (c : Connection.DatabaseConfig)
    (config : option Connection.DatabaseConfig)
    (schema_path schema_sql : option string) (auto_setup interactive : bool) :
  _instance s = None ->
  or_from_env from_env config s = (Ok c, s) ->
  let s1 := mkState (manager s) (objects s) None
                    (calls s
                     ++ option_list (setup_call c schema_path schema_sql
                                                auto_setup interactive)) in
  let d := length (objects s) in
  let s2 := mkState (manager s) (objects s ++ [mkDatabase c None]) None
                    (calls s1) in
  init open_pool close_raises from_env setup config schema_path schema_sql
       auto_setup interactive s
  = match setup_call c schema_path schema_sql auto_setup interactive with
    | Some call =>
        match setup call with
        | Some e => (Raise e, s1)
        | None =>
            (connect open_pool close_raises d ;;;
             set_instance (Some d) ;;; ret d) s2
        end
    | None =>
        (connect open_pool close_raises d ;;;
         set_instance (Some d) ;;; ret d) s2
    end.
Proof.
  intros Hnone Hconfig. cbv zeta. unfold init.
  unfold bind at 1. cbn [get]. rewrite Hnone.
  rewrite (bind_ok _ _ _ _ _ Hconfig).
  assert (Hs : s = mkState (manager s) (objects s) None (calls s)).
  { destruct s as [m o i k]. cbn in *. now subst i. }
  unfold setup_call.
  destruct auto_setup;
    [ | destruct (is_some schema_path || is_some schema_sql) ].
  - unfold bind at 1, call_setup. rewrite Hnone.
    destruct (setup (EnsureDatabase c schema_path schema_sql interactive));
      [ reflexivity | ].
    unfold bind at 1, __init__. unfold bind at 1. cbn [or_from_env ret].
    reflexivity.
  - unfold bind at 1, call_setup. rewrite Hnone.
    destruct (setup (InitSchema c schema_path schema_sql));
      [ reflexivity | ].
    unfold bind at 1, __init__. unfold bind at 1. cbn [or_from_env ret].
    reflexivity.
  - unfold bind at 1. cbn [ret].
    unfold bind at 1, __init__. unfold bind at 1. cbn [or_from_env ret].
    cbn [option_list]. rewrite app_nil_r, Hnone. reflexivity.
Qed.

(** X21.  The singleton of the facade.  Before [init()],
    [get_instance()] raises [DatabaseConnectionError].  An [init()]
    whose setup helper returns and whose pool comes up calls at most
    one helper of setup.py, the one its arguments select, allocates one
    facade, connects it and stores it; [get_instance()] then returns
    it.  Any later [init()], whatever its arguments, returns that same
    facade and does nothing else: no setup, no new pool. *)
Theorem init_stores_the_singleton
    (s0 : State) (c : Connection.DatabaseConfig)
    (config : option Connection.DatabaseConfig)
    (schema_path schema_sql : option string) (auto_setup interactive : bool)
    (Hnone : _instance s0 = None)
    (Hmanager : Connection.starts_fresh (manager s0))
    (Hconfig : or_from_env from_env config s0 = (Ok c, s0))
    (Hsetup : forall call, setup call = None)
    (Hc : open_pool c = Connection.PoolReady) :
  let d := length (objects s0) in
  let r := length (Connection.objects (manager s0)) in
  exists s1,
    get_instance s0 = (Raise database_not_initialized, s0)
    /\ init open_pool close_raises from_env setup config schema_path
            schema_sql auto_setup interactive s0 = (Ok d, s1)
    /\ get_instance s1 = (Ok d, s1)
    /\ nth_error (objects s1) d = Some (mkDatabase c (Some r))
    /\ manager s1 = Connection.created (manager s0) c
    /\ calls s1
       = calls s0
         ++ option_list (setup_call c schema_path schema_sql auto_setup
                                    interactive)
    /\ (forall config' schema_path' schema_sql' auto_setup' interactive',
          init open_pool close_raises from_env setup config' schema_path'
               schema_sql' auto_setup' interactive' s1 = (Ok d, s1)).
Proof.
  intros d r.
  set (k := calls s0
            ++ option_list (setup_call c schema_path schema_sql auto_setup
                                       interactive)).
  set (s2 := mkState (manager s0) (objects s0 ++ [mkDatabase c None]) None k).
  assert (Hobj : nth_error (objects s2) d = Some (mkDatabase c None)).
  { unfold s2, d. cbn [objects]. rewrite nth_error_app2 by lia.
    now rewrite Nat.sub_diag. }
  pose proof (ConnectionFacts.get_pool_creates open_pool close_raises
                (manager s0) c Hmanager Hc) as Hget.
  pose proof (connect_run open_pool close_raises s2 d c _ _ Hobj Hget) as Hcon.
  cbn [manager objects _instance calls] in Hcon.
  set (objs := set_nth d (mkDatabase c (Some r))
                       (objects s0 ++ [mkDatabase c None])) in *.
  exists (mkState (Connection.created (manager s0) c) objs (Some d) k).
  split; [ unfold get_instance, bind, get; now rewrite Hnone | ].
  split.
  { rewrite (init_run s0 c config schema_path schema_sql auto_setup
                      interactive Hnone Hconfig).
    cbv zeta. fold k. fold s2.
    assert (Hrest : (connect open_pool close_raises d ;;;
                     set_instance (Some d) ;;; ret d) s2
                    = (Ok d, mkState (Connection.created (manager s0) c) objs
                                     (Some d) k)).
    { rewrite (bind_ok _ _ _ _ _ Hcon). reflexivity. }
    destruct (setup_call c schema_path schema_sql auto_setup interactive)
      as [call |]; [ rewrite Hsetup | ]; exact Hrest. }
  split; [ reflexivity | ].
  split.
  { cbn [objects]. unfold objs. eapply nth_error_set_nth_same.
    exact Hobj. }
  split; [ reflexivity | ]. split; [ reflexivity | ].
  reflexivity.
Qed.

(** X22.  [init()] stores a facade exactly when it returns one.  From a
    state without instance, an [init()] that raises, in the
    configuration, in setup.py or while connecting, leaves
    [Database._instance] empty, so that [get_instance()] keeps raising
    and a later [init()] starts over; when a helper of setup.py raises,
    its error comes out unchanged and neither a facade nor a pool was
    created. *)
Theorem failed_init_stores_nothing
    (s : State) (c : Connection.DatabaseConfig)
    (config : option Connection.DatabaseConfig)
    (schema_path schema_sql : option string) (auto_setup interactive : bool)
    (Hnone : _instance s = None) :
  let out := init open_pool close_raises from_env setup config schema_path
                  schema_sql auto_setup interactive s in
  match fst out with
  | Ok d => _instance (snd out) = Some d
  | Raise _ =>
      _instance (snd out) = None
      /\ get_instance (snd out) = (Raise database_not_initialized, snd out)
  end
  /\ (forall call e,
        or_from_env from_env config s = (Ok c, s) ->
        setup_call c schema_path schema_sql auto_setup interactive = Some call ->
        setup call = Some e ->
        out = (Raise e,
               mkState (manager s) (objects s) None (calls s ++ [call]))).
Proof.
  cbv zeta.
  assert (Hraise : forall s' : State,
             _instance s' = None ->
             _instance s' = None
             /\ get_instance s' = (Raise database_not_initialized, s')).
  { intros s' H. split; [ exact H | ].
    unfold get_instance, bind, get. now rewrite H. }
  split.
  - destruct (or_from_env from_env config s) as [[c0 | e] s'] eqn:Hconfig.
    + assert (Hs' : s' = s).
      { unfold or_from_env in Hconfig. destruct config as [c1 |];
          [ now inversion Hconfig | ].
        destruct from_env; now inversion Hconfig. }
      subst s'.
      rewrite (init_run s c0 config schema_path schema_sql auto_setup
                        interactive Hnone Hconfig).
      cbv zeta.
      set (s2 := mkState (manager s) (objects s ++ [mkDatabase c0 None]) None _).
      pose proof (store_after_connect s2 (length (objects s)) eq_refl)
        as Hrest.
      cbv zeta in Hrest.
      destruct (setup_call c0 schema_path schema_sql auto_setup interactive)
        as [call |]; [ | exact Hrest ].
      destruct (setup call); [ | exact Hrest ].
      cbn [fst snd]. now apply Hraise.
    + assert (Hinit : init open_pool close_raises from_env setup config
                           schema_path schema_sql auto_setup interactive s
                      = (Raise e, s')).
      { unfold init. unfold bind at 1. cbn [get]. rewrite Hnone.
        apply bind_raise. exact Hconfig. }
      rewrite Hinit. cbn [fst snd]. apply Hraise.
      unfold or_from_env in Hconfig. destruct config as [c1 |];
        [ discriminate Hconfig | ].
      destruct from_env; cbv [ret raise] in Hconfig; inversion Hconfig;
        subst; exact Hnone.
  - intros call e Hconfig Hcall Hfails.
    rewrite (init_run s c config schema_path schema_sql auto_setup
                      interactive Hnone Hconfig).
    cbv zeta. rewrite Hcall, Hfails. reflexivity.
Qed.

(** X23.  [reset_instance()] never raises, whatever [disconnect()]
    does, and always leaves [Database._instance] empty: the next
    [get_instance()] raises until [init()] is called again.  Without a
    stored instance it changes nothing. *)
Theorem reset_instance_never_raises (s : State) :
  exists s',
    reset_instance close_raises s = (Ok tt, s')
    /\ _instance s' = None
    /\ get_instance s' = (Raise database_not_initialized, s')
    /\ calls s' = calls s
    /\ (_instance s = None -> s' = s).
Proof.
  unfold reset_instance. unfold bind at 1. cbn [get].
  destruct (_instance s) as [d |] eqn:Hinst.
  - unfold bind, suppress, try_except, set_instance, ret.
    assert (Hcalls : calls (snd (disconnect close_raises d s)) = calls s).
    { unfold disconnect, read, write, lift, bind, ret.
      destruct (nth_error (objects s) d) as [o |]; [ | reflexivity ].
      destruct (_pool o) as [r |]; [ | reflexivity ].
      destruct (Connection.close close_raises r (manager s)) as [[[] | e] m1];
        [ | reflexivity ].
      cbn [manager objects _instance calls].
      destruct (Connection.reset close_raises m1) as [[[] | e] m2];
        reflexivity. }
    destruct (disconnect close_raises d s) as [[[] | e] s1];
      cbn [snd] in Hcalls;
      (eexists; split; [ reflexivity | ]; split; [ reflexivity | ];
       split; [ reflexivity | ]; split; [ exact Hcalls | discriminate ]).
  - exists s. split; [ reflexivity | ]. split; [ exact Hinst | ].
    split; [ unfold get_instance, bind, get; now rewrite Hinst | ].
    split; reflexivity.
Qed.

End SingletonFacts.

End FacadeFacts.

(** One facade: connect, disconnect, connect again. *)
Lemma connect_disconnect_cycle_witness :
  exists s1 s2 s3,
    DatabaseFacade.connect Connection.always_ready Connection.quiet_close 0
                           DatabaseFacade.two_facades = (Ok tt, s1)
    /\ DatabaseFacade.disconnect Connection.quiet_close 0 s1 = (Ok tt, s2)
    /\ Connection.events (DatabaseFacade.manager s2)
       = Connection.events (DatabaseFacade.manager s1)
         ++ [Connection.PoolClosed 0]
    /\ DatabaseFacade.connect Connection.always_ready Connection.quiet_close 0
                              s2 = (Ok tt, s3)
    /\ Connection.events (DatabaseFacade.manager s3)
       = Connection.events (DatabaseFacade.manager s2)
         ++ [Connection.PoolOpened 1 Connection.config1;
             Connection.PoolWaited 1].
Proof.
  destruct (FacadeFacts.connect_disconnect_cycle
              Connection.always_ready Connection.quiet_close
              DatabaseFacade.two_facades 0%nat Connection.config1
              eq_refl eq_refl eq_refl eq_refl)
    as (s1 & s2 & s3 & H1 & _ & _ & H2 & _ & He2 & _ & _ & H3 & He3).
  exists s1, s2, s3. repeat split; assumption.
Defined.

(** Two facades with different configurations. *)
Lemma facades_share_the_manager_witness :
  exists s1 s2 s3,
    DatabaseFacade.connect Connection.always_ready Connection.quiet_close 0
                           DatabaseFacade.two_facades = (Ok tt, s1)
    /\ DatabaseFacade.connect Connection.always_ready Connection.quiet_close 1
                              s1 = (Ok tt, s2)
    /\ DatabaseFacade.manager s2 = DatabaseFacade.manager s1
    /\ DatabaseFacade.disconnect Connection.quiet_close 0 s2 = (Ok tt, s3)
    /\ DatabaseFacade.lift (Connection.pool 0) s3 = (Raise not_initialized, s3)
    /\ DatabaseFacade.connect Connection.always_ready Connection.quiet_close 1
                              s3 = (Ok tt, s3).
Proof.
  destruct (FacadeFacts.facades_share_the_manager
              Connection.always_ready Connection.quiet_close
              DatabaseFacade.two_facades 0%nat 1%nat
              Connection.config1 Connection.config2
              (Nat.neq_0_succ 0) eq_refl eq_refl eq_refl eq_refl eq_refl)
    as (s1 & s2 & s3 & H1 & H2 & Hm & _ & _ & _ & H3 & _ & Hp & H4).
  exists s1, s2, s3. repeat split; assumption.
Defined.

(** The second facade disconnects after the first has reconnected. *)
Lemma stale_disconnect_closes_the_other_pool_witness :
  exists s4 s5,
    (DatabaseFacade.connect Connection.always_ready Connection.quiet_close 0 ;;;
     DatabaseFacade.connect Connection.always_ready Connection.quiet_close 1 ;;;
     DatabaseFacade.disconnect Connection.quiet_close 0 ;;;
     DatabaseFacade.connect Connection.always_ready Connection.quiet_close 0)
      DatabaseFacade.two_facades = (Ok tt, s4)
    /\ DatabaseFacade.lift (Connection.pool 1) s4 = (Ok 1%nat, s4)
    /\ DatabaseFacade.disconnect Connection.quiet_close 1 s4 = (Ok tt, s5)
    /\ DatabaseFacade.lift (Connection.pool 1) s5 = (Raise not_initialized, s5).
Proof.
  destruct (FacadeFacts.stale_disconnect_closes_the_other_pool
              Connection.always_ready Connection.quiet_close
              DatabaseFacade.two_facades 0%nat 1%nat
              Connection.config1 Connection.config2
              (Nat.neq_0_succ 0) eq_refl eq_refl eq_refl eq_refl eq_refl)
    as (s4 & s5 & H4 & _ & Hp & H5 & _ & _ & Hq).
  exists s4, s5. repeat split; assumption.
Defined.

(** [Database.init(config)] in a new process, then once more with
    another configuration. *)
Lemma init_stores_the_singleton_witness :
  exists s1,
    DatabaseFacade.init Connection.always_ready Connection.quiet_close
                        (Raise (PyException "invalid literal for int()"))
                        DatabaseFacade.setup_succeeds
                        (Some Connection.config1) None None true false
                        (DatabaseFacade.initial_state 100) = (Ok 0%nat, s1)
    /\ DatabaseFacade.get_instance s1 = (Ok 0%nat, s1)
    /\ DatabaseFacade.init Connection.always_ready Connection.quiet_close
                           (Raise (PyException "invalid literal for int()"))
                           DatabaseFacade.setup_succeeds
                           (Some Connection.config2) None None false true s1
       = (Ok 0%nat, s1).
Proof.
  destruct (FacadeFacts.init_stores_the_singleton
              Connection.always_ready Connection.quiet_close
              (Raise (PyException "invalid literal for int()"))
              DatabaseFacade.setup_succeeds
              (DatabaseFacade.initial_state 100) Connection.config1
              (Some Connection.config1) None None true false
              eq_refl (or_intror (conj eq_refl eq_refl)) eq_refl
              (fun _ => eq_refl) eq_refl)
    as (s1 & _ & H1 & H2 & _ & _ & _ & H3).
  exists s1. repeat split; [ exact H1 | exact H2 | ].
  exact (H3 (Some Connection.config2) None None false true).
Defined.

(** [Database.init(config)] when the setup of the database fails. *)
Lemma failed_init_stores_nothing_witness :
  DatabaseFacade.init Connection.always_ready Connection.quiet_close
                      (Ok Connection.config2) DatabaseFacade.setup_fails
                      (Some Connection.config1) None None true false
                      (DatabaseFacade.initial_state 100)
  = (Raise (DatabaseConnectionError "Database setup failed" None),
     DatabaseFacade.mkState
       (Connection.initial_state 100) [] None
       [DatabaseFacade.EnsureDatabase Connection.config1 None None false]).
Proof.
  exact (proj2 (FacadeFacts.failed_init_stores_nothing
                  Connection.always_ready Connection.quiet_close
                  (Ok Connection.config2) DatabaseFacade.setup_fails
                  (DatabaseFacade.initial_state 100) Connection.config1
                  (Some Connection.config1) None None true false eq_refl)
               (DatabaseFacade.EnsureDatabase Connection.config1 None None false)
               (DatabaseConnectionError "Database setup failed" None)
               eq_refl eq_refl eq_refl).
Defined.


(** * Properties of the look-ups *)

Section LookupFacts.

Context {DB : Type} (oracle : Oracle DB).

(** A look-up through [fetch_value]: one statement, and the answer of
    the database read off the first column. *)
Lemma fetch_value_run (s : Statement) (w : World DB) :
  fetch_value oracle s w
  = (match fst (on_fetch_tuple oracle s (db w)) with
     | Ok row => Ok (first_column row)
     | Raise e => Raise e
     end,
     mkWorld (snd (on_fetch_tuple oracle s (db w)))
             (log w ++ [EvFetchValue s])).
Proof.
  unfold fetch_value, bind, call, ret, first_column.
  destruct (on_fetch_tuple oracle s (db w)) as [[[[| v rest] |] | e] d];
    reflexivity.
Qed.

(** X24.  [health_check()] never raises.  It sends the one statement
    [SELECT 1], without parameters, and answers [True] exactly when the
    database returned a row whose first column equals 1; an error of
    the database, no row, an empty row or any other value give
    [False]. *)
Theorem health_check_never_raises (w : World DB) :
  let probe := text_stmt "SELECT 1" None in
  let answer := on_fetch_tuple oracle probe (db w) in
  exists healthy,
    health_check oracle w
    = (Ok healthy, mkWorld (snd answer) (log w ++ [EvFetchValue probe]))
    /\ (healthy = true <->
        exists v rest,
          fst answer = Ok (Some (v :: rest)) /\ (v = VInt 1 \/ v = VBool true)).
Proof.
  cbv zeta. unfold health_check, try_except, bind.
  rewrite fetch_value_run.
  destruct (on_fetch_tuple oracle (text_stmt "SELECT 1" None) (db w))
    as [[row | e] d]; cbn [fst snd ret].
  - exists (equals_one (first_column row)). split; [ reflexivity | ].
    split.
    + intros H. destruct row as [[| v rest] |]; try discriminate H.
      exists v, rest. split; [ reflexivity | ].
      cbn [first_column] in H. destruct v as [| [|] | n | t];
        try discriminate H; [ now right | ].
      left. cbn [equals_one] in H. apply Z.eqb_eq in H. now subst.
    + intros (v & rest & Hrow & [-> | ->]); inversion Hrow; reflexivity.
  - exists false. split; [ reflexivity | ].
    split; [ discriminate | ].
    intros (v & rest & Hrow & _). discriminate Hrow.
Qed.

(** X25.  The look-ups [table_exists], [schema_exists] and
    [is_applied] never put their arguments into the text: each sends
    one statement whose text is a constant and whose placeholders are
    as many as its bound arguments, the schema before the table for
    [table_exists].  Each answers by the truth value of the first
    column, [False] without a row, and passes an error of the database
    on as it is. *)
Theorem lookups_bind_their_arguments
    (table_name schema schema_name migration_name : string) (w : World DB) :
  let looks_up (m : M (World DB) bool) (s : Statement) :=
    balanced s
    /\ m w = (match fst (on_fetch_tuple oracle s (db w)) with
              | Ok row => Ok (truthy (first_column row))
              | Raise e => Raise e
              end,
              mkWorld (snd (on_fetch_tuple oracle s (db w)))
                      (log w ++ [EvFetchValue s])) in
  looks_up (table_exists oracle table_name schema)
           (text_stmt table_exists_query (Some [VStr schema; VStr table_name]))
  /\ looks_up (schema_exists oracle schema_name)
              (text_stmt schema_exists_query (Some [VStr schema_name]))
  /\ looks_up (is_applied oracle migration_name)
              (text_stmt is_applied_query (Some [VStr migration_name])).
Proof.
  cbv zeta.
  assert (Hrun : forall (s : Statement),
             (result <- fetch_value oracle s ;; ret (truthy result)) w
             = (match fst (on_fetch_tuple oracle s (db w)) with
                | Ok row => Ok (truthy (first_column row))
                | Raise e => Raise e
                end,
                mkWorld (snd (on_fetch_tuple oracle s (db w)))
                        (log w ++ [EvFetchValue s]))).
  { intros s. unfold bind at 1. rewrite fetch_value_run.
    destruct (on_fetch_tuple oracle s (db w)) as [[row | e] d]; reflexivity. }
  repeat split; try apply Hrun.
Qed.

End LookupFacts.

(** * Properties of the configuration and of the setup *)

Lemma dict_get_set (k k' : string) (v : Value) (d : Dict) :
  dict_get k (dict_set k' v d)
  = if String.eqb k k' then Some v else dict_get k d.
Proof.
  induction d as [| [k0 v0] d IH]; cbn [dict_set dict_get].
  - reflexivity.
  - destruct (String.eqb_spec k' k0) as [-> | Hne]; cbn [dict_get].
    + destruct (String.eqb k k0); reflexivity.
    + rewrite IH. destruct (String.eqb_spec k k0) as [-> | Hne'];
        [ | reflexivity ].
      destruct (String.eqb_spec k0 k'); [ congruence | reflexivity ].
Qed.

Lemma dict_get_remove (k k' : string) (d : Dict) :
  dict_get k (dict_remove k' d)
  = if String.eqb k k' then None else dict_get k d.
Proof.
  unfold dict_remove.
  induction d as [| [k0 v0] d IH]; cbn [filter dict_get fst].
  - now destruct (String.eqb k k').
  - destruct (String.eqb_spec k' k0) as [-> | Hne]; cbn [negb dict_get].
    + rewrite IH. now destruct (String.eqb k k0).
    + rewrite IH. destruct (String.eqb_spec k k0) as [-> | Hne'];
        [ | reflexivity ].
      destruct (String.eqb_spec k0 k'); [ congruence | reflexivity ].
Qed.

Lemma dict_get_none (k : string) (d : Dict) :
  dict_get k d = None <-> ~ In k (dict_keys d).
Proof.
  induction d as [| [k0 v0] d IH]; cbn [dict_get dict_keys map fst In].
  - tauto.
  - destruct (String.eqb_spec k k0) as [-> | Hne].
    + split; [ discriminate | tauto ].
    + rewrite IH. unfold dict_keys.
      split; [ intros H [E | E]; [ congruence | contradiction ] | tauto ].
Qed.

Lemma dict_keys_set (k : string) (v : Value) (d : Dict) :
  dict_keys (dict_set k v d)
  = if dict_mem k d then dict_keys d else dict_keys d ++ [k].
Proof.
  unfold dict_mem.
  induction d as [| [k0 v0] d IH]; cbn [dict_set dict_get dict_keys map fst app].
  - reflexivity.
  - destruct (String.eqb k k0); [ reflexivity | ].
    cbn [map fst]. fold (dict_keys (dict_set k v d)). rewrite IH.
    now destruct (dict_get k d).
Qed.

Lemma dict_mem_set (k k' : string) (v : Value) (d : Dict) :
  dict_mem k (dict_set k' v d) = String.eqb k k' || dict_mem k d.
Proof.
  unfold dict_mem. rewrite dict_get_set. now destruct (String.eqb k k').
Qed.

(** The display that unpacks [other] after the entries [d]. *)
Lemma dict_update_spec (other d : Dict) :
  NoDup (dict_keys other) ->
  (forall k,
      dict_get k (dict_update d other)
      = match dict_get k other with
        | Some v => Some v
        | None => dict_get k d
        end)
  /\ dict_keys (dict_update d other)
     = dict_keys d
       ++ filter (fun k => negb (dict_mem k d)) (dict_keys other).
Proof.
  unfold dict_update. revert d.
  induction other as [| [k0 v0] other IH]; intros d Hnodup.
  - cbn. split; [ reflexivity | now rewrite app_nil_r ].
  - change (dict_keys ((k0, v0) :: other)) with (k0 :: dict_keys other) in *.
    inversion Hnodup as [| ? ? Hnotin Hrest]. subst.
    cbn [fold_left fst snd].
    destruct (IH (dict_set k0 v0 d) Hrest) as [Hget Hkeys].
    split.
    + intros k. rewrite Hget, dict_get_set. cbn [dict_get].
      destruct (String.eqb_spec k k0) as [-> | Hne]; [ | reflexivity ].
      apply dict_get_none in Hnotin. now rewrite Hnotin.
    + rewrite Hkeys, dict_keys_set. cbn [filter].
      assert (Hfilter :
                filter (fun k => negb (dict_mem k (dict_set k0 v0 d)))
                       (dict_keys other)
                = filter (fun k => negb (dict_mem k d)) (dict_keys other)).
      { apply filter_ext_in. intros k Hin. rewrite dict_mem_set.
        destruct (String.eqb_spec k k0) as [-> | Hne];
          [ contradiction | reflexivity ]. }
      rewrite Hfilter.
      destruct (dict_mem k0 d); cbn [negb]; [ reflexivity | ].
      now rewrite <- app_assoc.
Qed.

Module ConfigFacts.

Import Config.

(** X26.  The configurations [_validate] accepts are exactly those with
    a port from 1 to 65535, at least one connection, a maximum not
    below the minimum, a timeout that is not at most zero, and one of
    the six SSL modes; a port out of range is reported before any other
    fault. *)
Theorem validate_accepts_exactly (c : DatabaseConfig) :
  (_validate c = None <->
   1 <= port c <= 65535
   /\ 1 <= min_connections c <= max_connections c
   /\ le_zero (connection_timeout c) = false
   /\ In (sslmode c) valid_sslmodes)
  /\ (port c < 1 \/ 65535 < port c <->
      _validate c = Some ("Invalid port number: " ^^ str_of_Z (port c))).
Proof.
  unfold _validate.
  assert (Hmode : existsb (String.eqb (sslmode c)) valid_sslmodes = true
                  <-> In (sslmode c) valid_sslmodes).
  { rewrite existsb_exists. split.
    - intros (m & Hin & Heq). apply String.eqb_eq in Heq. now subst.
    - intros Hin. exists (sslmode c). split; [ exact Hin | ].
      apply String.eqb_refl. }
  destruct (Z.ltb_spec (port c) 1) as [Hp1 | Hp1]; cbn [orb].
  { split; [ split; [ discriminate | lia ] | ].
    split; [ reflexivity | intros _; now left ]. }
  destruct (Z.gtb_spec (port c) 65535) as [Hp2 | Hp2].
  { split; [ split; [ discriminate | lia ] | ].
    split; [ reflexivity | intros _; now right ]. }
  split.
  2:{ split; [ lia | ].
      destruct (min_connections c <? 1); [ intros H; inversion H | ].
      destruct (max_connections c <? min_connections c);
        [ intros H; inversion H | ].
      destruct (le_zero (connection_timeout c)); [ intros H; inversion H | ].
      destruct (negb (existsb (String.eqb (sslmode c)) valid_sslmodes));
        [ | discriminate ].
      intros H. cbn in H. discriminate H. }
  destruct (Z.ltb_spec (min_connections c) 1) as [Hmin | Hmin].
  { split; [ discriminate | lia ]. }
  destruct (Z.ltb_spec (max_connections c) (min_connections c)) as [Hmax | Hmax].
  { split; [ discriminate | lia ]. }
  destruct (le_zero (connection_timeout c)).
  { split; [ discriminate | intros (_ & _ & H & _); discriminate H ]. }
  destruct (existsb (String.eqb (sslmode c)) valid_sslmodes) eqn:E; cbn [negb].
  - split; [ intros _ | reflexivity ].
    repeat split; try lia. now apply Hmode.
  - split; [ discriminate | ].
    intros (_ & _ & _ & Hin). apply Hmode in Hin. discriminate Hin.
Qed.

(** X27.  A connection string stands alone: with one, the arguments of
    the connection are [conninfo] only, and host, port, database, user,
    password, SSL mode and options are all left out.  Without one (an
    empty string counts as none), an entry of [options] overrides the
    setting of the same name, and the keys are the six settings in
    their order followed by the other option keys in theirs. *)
Theorem connection_kwargs_precedence (c : DatabaseConfig)
    (Hoptions : NoDup (dict_keys (options c))) :
  match given (connection_string c) with
  | Some conninfo => get_connection_kwargs c = [("conninfo", VStr conninfo)]
  | None =>
      (forall k,
          dict_get k (get_connection_kwargs c)
          = match dict_get k (options c) with
            | Some v => Some v
            | None => dict_get k (explicit_kwargs c)
            end)
      /\ dict_keys (get_connection_kwargs c)
         = ["host"; "port"; "dbname"; "user"; "password"; "sslmode"]
           ++ filter (fun k => negb (dict_mem k (explicit_kwargs c)))
                     (dict_keys (options c))
  end.
Proof.
  unfold get_connection_kwargs.
  destruct (given (connection_string c)); [ reflexivity | ].
  exact (dict_update_spec (options c) (explicit_kwargs c) Hoptions).
Qed.

End ConfigFacts.

Module SetupFacts.

Import Setup.

(** X28.  The connection checks of setup.py never use the connection
    string.  [check_connection] connects with the arguments of
    [get_connection_kwargs] without [conninfo] and with a connect
    timeout of 5, which overrides an option of that name;
    [init_schema] connects with them without [conninfo].  For a
    configuration given by a connection string, the check therefore
    connects with the timeout alone and [init_schema] with no argument
    at all. *)
Theorem setup_drops_the_connection_string (c : Config.DatabaseConfig) :
  (forall k,
      dict_get k (check_connection_kwargs c)
      = if String.eqb k "connect_timeout" then Some (VInt 5)
        else if String.eqb k "conninfo" then None
             else dict_get k (Config.get_connection_kwargs c))
  /\ (forall k,
         dict_get k (init_schema_kwargs c)
         = if String.eqb k "conninfo" then None
           else dict_get k (Config.get_connection_kwargs c))
  /\ match given (Config.connection_string c) with
     | Some _ =>
         check_connection_kwargs c = [("connect_timeout", VInt 5)]
         /\ init_schema_kwargs c = []
     | None => True
     end.
Proof.
  split; [ | split ].
  - intros k. unfold check_connection_kwargs.
    now rewrite dict_get_set, dict_get_remove.
  - intros k. unfold init_schema_kwargs. now rewrite dict_get_remove.
  - unfold check_connection_kwargs, init_schema_kwargs,
      Config.get_connection_kwargs.
    destruct (given (Config.connection_string c)); [ | exact I ].
    split; reflexivity.
Qed.

Section FlowFacts.

Context {W : Type}.
Context (probe : Dict -> W -> option Exc * W).
Context (ask_user : W -> Result string * W).
Context (ask_password : W -> Result string * W).
Context (admin_work : Config.DatabaseConfig -> string -> string -> bool ->
                      W -> bool * W).
Context (run_schema : Dict -> string -> W -> option Exc * W).
Context (path_str : string -> string).
Context (files : string -> option (Result string)).

Lemma check_connection_run (config : Config.DatabaseConfig) (s : St) :
  check_connection probe config s
  = (Ok (match fst (probe (check_connection_kwargs config) (fst s)) with
         | None => true
         | Some _ => false
         end),
     (snd (probe (check_connection_kwargs config) (fst s)),
      snd s ++ [Probe (check_connection_kwargs config)])).
Proof.
  unfold check_connection, step.
  destruct (probe (check_connection_kwargs config) (fst s)) as [[e |] w];
    reflexivity.
Qed.

(** X29.  [ensure_database] begins with one connection check.  When the
    database answers, no setup takes place: the schema is initialised
    if a path or a text is given, and the call returns [True].  When it
    does not answer and the call is not interactive, the call raises
    [DatabaseConnectionError] for the missing admin credentials right
    after the check: nothing is asked, created or initialised, since
    [ensure_database] hands no credentials to [setup_database].
    Whenever the call returns, it returns [True]. *)
Theorem ensure_database_flow (config : Config.DatabaseConfig)
    (schema_path schema_sql : option string) (interactive : bool) (s : St) :
  let kwargs := check_connection_kwargs config in
  let out := ensure_database probe ask_user ask_password admin_work run_schema
                             path_str files config schema_path schema_sql
                             interactive s in
  let checked := (snd (probe kwargs (fst s)), snd s ++ [Probe kwargs]) in
  match fst (probe kwargs (fst s)) with
  | None =>
      out = (match schema_path, schema_sql with
             | None, None => ret tt
             | _, _ => init_schema run_schema path_str files config
                                   schema_path schema_sql
             end ;;; ret true) checked
  | Some _ =>
      interactive = false -> out = (Raise credentials_required, checked)
  end
  /\ (forall answer, fst out = Ok answer -> answer = true).
Proof.
  cbv zeta. split.
  - pose proof (check_connection_run config s) as Hcheck.
    destruct (probe (check_connection_kwargs config) (fst s)) as [[e |] w];
      cbn [fst snd] in *.
    + intros ->. unfold ensure_database.
      rewrite (bind_ok _ _ _ _ _ Hcheck). reflexivity.
    + unfold ensure_database.
      rewrite (bind_ok _ _ _ _ _ Hcheck). reflexivity.
  - intros answer H.
    unfold ensure_database, bind in H.
    repeat match type of H with
           | context [match ?x with _ => _ end] =>
               destruct x; cbn [fst] in H; try discriminate H
           end;
      now inversion H.
Qed.

(** X30.  [init_schema] of setup.py.  With neither argument it raises
    [SchemaError] at once.  A path, when given, decides alone and the
    text argument is ignored: a missing file raises [SchemaError], an
    error while reading is raised as it is, not as a [SchemaError], and
    otherwise the content of the file is what is run.  The run connects
    without the connection string, and an error in it comes out as a
    [SchemaError] with that error as cause. *)
Theorem setup_init_schema_by_arguments (config : Config.DatabaseConfig)
    (schema_path schema_sql : option string) (s : St) :
  let run text :=
    let kwargs := init_schema_kwargs config in
    (match fst (run_schema kwargs text (fst s)) with
     | None => Ok tt
     | Some e =>
         Raise (SchemaError ("Failed to initialize schema: " ^^ exc_str e)
                            (Some e))
     end,
     (snd (run_schema kwargs text (fst s)),
      snd s ++ [RunSchema kwargs text])) in
  init_schema run_schema path_str files config schema_path schema_sql s
  = match schema_path, schema_sql with
    | None, None => (Raise no_schema, s)
    | Some p, _ =>
        match files (path_str p) with
        | None => (Raise (schema_file_not_found (path_str p)), s)
        | Some (Raise e) => (Raise e, s)
        | Some (Ok content) => run content
        end
    | None, Some text => run text
    end.
Proof.
  cbv zeta.
  assert (Hrun : forall text,
             try_except
               (fun s0 : St =>
                  let '(failure, s') :=
                    step (RunSchema (init_schema_kwargs config) text)
                         (run_schema (init_schema_kwargs config) text) s0 in
                  match failure with
                  | None => (Ok tt, s')
                  | Some e => (Raise e, s')
                  end)
               (fun e =>
                  raise (SchemaError
                           ("Failed to initialize schema: " ^^ exc_str e)
                           (Some e))) s
             = (match fst (run_schema (init_schema_kwargs config) text (fst s))
                with
                | None => Ok tt
                | Some e =>
                    Raise (SchemaError
                             ("Failed to initialize schema: " ^^ exc_str e)
                             (Some e))
                end,
                (snd (run_schema (init_schema_kwargs config) text (fst s)),
                 snd s ++ [RunSchema (init_schema_kwargs config) text]))).
  { intros text. unfold try_except, step, raise.
    destruct (run_schema (init_schema_kwargs config) text (fst s))
      as [[e |] w]; reflexivity. }
  unfold init_schema.
  destruct schema_path as [p |].
  - assert (Hpath :
              (sql_text <-
                 match files (path_str p) with
                 | None => raise (schema_file_not_found (path_str p))
                 | Some (Ok content) => ret (Some content)
                 | Some (Raise e) => raise e
                 end ;;
               try_except
                 (match sql_text with
                  | Some text =>
                      fun s0 : St =>
                        let '(failure, s') :=
                          step (RunSchema (init_schema_kwargs config) text)
                               (run_schema (init_schema_kwargs config) text)
                               s0 in
                        match failure with
                        | None => (Ok tt, s')
                        | Some e => (Raise e, s')
                        end
                  | None => ret tt
                  end)
                 (fun e =>
                    raise (SchemaError
                             ("Failed to initialize schema: " ^^ exc_str e)
                             (Some e)))) s
              = match files (path_str p) with
                | None => (Raise (schema_file_not_found (path_str p)), s)
                | Some (Raise e) => (Raise e, s)
                | Some (Ok content) =>
                    (match fst (run_schema (init_schema_kwargs config) content
                                           (fst s)) with
                     | None => Ok tt
                     | Some e =>
                         Raise (SchemaError
                                  ("Failed to initialize schema: "
                                   ^^ exc_str e) (Some e))
                     end,
                     (snd (run_schema (init_schema_kwargs config) content
                                      (fst s)),
                      snd s ++ [RunSchema (init_schema_kwargs config) content]))
                end).
    { unfold bind at 1.
      destruct (files (path_str p)) as [[content | e] |]; cbn [ret raise];
        [ apply Hrun | reflexivity | reflexivity ]. }
    destruct schema_sql; exact Hpath.
  - destruct schema_sql as [text |]; [ | reflexivity ].
    unfold bind at 1. cbn [ret]. apply Hrun.
Qed.

End FlowFacts.

End SetupFacts.

(** An option named [host] and an option of another name. *)
Lemma connection_kwargs_precedence_witness :
  dict_get "host" (Config.get_connection_kwargs Config.with_options)
  = Some (VStr "db.internal")
  /\ dict_keys (Config.get_connection_kwargs Config.with_options)
     = ["host"; "port"; "dbname"; "user"; "password"; "sslmode";
        "application_name"].
Proof.
  assert (Hoptions : NoDup (dict_keys (Config.options Config.with_options))).
  { constructor; [ intros [H | []]; discriminate H | ].
    constructor; [ intros [] | constructor ]. }
  destruct (ConfigFacts.connection_kwargs_precedence Config.with_options
              Hoptions) as [Hget Hkeys].
  split; [ exact (Hget "host") | exact Hkeys ].
Defined.

